(** * AIBOM agent: document builder, risk interpreter and comparison engine

    A shallow embedding of the pure core of [aibom_agent]:

    - [models/analysis_result.py]     (modules [Model] and [Results]),
    - [services/bedrock_agent.py]     (modules [Bedrock] and [Insights]:
                                       parsing a reply),
    - [services/aibom_generator.py]   (module [Generator]),
    - [services/comparison_engine.py] (module [Engine]),
    - [services/huggingface_service.py] (module [Hub]: the model card and
                                       the size estimate),
    - [services/report_generator.py]  (module [Reports]: the file names),
    - [core/agent_orchestrator.py]    (module [Orchestrator]) and [main.py]
                                       (module [Handler]), what lies outside
                                       the program being given as a [World],

    on top of the part of the Python runtime these functions use: module
    [Py] (exceptions, [str] methods, insertion-ordered [dict]s), module
    [F64] (binary64 floats), module [Json] ([json.loads]) and module
    [Builtins] ([float], [len]).  The definitions come first; the
    properties follow, from the section "Properties" on.

    Conventions.  A Python [str] is represented by the [string] of its
    UTF-8 bytes; every character the program itself looks for is ASCII, so
    byte offsets and character offsets select the same substrings.  A
    Python [dict] is an association list in insertion order.  An operation
    that may raise returns a [result]. *)

From Stdlib Require Import ZArith NArith List String Ascii Bool Lia.
From Stdlib Require Import Floats.SpecFloat.
Import ListNotations.

Set Implicit Arguments.
Set Warnings "-register-all".

(* ===================================================================== *)
(** * The Python runtime fragment                                         *)
(* ===================================================================== *)

Module Py.

(** ** Exceptions *)

Inductive exn : Set :=
  | TypeError | ValueError | AttributeError | OverflowError
  | ZeroDivisionError | JSONDecodeError | OSError.

Inductive result (A : Type) : Type :=
  | Ok (a : A)
  | Raise (e : exn).
Arguments Ok {A} a.
Arguments Raise {A} e.

Definition bind {A B} (m : result A) (k : A -> result B) : result B :=
  match m with
  | Ok a => k a
  | Raise e => Raise e
  end.

Definition is_ok {A} (m : result A) : bool :=
  match m with Ok _ => true | Raise _ => false end.

(** [for x in xs: f x], collecting the results, stopping at the first
    exception. *)
Fixpoint mapM {A B} (f : A -> result B) (xs : list A) : result (list B) :=
  match xs with
  | [] => Ok []
  | x :: r =>
      match f x with
      | Raise e => Raise e
      | Ok y => match mapM f r with
                | Raise e => Raise e
                | Ok ys => Ok (y :: ys)
                end
      end
  end.

(** ** [str] *)

Local Open Scope string_scope.

Definition chr (n : nat) : ascii := ascii_of_nat n.
Definition ord (c : ascii) : nat := nat_of_ascii c.

Definition len (s : string) : Z := Z.of_nat (String.length s).

(** [s.find(c)] for a one-character needle: the least index, or [-1]. *)
Fixpoint find_from (c : ascii) (s : string) (i : Z) : Z :=
  match s with
  | EmptyString => (-1)%Z
  | String a r => if Ascii.eqb a c then i else find_from c r (i + 1)%Z
  end.
Definition find (c : ascii) (s : string) : Z := find_from c s 0%Z.

(** [s.rfind(c)]: the greatest index, or [-1]. *)
Fixpoint rfind_from (c : ascii) (s : string) (i last : Z) : Z :=
  match s with
  | EmptyString => last
  | String a r => rfind_from c r (i + 1)%Z (if Ascii.eqb a c then i else last)
  end.
Definition rfind (c : ascii) (s : string) : Z := rfind_from c s 0%Z (-1)%Z.

(** Slice bounds: a negative bound counts from the end, and both bounds are
    clamped to [0 .. len]. *)
Definition slice_index (n k : Z) : Z :=
  if (k <? 0)%Z then Z.max 0 (k + n) else Z.min k n.

(** [s[i:j]] *)
Definition slice (s : string) (i j : Z) : string :=
  let lo := slice_index (len s) i in
  let hi := slice_index (len s) j in
  substring (Z.to_nat lo) (Z.to_nat (hi - lo)) s.

(** [s.endswith(suffix)]: [s] is [suffix], or what follows its first
    character ends with [suffix]. *)
Fixpoint endswith (s suffix : string) : bool :=
  String.eqb s suffix
  || match s with
     | EmptyString => false
     | String _ r => endswith r suffix
     end.

(** [s.lower()], on the ASCII letters; bytes of other characters are kept. *)
Definition lower_char (c : ascii) : ascii :=
  let n := ord c in
  if (65 <=? n)%nat && (n <=? 90)%nat then chr (n + 32) else c.

Fixpoint lower (s : string) : string :=
  match s with
  | EmptyString => EmptyString
  | String c r => String (lower_char c) (lower r)
  end.

(** [sub in s] *)
Fixpoint contains (sub s : string) : bool :=
  String.prefix sub s
  || match s with
     | EmptyString => false
     | String _ r => contains sub r
     end.

(** Number of characters of a UTF-8 encoded [str]: the bytes that are not
    continuation bytes. *)
Fixpoint char_count (s : string) : nat :=
  match s with
  | EmptyString => 0
  | String c r =>
      let n := ord c in
      (if (128 <=? n)%nat && (n <? 192)%nat then 0 else 1) + char_count r
  end.

(** ** [dict]: insertion-ordered, assignment to an existing key keeps the
    key's position. *)

Section Dict.
Variables K V : Type.
Variable eqb : K -> K -> bool.

Definition dict := list (K * V).

Fixpoint get (d : dict) (k : K) : option V :=
  match d with
  | [] => None
  | (k', v) :: r => if eqb k' k then Some v else get r k
  end.

(** [d[k] = v] *)
Fixpoint set (d : dict) (k : K) (v : V) : dict :=
  match d with
  | [] => [(k, v)]
  | (k', v') :: r => if eqb k' k then (k', v) :: r else (k', v') :: set r k v
  end.


Definition keys (d : dict) : list K := map fst d.
Definition values (d : dict) : list V := map snd d.

(** [dict(pairs)] and dict comprehensions: successive assignments. *)
Definition of_pairs (ps : list (K * V)) : dict :=
  fold_left (fun d kv => set d (fst kv) (snd kv)) ps [].
End Dict.

(** [d.get(k, default)] *)
Definition get_default {K V} (eqb : K -> K -> bool) (d : dict K V) (k : K)
    (default : V) : V :=
  match get eqb d k with Some v => v | None => default end.

End Py.

Import Py.

Declare Scope py_scope.
Delimit Scope py_scope with py.
Notation "x <- m ;; k" := (Py.bind m (fun x => k))
  (at level 61, m at next level, right associativity) : py_scope.

(** Dicts keyed by [str]. *)
Definition sdict (V : Type) := Py.dict string V.
Definition sget {V} (d : sdict V) (k : string) : option V := Py.get String.eqb d k.
Definition sset {V} (d : sdict V) (k : string) (v : V) : sdict V := Py.set String.eqb d k v.

(* ===================================================================== *)
(** * binary64 floats                                                     *)
(* ===================================================================== *)

Module F64.

Definition prec : Z := 53.
Definition emax : Z := 1024.

(** A Python [float].  Every value built below comes out of
    [binary_round_aux], hence is in canonical form. *)
Definition float := spec_float.

Definition is_inf (f : float) : bool :=
  match f with S754_infinity _ => true | _ => false end.

(** The float nearest to an integer (ties to even). *)
Definition round_Z (z : Z) : float := binary_normalize prec emax z 0 false.

(** The float nearest to [a / b] for positive [a], [b]: one exact integer
    division, then one rounding. *)
Definition round_quot (s : bool) (a b : positive) : float :=
  SFdiv prec emax (S754_finite s a 0) (S754_finite false b 0).

(** [float(z)] for an [int]. *)
Definition of_int (z : Z) : result float :=
  let f := round_Z z in
  if is_inf f then Raise OverflowError else Ok f.

(** [a / b] for two [int]s (true division). *)
Definition int_truediv (a b : Z) : result float :=
  if (b =? 0)%Z then Raise ZeroDivisionError
  else
    let s := xorb (a <? 0)%Z (b <? 0)%Z in
    match a with
    | Z0 => Ok (S754_zero s)
    | _ =>
        let f := round_quot s (Z.to_pos (Z.abs a)) (Z.to_pos (Z.abs b)) in
        if is_inf f then Raise OverflowError else Ok f
    end.

(** The float nearest to [(-1)^s * m * 10^e10], the value of a decimal
    literal with digits [m]. *)
Definition of_decimal (s : bool) (m : Z) (e10 : Z) : float :=
  match m with
  | Zpos p =>
      if (0 <=? e10)%Z
      then binary_round prec emax s (Z.to_pos (Zpos p * 10 ^ e10)) 0
      else round_quot s p (Z.to_pos (10 ^ (- e10)))
  | _ => S754_zero s
  end.

Definition ltb (x y : float) : bool := SFltb x y.
Definition leb (x y : float) : bool := SFleb x y.
Definition eqb (x y : float) : bool := SFeqb x y.

Definition zero : float := S754_zero false.
Definition inf : float := S754_infinity false.
Definition nan : float := S754_nan.

Definition five : float := Eval vm_compute in round_Z 5.
Definition ten : float := Eval vm_compute in round_Z 10.

End F64.

(* ===================================================================== *)
(** * [json.loads]                                                        *)
(* ===================================================================== *)

(** The decoder of the standard [json] module with its default settings
    ([strict=True], no hooks): RFC 8259 plus the literals [NaN], [Infinity]
    and [-Infinity].  Not modelled: the interpreter's recursion limit and
    its limit on the length of an integer literal. *)

Module Json.

Import F64.
Local Open Scope string_scope.
Local Open Scope char_scope.

Inductive json : Type :=
  | JNull
  | JBool (b : bool)
  | JInt (z : Z)
  | JFloat (f : float)
  | JStr (s : string)
  | JArr (l : list json)
  | JObj (d : list (string * json)).

(** Outcome of a scanner: a value and the unread rest, a syntax error, or
    exhausted fuel. *)
Inductive scan (A : Type) : Type :=
  | Scanned (a : A) (rest : string)
  | Bad
  | NoFuel.
Arguments Scanned {A} a rest.
Arguments Bad {A}.
Arguments NoFuel {A}.

(** *** Lexical helpers *)

Definition is_ws (c : ascii) : bool :=
  Ascii.eqb c " " || Ascii.eqb c (chr 9) || Ascii.eqb c (chr 10)
  || Ascii.eqb c (chr 13).

Fixpoint skip_ws (s : string) : string :=
  match s with
  | EmptyString => EmptyString
  | String c r => if is_ws c then skip_ws r else s
  end.

Definition is_digit (c : ascii) : bool :=
  (48 <=? ord c)%nat && (ord c <=? 57)%nat.

Definition digit_val (c : ascii) : Z := Z.of_nat (ord c - 48).

(** The longest prefix of decimal digits, and what follows it. *)
Fixpoint take_digits (s : string) : string * string :=
  match s with
  | EmptyString => (EmptyString, EmptyString)
  | String c r =>
      if is_digit c
      then let (ds, rest) := take_digits r in (String c ds, rest)
      else (EmptyString, s)
  end.

Fixpoint digits_value_from (acc : Z) (ds : string) : Z :=
  match ds with
  | EmptyString => acc
  | String c r => digits_value_from (10 * acc + digit_val c)%Z r
  end.
Definition digits_value (ds : string) : Z := digits_value_from 0%Z ds.

Definition is_empty (s : string) : bool :=
  match s with EmptyString => true | _ => false end.

Fixpoint drop (n : nat) (s : string) : string :=
  match n, s with
  | S k, String _ r => drop k r
  | _, _ => s
  end.

Definition hex_val (c : ascii) : option N :=
  let n := ord c in
  if (48 <=? n)%nat && (n <=? 57)%nat then Some (N.of_nat (n - 48))
  else if (65 <=? n)%nat && (n <=? 70)%nat then Some (N.of_nat (n - 55))
  else if (97 <=? n)%nat && (n <=? 102)%nat then Some (N.of_nat (n - 87))
  else None.

(** Four hexadecimal digits. *)
Definition hex4 (s : string) : option (N * string) :=
  match s with
  | String a (String b (String c (String d r))) =>
      match hex_val a, hex_val b, hex_val c, hex_val d with
      | Some x, Some y, Some z, Some w =>
          Some (((x * 16 + y) * 16 + z) * 16 + w, r)%N
      | _, _, _, _ => None
      end
  | _ => None
  end.

Definition byte (n : N) : ascii := ascii_of_N n.

(** UTF-8 bytes of a code point (a lone surrogate gets its three-byte
    form). *)
Definition utf8 (cp : N) : string :=
  if (cp <? 128)%N then String (byte cp) ""
  else if (cp <? 2048)%N then
    String (byte (192 + cp / 64)) (String (byte (128 + cp mod 64)) "")
  else if (cp <? 65536)%N then
    String (byte (224 + cp / 4096))
      (String (byte (128 + (cp / 64) mod 64))
         (String (byte (128 + cp mod 64)) ""))
  else
    String (byte (240 + cp / 262144))
      (String (byte (128 + (cp / 4096) mod 64))
         (String (byte (128 + (cp / 64) mod 64))
            (String (byte (128 + cp mod 64)) ""))).

Definition is_high_surrogate (c : N) : bool := (55296 <=? c)%N && (c <=? 56319)%N.
Definition is_low_surrogate (c : N) : bool := (56320 <=? c)%N && (c <=? 57343)%N.
Definition join_surrogates (hi lo : N) : N :=
  (65536 + (hi - 55296) * 1024 + (lo - 56320))%N.

(** *** Strings: [scanstring], entered after the opening quote *)

Definition dquote : ascii := chr 34.

Definition simple_escape (c : ascii) : option ascii :=
  if Ascii.eqb c dquote then Some dquote
  else if Ascii.eqb c "\" then Some "\"
  else if Ascii.eqb c "/" then Some "/"
  else if Ascii.eqb c "b" then Some (chr 8)
  else if Ascii.eqb c "f" then Some (chr 12)
  else if Ascii.eqb c "n" then Some (chr 10)
  else if Ascii.eqb c "r" then Some (chr 13)
  else if Ascii.eqb c "t" then Some (chr 9)
  else None.

Fixpoint scanstring (fuel : nat) (s : string) (acc : string) : scan string :=
  match fuel with
  | O => NoFuel
  | S fuel' =>
      match s with
      | EmptyString => Bad
      | String c r =>
          if Ascii.eqb c dquote then Scanned acc r
          else if Ascii.eqb c "\" then
            match r with
            | EmptyString => Bad
            | String e r' =>
                if Ascii.eqb e "u" then
                  match hex4 r' with
                  | None => Bad
                  | Some (c1, r1) =>
                      if is_high_surrogate c1 && String.prefix "\u" r1 then
                        match hex4 (drop 2 r1) with
                        | None => Bad
                        | Some (c2, r2) =>
                            if is_low_surrogate c2
                            then scanstring fuel' r2
                                   (acc ++ utf8 (join_surrogates c1 c2))
                            else scanstring fuel' r1 (acc ++ utf8 c1)
                        end
                      else scanstring fuel' r1 (acc ++ utf8 c1)
                  end
                else
                  match simple_escape e with
                  | Some x => scanstring fuel' r' (acc ++ String x "")
                  | None => Bad
                  end
            end
          else if (ord c <? 32)%nat then Bad
          else scanstring fuel' r (acc ++ String c "")
      end
  end.

(** *** Numbers: an optional minus sign; [0] or a non-zero digit followed
    by digits; optionally a point and one or more digits; optionally [e] or
    [E], a sign and one or more digits.  A fraction or exponent that is
    started but not completed is left unread. *)

Definition scan_sign (s : string) : bool * string :=
  match s with
  | String c r => if Ascii.eqb c "-" then (true, r) else (false, s)
  | EmptyString => (false, s)
  end.

Definition scan_int_part (s : string) : string * string :=
  match s with
  | String c r =>
      if Ascii.eqb c "0" then (String c "", r)
      else take_digits s
  | EmptyString => (EmptyString, s)
  end.

Definition scan_frac (s : string) : string * string :=
  match s with
  | String c r =>
      if Ascii.eqb c "." then
        let (ds, rest) := take_digits r in
        if is_empty ds then (EmptyString, s) else (ds, rest)
      else (EmptyString, s)
  | EmptyString => (EmptyString, s)
  end.

(** The exponent, when present, as a signed integer. *)
Definition scan_exp (s : string) : option Z * string :=
  match s with
  | String c r =>
      if Ascii.eqb c "e" || Ascii.eqb c "E" then
        let (neg, r1) :=
          match r with
          | String g r' =>
              if Ascii.eqb g "-" then (true, r')
              else if Ascii.eqb g "+" then (false, r')
              else (false, r)
          | EmptyString => (false, r)
          end in
        let (ds, rest) := take_digits r1 in
        if is_empty ds then (None, s)
        else (Some (if neg then - digits_value ds else digits_value ds)%Z, rest)
      else (None, s)
  | EmptyString => (None, s)
  end.

Definition scan_number (s : string) : scan json :=
  let (neg, s1) := scan_sign s in
  let (ip, s2) := scan_int_part s1 in
  if is_empty ip then Bad
  else
    let (fp, s3) := scan_frac s2 in
    let (ex, s4) := scan_exp s3 in
    match is_empty fp, ex with
    | true, None =>
        Scanned (JInt (if neg then - digits_value ip else digits_value ip)%Z) s4
    | _, _ =>
        let e := match ex with Some e => e | None => 0%Z end in
        Scanned
          (JFloat (of_decimal neg (digits_value (ip ++ fp))
                     (e - Z.of_nat (String.length fp))))
          s4
    end.

(** *** Values: [scan_once] with its object and array loops *)

(** The rest of [s] after the character [c], if [s] starts with it. *)
Definition expect (c : ascii) (s : string) : option string :=
  match s with
  | String a r => if Ascii.eqb a c then Some r else None
  | EmptyString => None
  end.

Fixpoint scan_once (fuel : nat) (s : string) {struct fuel} : scan json :=
  match fuel with
  | O => NoFuel
  | S fuel' =>
      match s with
      | EmptyString => Bad
      | String c r =>
          if Ascii.eqb c dquote then
            match scanstring (S (String.length r)) r "" with
            | Scanned str rest => Scanned (JStr str) rest
            | Bad => Bad
            | NoFuel => NoFuel
            end
          else if Ascii.eqb c "{" then
            match expect "}" (skip_ws r) with
            | Some rest => Scanned (JObj []) rest
            | None => scan_members fuel' (skip_ws r) []
            end
          else if Ascii.eqb c "[" then
            match expect "]" (skip_ws r) with
            | Some rest => Scanned (JArr []) rest
            | None => scan_elements fuel' (skip_ws r) []
            end
          else if String.prefix "null" s then Scanned JNull (drop 4 s)
          else if String.prefix "true" s then Scanned (JBool true) (drop 4 s)
          else if String.prefix "false" s then Scanned (JBool false) (drop 5 s)
          else if String.prefix "NaN" s then Scanned (JFloat nan) (drop 3 s)
          else if String.prefix "Infinity" s then Scanned (JFloat inf) (drop 8 s)
          else if String.prefix "-Infinity" s
               then Scanned (JFloat (S754_infinity true)) (drop 9 s)
          else scan_number s
      end
  end

(** After [{] or [,]: a quoted key, a colon, a value, then [}] or [,]. *)
with scan_members (fuel : nat) (s : string) (acc : list (string * json))
    {struct fuel} : scan json :=
  match fuel with
  | O => NoFuel
  | S fuel' =>
      match expect dquote s with
      | None => Bad
      | Some r =>
          match scanstring (S (String.length r)) r "" with
          | Scanned key r1 =>
              match expect ":" (skip_ws r1) with
              | None => Bad
              | Some r2 =>
                  match scan_once fuel' (skip_ws r2) with
                  | Scanned v r3 =>
                      match expect "}" (skip_ws r3) with
                      | Some rest =>
                          Scanned
                            (JObj (Py.of_pairs String.eqb
                                     (rev ((key, v) :: acc))))
                            rest
                      | None =>
                          match expect "," (skip_ws r3) with
                          | Some r4 =>
                              scan_members fuel' (skip_ws r4) ((key, v) :: acc)
                          | None => Bad
                          end
                      end
                  | Bad => Bad
                  | NoFuel => NoFuel
                  end
              end
          | Bad => Bad
          | NoFuel => NoFuel
          end
      end
  end

(** After [[] or [,]: a value, then []] or [,]. *)
with scan_elements (fuel : nat) (s : string) (acc : list json)
    {struct fuel} : scan json :=
  match fuel with
  | O => NoFuel
  | S fuel' =>
      match scan_once fuel' s with
      | Scanned v r1 =>
          match expect "]" (skip_ws r1) with
          | Some rest => Scanned (JArr (rev (v :: acc))) rest
          | None =>
              match expect "," (skip_ws r1) with
              | Some r2 => scan_elements fuel' (skip_ws r2) (v :: acc)
              | None => Bad
              end
          end
      | Bad => Bad
      | NoFuel => NoFuel
      end
  end.

(** Fuel that always suffices: a value costs one unit, a loop iteration
    another, and each is entered after at least one more character has
    been read (lemma [loads_has_fuel]). *)
Definition fuel_for (s : string) : nat := S (2 * String.length s).

(** [json.loads(s)] *)
Definition loads (s : string) : result json :=
  let s0 := skip_ws s in
  match scan_once (fuel_for s0) s0 with
  | Scanned v rest =>
      if is_empty (skip_ws rest) then Ok v else Raise JSONDecodeError
  | _ => Raise JSONDecodeError
  end.

End Json.

(* ===================================================================== *)
(** * The builtin [float()]                                               *)
(* ===================================================================== *)

Module Builtins.

Import F64 Json.
Local Open Scope string_scope.
Local Open Scope char_scope.

(** ASCII white space, as removed by [float] around its argument. *)
Definition is_space (c : ascii) : bool :=
  let n := ord c in
  ((9 <=? n)%nat && (n <=? 13)%nat) || ((28 <=? n)%nat && (n <=? 32)%nat).

Fixpoint lstrip (s : string) : string :=
  match s with
  | EmptyString => EmptyString
  | String c r => if is_space c then lstrip r else s
  end.

Fixpoint rstrip (s : string) : string :=
  match s with
  | EmptyString => EmptyString
  | String c r =>
      let r' := rstrip r in
      if is_empty r' && is_space c then EmptyString else String c r'
  end.

Definition strip (s : string) : string := rstrip (lstrip s).

(** Underscores may only stand between two digits; they are dropped. *)
Fixpoint drop_underscores (prev : ascii) (s : string) : option string :=
  match s with
  | EmptyString => if Ascii.eqb prev "_" then None else Some EmptyString
  | String c r =>
      if Ascii.eqb c "_" then
        if is_digit prev then drop_underscores c r else None
      else if Ascii.eqb prev "_" && negb (is_digit c) then None
      else option_map (String c) (drop_underscores c r)
  end.

Definition scan_float_sign (s : string) : bool * string :=
  match s with
  | String c r =>
      if Ascii.eqb c "-" then (true, r)
      else if Ascii.eqb c "+" then (false, r)
      else (false, s)
  | EmptyString => (false, s)
  end.

(** [digits [. digits] [exponent]] or [. digits [exponent]], read to the
    end of the text. *)
Definition decimal_text (neg : bool) (s : string) : option float :=
  let (ip, s1) := take_digits s in
  let (fp, s2) :=
    match s1 with
    | String c r => if Ascii.eqb c "." then take_digits r else (EmptyString, s1)
    | EmptyString => (EmptyString, s1)
    end in
  if is_empty ip && is_empty fp then None
  else
    let (ex, s3) :=
      match s2 with
      | String c r =>
          if Ascii.eqb c "e" || Ascii.eqb c "E" then
            let (eneg, r1) := scan_float_sign r in
            let (ds, rest) := take_digits r1 in
            if is_empty ds then (None, s2)
            else (Some (if eneg then - digits_value ds else digits_value ds)%Z,
                  rest)
          else (None, s2)
      | EmptyString => (None, s2)
      end in
    if is_empty s3 then
      let e := match ex with Some e => e | None => 0%Z end in
      Some (of_decimal neg (digits_value (ip ++ fp))
              (e - Z.of_nat (String.length fp)))
    else None.

(** [float(s)] for a [str] of ASCII characters. *)
Definition float_of_str (s : string) : result float :=
  match drop_underscores (chr 0) (strip s) with
  | None => Raise ValueError
  | Some t =>
      let (neg, body) := scan_float_sign t in
      let low := Py.lower body in
      if String.eqb low "inf" || String.eqb low "infinity"
      then Ok (S754_infinity neg)
      else if String.eqb low "nan" then Ok nan
      else match decimal_text neg body with
           | Some f => Ok f
           | None => Raise ValueError
           end
  end.

(** [float(x)] for a decoded JSON value. *)
Definition py_float (x : json) : result float :=
  match x with
  | JNull => Raise TypeError
  | JBool b => Ok (if b then round_Z 1 else zero)
  | JInt z => of_int z
  | JFloat f => Ok f
  | JStr s => float_of_str s
  | JArr _ => Raise TypeError
  | JObj _ => Raise TypeError
  end.

(** [len(x)] for a decoded JSON value. *)
Definition py_len (x : json) : result Z :=
  match x with
  | JStr s => Ok (Z.of_nat (Py.char_count s))
  | JArr l => Ok (Z.of_nat (List.length l))
  | JObj d => Ok (Z.of_nat (List.length d))
  | _ => Raise TypeError
  end.

End Builtins.

(* ===================================================================== *)
(** * [models/analysis_result.py]                                         *)
(* ===================================================================== *)

Module Model.

Import F64 Json.

(** Values stored in the bill-of-materials documents built by this
    program: [None], [str], lists and string-keyed dicts of such. *)
Inductive pyval : Type :=
  | PNone
  | PStr (s : string)
  | PList (l : list pyval)
  | PDict (d : list (string * pyval)).

(** A component, dependency or vulnerability entry: [Dict[str, Any]]. *)
Definition entry := sdict pyval.

(** An entry of [ModelInfo.files]: [{"name": ..., "size": ...}]. *)
Record FileInfo : Type := {
  file_name : string;
  file_size : option Z
}.

Record ModelInfo : Type := {
  name : string;
  author : string;
  description : option string;
  tags : list string;
  pipeline_tag : option string;
  library_name : option string;
  license : option string;
  downloads : Z;
  likes : Z;
  created_at : string;
  last_modified : string;
  model_size : option Z;
  config : json;
  files : list FileInfo
}.

Record AIBOM : Type := {
  bom_format : string;
  spec_version : string;
  serial_number : string;
  version : Z;
  metadata : entry;
  components : list entry;
  dependencies : list entry;
  vulnerabilities : list entry;
  compositions : list entry
}.

(** The fields of [SecurityAnalysis] other than [risk_score] hold whatever
    value the reply carried under their key.  [sa_vulnerabilities] is the
    field [vulnerabilities], renamed apart from the one of [AIBOM]. *)
Record SecurityAnalysis : Type := {
  risk_score : float;
  risk_level : json;
  sa_vulnerabilities : json;
  compliance_issues : json;
  recommendations : json;
  unsafe_formats : json;
  suspicious_files : json;
  license_issues : json
}.

(** [timestamp] and [report_path] play no part in what follows. *)
Record AnalysisResult : Type := {
  model_name : string;
  model_info : ModelInfo;
  aibom : AIBOM;
  security_analysis : SecurityAnalysis
}.

End Model.

(* ===================================================================== *)
(** * [services/bedrock_agent.py]: parsing the reply                      *)
(* ===================================================================== *)

Module Bedrock.

Import F64 Json Builtins Model.
Local Open Scope string_scope.
Local Open Scope py_scope.

(** [data.get(key, default)]; a value that is not a dict has no [get]. *)
Definition data_get (data : json) (key : string) (default : json) : result json :=
  match data with
  | JObj d => Ok (Py.get_default String.eqb d key default)
  | _ => Raise AttributeError
  end.

Definition _create_default_security_analysis : SecurityAnalysis :=
  {| risk_score := five;
     risk_level := JStr "MEDIUM";
     sa_vulnerabilities := JArr [];
     compliance_issues := JArr [];
     recommendations := JArr [JStr "Manual security review recommended"];
     unsafe_formats := JArr [];
     suspicious_files := JArr [];
     license_issues := JArr [] |}.

(** The text from the first [{] to the last [}]. *)
Definition extract_json (response : string) : string :=
  let start_idx := Py.find "{" response in
  let end_idx := (Py.rfind "}" response + 1)%Z in
  Py.slice response start_idx end_idx.

(** The [try] block of [_parse_security_analysis]. *)
Definition parse_security_analysis_try (response : string)
    : result SecurityAnalysis :=
  data <- loads (extract_json response) ;;
  rs <- data_get data "risk_score" (JFloat five) ;;
  score <- py_float rs ;;
  level <- data_get data "risk_level" (JStr "MEDIUM") ;;
  vulns <- data_get data "vulnerabilities" (JArr []) ;;
  comp <- data_get data "compliance_issues" (JArr []) ;;
  recs <- data_get data "recommendations" (JArr []) ;;
  unsafe <- data_get data "unsafe_formats" (JArr []) ;;
  susp <- data_get data "suspicious_files" (JArr []) ;;
  lic <- data_get data "license_issues" (JArr []) ;;
  Ok {| risk_score := score;
        risk_level := level;
        sa_vulnerabilities := vulns;
        compliance_issues := comp;
        recommendations := recs;
        unsafe_formats := unsafe;
        suspicious_files := susp;
        license_issues := lic |}.

Definition _parse_security_analysis (response : string) : SecurityAnalysis :=
  match parse_security_analysis_try response with
  | Ok a => a
  | Raise _ => _create_default_security_analysis
  end.

(** [analyze_security], given the outcome of building the prompt and
    invoking the reasoning service. *)
Definition analyze_security (response : result string) : SecurityAnalysis :=
  match response with
  | Ok text => _parse_security_analysis text
  | Raise _ => _create_default_security_analysis
  end.

(** *** Vocabulary of the statements *)




(** The data-model invariant of a risk record. *)
Definition score_in_range (f : float) : bool := leb zero f && leb f ten.

Definition level_enumerated (v : json) : bool :=
  match v with
  | JStr s =>
      String.eqb s "LOW" || String.eqb s "MEDIUM" || String.eqb s "HIGH"
      || String.eqb s "CRITICAL"
  | _ => false
  end.

Definition record_valid (a : SecurityAnalysis) : bool :=
  score_in_range (risk_score a) && level_enumerated (risk_level a).

(** Writes a reply with ['] for the double quote. *)
Fixpoint dq (s : string) : string :=
  match s with
  | EmptyString => EmptyString
  | String c r => String (if Ascii.eqb c "'" then Json.dquote else c) (dq r)
  end.

End Bedrock.

(* ===================================================================== *)
(** * [services/aibom_generator.py]                                       *)
(* ===================================================================== *)

Module Generator.

Import Model.
Local Open Scope string_scope.

(** *** Effects: [uuid.uuid4()] and the scratch file *)

(** A UUID, by its 32 hexadecimal digits ([u.hex]). *)
Record UUID : Set := { hex : string }.

(** [str(u)]: the digits grouped 8-4-4-4-12. *)
Definition uuid_str (u : UUID) : string :=
  let h := hex u in
  substring 0 8 h ++ "-" ++ substring 8 4 h ++ "-" ++ substring 12 4 h
  ++ "-" ++ substring 16 4 h ++ "-" ++ substring 20 12 h.

(** The source of UUIDs: [source k] is the value of the [k]-th call of
    [uuid4] in this process, [drawn] the number of calls made so far. *)
Record supply : Type := {
  source : nat -> UUID;
  drawn : nat
}.

(** A computation that draws UUIDs and may raise. *)
Definition gen (A : Type) := supply -> result A * supply.

Definition ret {A} (a : A) : gen A := fun g => (Ok a, g).

Definition raise {A} (e : Py.exn) : gen A := fun g => (Raise e, g).

Definition bind {A B} (m : gen A) (k : A -> gen B) : gen B :=
  fun g =>
    match m g with
    | (Ok a, g') => k a g'
    | (Raise e, g') => (Raise e, g')
    end.

(** [try: m  except Exception: handler] *)
Definition try_except {A} (m : gen A) (handler : gen A) : gen A :=
  fun g =>
    match m g with
    | (Ok a, g') => (Ok a, g')
    | (Raise _, g') => handler g'
    end.

Definition uuid4 : gen UUID :=
  fun g => (Ok (source g (drawn g)),
            {| source := source g; drawn := S (drawn g) |}).

Declare Scope gen_scope.
Delimit Scope gen_scope with gen.
Notation "x <- m ;; k" := (bind m (fun x => k))
  (at level 61, m at next level, right associativity) : gen_scope.
Notation "m ;; k" := (bind m (fun _ => k))
  (at level 61, right associativity) : gen_scope.
Local Open Scope gen_scope.

(** Writing the manifest to its scratch file: succeeds or raises, as the
    environment decides. *)
Definition write_manifest (disk_ok : bool) : gen unit :=
  if disk_ok then ret tt else raise Py.OSError.

(** *** The manifest *)

(** The dict under ["model"]; the popularity block under ["metadata"] is
    never read back. *)
Record Manifest : Type := {
  m_name : string;
  m_version : string;
  m_author : string;
  m_description : option string;
  m_license : option string;
  m_pipeline_tag : option string;
  m_library_name : option string;
  m_tags : list string;
  m_files : list FileInfo;
  m_config : Json.json
}.

Definition _create_model_manifest (model_info : ModelInfo) : Manifest :=
  {| m_name := name model_info;
     m_version := "latest";
     m_author := author model_info;
     m_description := description model_info;
     m_license := license model_info;
     m_pipeline_tag := pipeline_tag model_info;
     m_library_name := library_name model_info;
     m_tags := tags model_info;
     m_files := files model_info;
     m_config := config model_info |}.

(** *** Entries *)

Definition opt_str (o : option string) : pyval :=
  match o with Some s => PStr s | None => PNone end.

Definition weights_component (model_data : Manifest) (file_name : string) : entry :=
  [("type", PStr "model-weights");
   ("name", PStr file_name);
   ("version", PStr "unknown");
   ("description", PStr ("Model weights file: " ++ file_name));
   ("supplier", PStr (m_author model_data));
   ("licenses",
    PList [PDict [("license", PDict [("name", opt_str (m_license model_data))])]])].

Definition config_component (model_data : Manifest) (file_name : string) : entry :=
  [("type", PStr "configuration");
   ("name", PStr file_name);
   ("version", PStr "unknown");
   ("description", PStr ("Configuration file: " ++ file_name));
   ("supplier", PStr (m_author model_data))].

Definition source_component (model_data : Manifest) (file_name : string) : entry :=
  [("type", PStr "source-code");
   ("name", PStr file_name);
   ("version", PStr "unknown");
   ("description", PStr ("Python source file: " ++ file_name));
   ("supplier", PStr (m_author model_data))].

Definition vulnerability (u : UUID) (source severity descr affected : string)
    : entry :=
  [("id", PStr ("AIBOM-" ++ substring 0 8 (hex u)));
   ("source", PDict [("name", PStr source)]);
   ("ratings", PList [PDict [("severity", PStr severity); ("method", PStr "other")]]);
   ("description", PStr descr);
   ("affects", PList [PDict [("ref", PStr affected)]])].

Definition pickle_vulnerability (u : UUID) (file_name : string) : entry :=
  vulnerability u "AIBOM Security Analysis" "high"
    ("Potentially unsafe pickle file detected: " ++ file_name) file_name.

Definition license_vulnerability (u : UUID) (model_name : string) : entry :=
  vulnerability u "AIBOM License Analysis" "medium"
    "Model license is not specified or unknown" model_name.

Definition framework_dependency (library_name : string) : entry :=
  [("type", PStr "framework");
   ("name", PStr library_name);
   ("version", PStr "unknown");
   ("description", PStr ("ML framework dependency: " ++ library_name));
   ("supplier", PStr "community")].

(** *** [_simulate_owasp_generator] *)

Definition is_weights (file_name : string) : bool :=
  Py.endswith file_name ".bin" || Py.endswith file_name ".safetensors".
Definition is_config (file_name : string) : bool := Py.endswith file_name ".json".
Definition is_source (file_name : string) : bool := Py.endswith file_name ".py".
Definition mentions_pickle (file_name : string) : bool :=
  Py.contains "pickle" (Py.lower file_name).

(** Truth value of an optional [str]. *)
Definition truthy (o : option string) : bool :=
  match o with
  | Some s => negb (String.eqb s "")
  | None => false
  end.

(** [license in [None, "unknown"]] *)
Definition license_unknown (o : option string) : bool :=
  match o with
  | None => true
  | Some s => String.eqb s "unknown"
  end.

(** The loop over the file list; [components] and [vulnerabilities] are the
    lists built so far. *)
Fixpoint scan_files (model_data : Manifest) (fs : list FileInfo)
    (components vulnerabilities : list entry) : gen (list entry * list entry) :=
  match fs with
  | [] => ret (components, vulnerabilities)
  | file_info :: rest =>
      let file_name := file_name file_info in
      if is_weights file_name then
        scan_files model_data rest
          (components ++ [weights_component model_data file_name])%list
          vulnerabilities
      else if is_config file_name then
        scan_files model_data rest
          (components ++ [config_component model_data file_name])%list
          vulnerabilities
      else if is_source file_name then
        let components' := (components ++ [source_component model_data file_name])%list in
        if mentions_pickle file_name then
          u <- uuid4 ;;
          scan_files model_data rest components'
            (vulnerabilities ++ [pickle_vulnerability u file_name])%list
        else scan_files model_data rest components' vulnerabilities
      else scan_files model_data rest components vulnerabilities
  end.

Definition subject_metadata (model_data : Manifest) (model_name : string) : entry :=
  [("timestamp", PStr "2024-01-01T00:00:00Z");
   ("tools",
    PList [PDict [("vendor", PStr "OWASP");
                  ("name", PStr "AIBOM Generator");
                  ("version", PStr "1.0.0")]]);
   ("component",
    PDict [("type", PStr "machine-learning-model");
           ("name", PStr model_name);
           ("version", PStr "latest");
           ("description", opt_str (m_description model_data));
           ("supplier", PDict [("name", PStr (m_author model_data))])])].

(** Returns the document under the field names [_convert_to_aibom] gives
    its keys. *)
Definition _simulate_owasp_generator (model_data : Manifest)
    (model_name : string) : gen AIBOM :=
  cv <- scan_files model_data (m_files model_data) [] [] ;;
  let components := fst cv in
  let vulnerabilities := snd cv in
  let dependencies :=
    if truthy (m_library_name model_data)
    then match m_library_name model_data with
         | Some library_name => [framework_dependency library_name]
         | None => []
         end
    else [] in
  vulnerabilities <-
    (if license_unknown (m_license model_data)
     then u <- uuid4 ;; ret (vulnerabilities ++ [license_vulnerability u model_name])%list
     else ret vulnerabilities) ;;
  serial <- uuid4 ;;
  ret {| bom_format := "CycloneDX";
         spec_version := "1.5";
         serial_number := "urn:uuid:" ++ uuid_str serial;
         version := 1;
         metadata := subject_metadata model_data model_name;
         components := components;
         dependencies := dependencies;
         vulnerabilities := vulnerabilities;
         compositions := [] |}.

(** Every key read by [_convert_to_aibom] is present in the generated
    document, so each [get] returns the stored value. *)
Definition _convert_to_aibom (aibom_data : AIBOM) (model_info : ModelInfo) : AIBOM :=
  aibom_data.

Definition _run_owasp_generator (disk_ok : bool) (manifest : Manifest)
    (model_name : string) : gen AIBOM :=
  manifest_file <- uuid4 ;;
  output_file <- uuid4 ;;
  write_manifest disk_ok ;;
  _simulate_owasp_generator manifest model_name.

Definition or_empty (o : option string) : string :=
  match o with
  | Some s => s
  | None => ""
  end.

Definition _create_basic_aibom (model_info : ModelInfo) : gen AIBOM :=
  serial <- uuid4 ;;
  ret {| bom_format := "CycloneDX";
         spec_version := "1.5";
         serial_number := "urn:uuid:" ++ uuid_str serial;
         version := 1;
         metadata :=
           [("timestamp", PStr "2024-01-01T00:00:00Z");
            ("component",
             PDict [("type", PStr "machine-learning-model");
                    ("name", PStr (name model_info));
                    ("version", PStr "latest")])];
         components :=
           [[("type", PStr "machine-learning-model");
             ("name", PStr (name model_info));
             ("version", PStr "latest");
             ("description", PStr (or_empty (description model_info)));
             ("supplier", PDict [("name", PStr (author model_info))])]];
         dependencies := [];
         vulnerabilities := [];
         compositions := [] |}.

Definition generate_aibom_try (disk_ok : bool) (model_info : ModelInfo) : gen AIBOM :=
  let manifest := _create_model_manifest model_info in
  aibom_data <- _run_owasp_generator disk_ok manifest (name model_info) ;;
  ret (_convert_to_aibom aibom_data model_info).

Definition generate_aibom (disk_ok : bool) (model_info : ModelInfo) : gen AIBOM :=
  try_except (generate_aibom_try disk_ok model_info)
             (_create_basic_aibom model_info).

(** The document built for [model_info]: [generate_aibom] never raises. *)
Definition build (disk_ok : bool) (model_info : ModelInfo) (g : supply) : AIBOM :=
  match fst (generate_aibom disk_ok model_info g) with
  | Ok a => a
  | Raise _ =>
      (* unreachable: see [generate_aibom_total] *)
      {| bom_format := ""; spec_version := ""; serial_number := ""; version := 0;
         metadata := []; components := []; dependencies := [];
         vulnerabilities := []; compositions := [] |}
  end.

(** *** Vocabulary of the statements *)

Definition as_str (v : option pyval) : option string :=
  match v with
  | Some (PStr s) => Some s
  | _ => None
  end.

(** The severities in the [ratings] of a vulnerability entry. *)
Definition severities (v : entry) : list (option string) :=
  match sget v "ratings" with
  | Some (PList rs) =>
      map (fun r => match r with
                    | PDict d => as_str (sget d "severity")
                    | _ => None
                    end) rs
  | _ => []
  end.

(** The [ref]s in the [affects] of a vulnerability entry. *)
Definition affected_refs (v : entry) : list (option string) :=
  match sget v "affects" with
  | Some (PList rs) =>
      map (fun r => match r with
                    | PDict d => as_str (sget d "ref")
                    | _ => None
                    end) rs
  | _ => []
  end.

Definition opt_is (s : string) (o : option string) : bool :=
  match o with
  | Some t => String.eqb t s
  | None => false
  end.

Definition has_severity (sev : string) (v : entry) : bool :=
  existsb (opt_is sev) (severities v).

Definition references (target : string) (v : entry) : bool :=
  existsb (opt_is target) (affected_refs v).

Definition is_high (v : entry) : bool := has_severity "high" v.
Definition is_medium (v : entry) : bool := has_severity "medium" v.


(** The HIGH-severity entries of a document that reference [target]. *)
Definition high_entries_for (target : string) (a : AIBOM) : list entry :=
  filter (fun v => is_high v && references target v) (vulnerabilities a).

(** The MEDIUM-severity entries about the absent license. *)
Definition describes_license_absence (v : entry) : bool :=
  opt_is "Model license is not specified or unknown" (as_str (sget v "description")).

Definition license_entries (a : AIBOM) : list entry :=
  filter (fun v => is_medium v && describes_license_absence v) (vulnerabilities a).

(** The subject component recorded in the metadata block. *)
Definition subject_component (a : AIBOM) : option pyval := sget (metadata a) "component".


(** *** Closed forms of the file loop *)

(** The component a file contributes, if any. *)
Definition file_component (model_data : Manifest) (f : FileInfo) : list entry :=
  let n := file_name f in
  if is_weights n then [weights_component model_data n]
  else if is_config n then [config_component model_data n]
  else if is_source n then [source_component model_data n]
  else [].

(** The file reaches the pickle test of the loop and passes it. *)
Definition flagged (f : FileInfo) : bool :=
  let n := file_name f in
  negb (is_weights n) && negb (is_config n) && is_source n && mentions_pickle n.

(** The entries appended for the flagged files, the first of them with the
    [k]-th UUID of the source. *)
Fixpoint flagged_entries (src : nat -> UUID) (k : nat) (fs : list FileInfo)
    : list entry :=
  match fs with
  | [] => []
  | f :: rest =>
      if flagged f
      then pickle_vulnerability (src k) (file_name f) :: flagged_entries src (S k) rest
      else flagged_entries src k rest
  end.

(** The document of the normal path, in closed form. *)
Definition normal_document (mi : ModelInfo) (g : supply) : AIBOM :=
  let md := _create_model_manifest mi in
  let k := drawn g + 2 in
  let n := List.length (filter flagged (files mi)) in
  let with_license := license_unknown (license mi) in
  {| bom_format := "CycloneDX";
     spec_version := "1.5";
     serial_number :=
       "urn:uuid:" ++ uuid_str (source g (k + n + if with_license then 1 else 0));
     version := 1;
     metadata := subject_metadata md (name mi);
     components := flat_map (file_component md) (files mi);
     dependencies :=
       if truthy (library_name mi)
       then match library_name mi with
            | Some l => [framework_dependency l]
            | None => []
            end
       else [];
     vulnerabilities :=
       (flagged_entries (source g) k (files mi)
        ++ if with_license
           then [license_vulnerability (source g (k + n)) (name mi)]
           else [])%list;
     compositions := [] |}.

End Generator.

(* ===================================================================== *)
(** * [services/comparison_engine.py]                                     *)
(* ===================================================================== *)

Module Engine.

Import F64 Json Builtins Model.
Local Open Scope string_scope.
Local Open Scope py_scope.

(** *** Component names as set elements and dict keys *)

(** [comp.get('name', '')] *)
Definition comp_name (comp : entry) : pyval :=
  Py.get_default String.eqb comp "name" (PStr "").

(** Lists and dicts cannot be hashed. *)
Definition hashable (v : pyval) : bool :=
  match v with
  | PNone => true
  | PStr _ => true
  | PList _ => false
  | PDict _ => false
  end.

(** Equality of hashable values. *)
Definition key_eqb (a b : pyval) : bool :=
  match a, b with
  | PNone, PNone => true
  | PStr s, PStr t => String.eqb s t
  | _, _ => false
  end.

Definition hash_key (v : pyval) : result pyval :=
  if hashable v then Ok v else Raise TypeError.

(** [{comp.get('name', '') for comp in components}]; a set is kept as the
    list of its elements, of which only membership is observed. *)
Definition name_set (components : list entry) : result (list pyval) :=
  Py.mapM (fun comp => hash_key (comp_name comp)) components.

(** [name in names] *)
Definition name_in (n : pyval) (names : list pyval) : bool :=
  existsb (key_eqb n) names.

(** [{comp.get('name', ''): comp for comp in components}] *)
Fixpoint by_name (components : list entry) (d : Py.dict pyval entry)
    : result (Py.dict pyval entry) :=
  match components with
  | [] => Ok d
  | comp :: rest =>
      k <- hash_key (comp_name comp) ;;
      by_name rest (Py.set key_eqb d k comp)
  end.

(** *** [_extract_all_components] *)

Definition _extract_all_components (results : list AnalysisResult)
    : sdict (list entry) :=
  fold_left (fun all_components result =>
               sset all_components (model_name result) (components (aibom result)))
            results [].

(** *** [_find_common_components] *)

(** The inner loop: is [comp_name] in the name set of every other model?
    The set of a model is built when the loop reaches it; the loop stops at
    the first model that lacks the name. *)
Fixpoint in_every_model (n : pyval) (others : list (string * list entry))
    : result bool :=
  match others with
  | [] => Ok true
  | (_, comps) :: rest =>
      model_comp_names <- name_set comps ;;
      if name_in n model_comp_names then in_every_model n rest else Ok false
  end.

Definition annotate (comp_data : entry) (model_names : list string) : entry :=
  sset comp_data "found_in_models" (PList (map PStr model_names)).

(** The outer loop over [first_model_components.items()]. *)
Fixpoint common_loop (items : list (pyval * entry))
    (others : list (string * list entry)) (model_names : list string)
    (common_components : list entry) : result (list entry) :=
  match items with
  | [] => Ok common_components
  | (n, comp_data) :: rest =>
      is_common <- in_every_model n others ;;
      common_loop rest others model_names
        (if is_common
         then (common_components ++ [annotate comp_data model_names])%list
         else common_components)
  end.

Definition _find_common_components (all_components : sdict (list entry))
    : result (list entry) :=
  match all_components with
  | [] => Ok []
  | (_, first_components) :: others =>
      let model_names := Py.keys all_components in
      first_model_components <- by_name first_components [] ;;
      common_loop first_model_components others model_names []
  end.

(** *** [_find_unique_components] *)

Fixpoint collect_names (items : list (string * list entry))
    (model_comp_names : sdict (list pyval)) : result (sdict (list pyval)) :=
  match items with
  | [] => Ok model_comp_names
  | (model_name, comps) :: rest =>
      comp_names <- name_set comps ;;
      collect_names rest (sset model_comp_names model_name comp_names)
  end.

(** No other model's name set holds [n]. *)
Definition is_unique (model_name : string) (n : pyval)
    (model_comp_names : sdict (list pyval)) : bool :=
  negb (existsb (fun other =>
                   negb (String.eqb (fst other) model_name)
                   && name_in n (snd other))
                model_comp_names).

Definition unique_to_model (model_name : string) (comps : list entry)
    (model_comp_names : sdict (list pyval)) : list entry :=
  filter (fun comp => is_unique model_name (comp_name comp) model_comp_names) comps.

Definition _find_unique_components (all_components : sdict (list entry))
    : result (sdict (list entry)) :=
  model_comp_names <- collect_names all_components [] ;;
  Ok (fold_left
        (fun unique_components item =>
           sset unique_components (fst item)
                (unique_to_model (fst item) (snd item) model_comp_names))
        all_components []).

(** *** [max] and [min] with a key: the first extreme element wins. *)

Section Extremes.
Variables A K : Type.
Variable key : A -> K.
Variable ltb : K -> K -> bool.

(** [max(xs, key=key)]: replaced only by a strictly greater key. *)
Definition max_by (xs : list A) : option A :=
  match xs with
  | [] => None
  | x :: rest =>
      Some (fold_left (fun best y => if ltb (key best) (key y) then y else best)
                      rest x)
  end.

(** [min(xs, key=key)]: replaced only by a strictly smaller key. *)
Definition min_by (xs : list A) : option A :=
  match xs with
  | [] => None
  | x :: rest =>
      Some (fold_left (fun best y => if ltb (key y) (key best) then y else best)
                      rest x)
  end.
End Extremes.

Definition or_initial {V} (o : option (string * V)) : string :=
  match o with
  | Some kv => fst kv
  | None => ""
  end.

(** *** [_compare_security] *)

Record SecurityComparison : Type := {
  risk_scores : sdict float;
  risk_levels : sdict json;
  vulnerability_counts : sdict Z;
  compliance_issue_counts : sdict Z;
  highest_risk_model : string;
  lowest_risk_model : string;
  common_vulnerabilities : list json;
  unique_vulnerabilities : sdict json
}.

Record security_acc : Type := {
  acc_scores : sdict float;
  acc_levels : sdict json;
  acc_vulns : sdict Z;
  acc_issues : sdict Z
}.

Fixpoint security_loop (results : list AnalysisResult) (acc : security_acc)
    : result security_acc :=
  match results with
  | [] => Ok acc
  | result :: rest =>
      let model_name := model_name result in
      let security := security_analysis result in
      nv <- py_len (sa_vulnerabilities security) ;;
      ni <- py_len (compliance_issues security) ;;
      security_loop rest
        {| acc_scores := sset (acc_scores acc) model_name (risk_score security);
           acc_levels := sset (acc_levels acc) model_name (risk_level security);
           acc_vulns := sset (acc_vulns acc) model_name nv;
           acc_issues := sset (acc_issues acc) model_name ni |}
  end.

Definition _compare_security (results : list AnalysisResult)
    : result SecurityComparison :=
  acc <- security_loop results
           {| acc_scores := []; acc_levels := []; acc_vulns := []; acc_issues := [] |} ;;
  let scores := acc_scores acc in
  Ok {| risk_scores := scores;
        risk_levels := acc_levels acc;
        vulnerability_counts := acc_vulns acc;
        compliance_issue_counts := acc_issues acc;
        highest_risk_model := or_initial (max_by snd F64.ltb scores);
        lowest_risk_model := or_initial (min_by snd F64.ltb scores);
        common_vulnerabilities := [];
        unique_vulnerabilities := [] |}.

(** *** [_compare_licenses] *)

Record LicenseComparison : Type := {
  licenses_by_model : sdict (option string);
  common_licenses : list string;
  license_conflicts : list json;
  unlicensed_models : list string
}.

(** Truth value of an optional [str]. *)
Definition licensed (o : option string) : bool :=
  match o with
  | Some s => negb (String.eqb s "")
  | None => false
  end.

(** [license_counts[license] += 1] on a [defaultdict(int)] *)
Definition count_license (license_counts : sdict Z) (o : option string) : sdict Z :=
  match o with
  | Some l =>
      if licensed o
      then sset license_counts l (Py.get_default String.eqb license_counts l 0 + 1)%Z
      else license_counts
  | None => license_counts
  end.

Definition _compare_licenses (results : list AnalysisResult) : LicenseComparison :=
  let licenses := map (fun r => (model_name r, license (model_info r))) results in
  let license_counts := fold_left count_license (map snd licenses) [] in
  {| licenses_by_model :=
       fold_left (fun d ml => sset d (fst ml) (snd ml)) licenses [];
     common_licenses :=
       map fst (filter (fun lc => (1 <? snd lc)%Z) license_counts);
     license_conflicts := [];
     unlicensed_models :=
       map fst (filter (fun ml => negb (licensed (snd ml))) licenses) |}.

(** *** [_compare_sizes] *)

(** [average_size] starts as the [int] 0 and becomes a [float]. *)
Inductive pynum : Type :=
  | PyInt (z : Z)
  | PyFloat (f : float).

Record SizeComparison : Type := {
  sizes_by_model : sdict (option Z);
  largest_model : string;
  smallest_model : string;
  average_size : pynum;
  size_distribution : sdict json
}.

(** Truth value of an optional [int]. *)
Definition size_truthy (o : option Z) : bool :=
  match o with
  | Some z => negb (z =? 0)%Z
  | None => false
  end.

(** [sizes[k] or 0] *)
Definition or_zero (o : option Z) : Z :=
  match o with
  | Some z => if (z =? 0)%Z then 0%Z else z
  | None => 0%Z
  end.

(** An [int] or [float('inf')]. *)
Inductive ext : Type :=
  | Fin (z : Z)
  | PosInf.

(** [sizes[k] or float('inf')] *)
Definition or_inf (o : option Z) : ext :=
  match o with
  | Some z => if (z =? 0)%Z then PosInf else Fin z
  | None => PosInf
  end.

Definition ext_ltb (a b : ext) : bool :=
  match a, b with
  | Fin x, Fin y => (x <? y)%Z
  | Fin _, PosInf => true
  | PosInf, _ => false
  end.

(** The dict [sizes] after the loop. *)
Definition sizes_of (results : list AnalysisResult) : sdict (option Z) :=
  fold_left (fun sizes r => sset sizes (model_name r) (model_size (model_info r)))
            results [].

(** The list [valid_sizes] after the loop. *)
Definition valid_sizes_of (results : list AnalysisResult) : list Z :=
  flat_map (fun r => match model_size (model_info r) with
                     | Some z => if size_truthy (Some z) then [z] else []
                     | None => []
                     end) results.

Definition sum (zs : list Z) : Z := fold_left Z.add zs 0%Z.

Definition _compare_sizes (results : list AnalysisResult) : result SizeComparison :=
  let sizes := sizes_of results in
  let valid_sizes := valid_sizes_of results in
  match valid_sizes with
  | [] =>
      Ok {| sizes_by_model := sizes;
            largest_model := "";
            smallest_model := "";
            average_size := PyInt 0;
            size_distribution := [] |}
  | _ :: _ =>
      average <- int_truediv (sum valid_sizes) (Z.of_nat (List.length valid_sizes)) ;;
      Ok {| sizes_by_model := sizes;
            largest_model := or_initial (max_by (fun kv => or_zero (snd kv)) Z.ltb sizes);
            smallest_model := or_initial (min_by (fun kv => or_inf (snd kv)) ext_ltb sizes);
            average_size := PyFloat average;
            size_distribution := [] |}
  end.

(** *** [_analyze_dependencies] *)

Record DependencyAnalysis : Type := {
  dependencies_by_model : sdict (list entry);
  common_dependencies : list pyval;
  unique_dependencies : sdict json;
  dependency_conflicts : list json
}.

Fixpoint deps_loop (results : list AnalysisResult)
    (by_model : sdict (list entry)) (all_deps : sdict (Py.dict pyval entry))
    : result (sdict (list entry) * sdict (Py.dict pyval entry)) :=
  match results with
  | [] => Ok (by_model, all_deps)
  | result :: rest =>
      let model_deps := dependencies (aibom result) in
      d <- by_name model_deps [] ;;
      deps_loop rest (sset by_model (model_name result) model_deps)
                (sset all_deps (model_name result) d)
  end.

(** The intersection of the key sets, listed in the order of the first
    model's keys (the order of a Python set is not determined). *)
Definition common_names (all_deps : sdict (Py.dict pyval entry)) : list pyval :=
  match all_deps with
  | [] => []
  | (_, first) :: others =>
      fold_left (fun common d => filter (fun n => name_in n (Py.keys (snd d))) common)
                others (Py.keys first)
  end.

Definition _analyze_dependencies (results : list AnalysisResult)
    : result DependencyAnalysis :=
  bd <- deps_loop results [] [] ;;
  Ok {| dependencies_by_model := fst bd;
        common_dependencies := common_names (snd bd);
        unique_dependencies := [];
        dependency_conflicts := [] |}.

(** *** [compare_models] *)

Record ModelComparison : Type := {
  common_components : list entry;
  unique_components : sdict (list entry);
  security_comparison : SecurityComparison;
  license_comparison : LicenseComparison;
  size_comparison : SizeComparison;
  dependency_analysis : DependencyAnalysis
}.

(** An exception raised inside is logged and raised again. *)
Definition compare_models (results : list AnalysisResult) : result ModelComparison :=
  let all_components := _extract_all_components results in
  common <- _find_common_components all_components ;;
  unique <- _find_unique_components all_components ;;
  security <- _compare_security results ;;
  let licenses := _compare_licenses results in
  sizes <- _compare_sizes results ;;
  deps <- _analyze_dependencies results ;;
  Ok {| common_components := common;
        unique_components := unique;
        security_comparison := security;
        license_comparison := licenses;
        size_comparison := sizes;
        dependency_analysis := deps |}.

(** *** Vocabulary of the statements *)

(** What [compare_models] stores as common and unique components. *)
Definition common_of (results : list AnalysisResult) : result (list entry) :=
  _find_common_components (_extract_all_components results).

Definition unique_of (results : list AnalysisResult)
    : result (sdict (list entry)) :=
  _find_unique_components (_extract_all_components results).

(** The component names of a model, in list order. *)
Definition names_of (r : AnalysisResult) : list pyval :=
  map comp_name (components (aibom r)).

Definition names_hashable (results : list AnalysisResult) : bool :=
  forallb (fun r => forallb hashable (names_of r)) results.

Definition dependencies_hashable (results : list AnalysisResult) : bool :=
  forallb (fun r => forallb (fun d => hashable (comp_name d))
                            (dependencies (aibom r))) results.

(** [len] applies to the vulnerability and compliance values. *)
Definition counts_defined (results : list AnalysisResult) : bool :=
  forallb (fun r =>
             Py.is_ok (py_len (sa_vulnerabilities (security_analysis r)))
             && Py.is_ok (py_len (compliance_issues (security_analysis r))))
          results.

(** The mean of the valid sizes is a float. *)
Definition mean_defined (results : list AnalysisResult) : bool :=
  match valid_sizes_of results with
  | [] => true
  | vs => Py.is_ok (int_truediv (sum vs) (Z.of_nat (List.length vs)))
  end.

Definition well_formed (results : list AnalysisResult) : bool :=
  names_hashable results && dependencies_hashable results
  && counts_defined results && mean_defined results.

(** The dict comprehension over the first model's components, when every
    name is hashable. *)
Definition index_by_name (comps : list entry) : Py.dict pyval entry :=
  fold_left (fun d comp => Py.set key_eqb d (comp_name comp) comp) comps [].

(** The name of [comp] is in the name set of a model other than [r]. *)
Definition elsewhere (results : list AnalysisResult) (r : AnalysisResult)
    (comp : entry) : bool :=
  existsb (fun r' => negb (String.eqb (model_name r') (model_name r))
                     && name_in (comp_name comp) (names_of r'))
          results.

(** No component name of [r1] is a component name of [r2]. *)
Definition disjoint_names (r1 r2 : AnalysisResult) : bool :=
  forallb (fun n => negb (name_in n (names_of r2))) (names_of r1).

(** The sizes that are known, in the words of the specification: those of
    the models whose size is present. *)
Definition known_sizes (results : list AnalysisResult) : list Z :=
  flat_map (fun r => match model_size (model_info r) with
                     | Some z => [z]
                     | None => []
                     end) results.

Definition sizes_nonnegative (results : list AnalysisResult) : bool :=
  forallb (fun r => match model_size (model_info r) with
                    | Some z => (0 <=? z)%Z
                    | None => true
                    end) results.

(** The three results of the size comparison. *)
Definition size_outcome (results : list AnalysisResult)
    : result (string * string * pynum) :=
  sc <- _compare_sizes results ;;
  Ok (largest_model sc, smallest_model sc, average_size sc).

(** A size of 0 replaced by an absent size. *)
Definition zero_as_absent (o : option Z) : option Z :=
  match o with
  | Some z => if (z =? 0)%Z then None else Some z
  | None => None
  end.

Definition with_size (mi : ModelInfo) (size : option Z) : ModelInfo :=
  {| name := name mi;
     author := author mi;
     description := description mi;
     tags := tags mi;
     pipeline_tag := pipeline_tag mi;
     library_name := library_name mi;
     license := license mi;
     downloads := downloads mi;
     likes := likes mi;
     created_at := created_at mi;
     last_modified := last_modified mi;
     model_size := size;
     config := config mi;
     files := files mi |}.

Definition forget_zero (r : AnalysisResult) : AnalysisResult :=
  {| model_name := model_name r;
     model_info := with_size (model_info r)
                             (zero_as_absent (model_size (model_info r)));
     aibom := aibom r;
     security_analysis := security_analysis r |}.

(** The comparison of no model at all. *)
Definition empty_comparison : ModelComparison :=
  {| common_components := [];
     unique_components := [];
     security_comparison :=
       {| risk_scores := []; risk_levels := []; vulnerability_counts := [];
          compliance_issue_counts := []; highest_risk_model := "";
          lowest_risk_model := ""; common_vulnerabilities := [];
          unique_vulnerabilities := [] |};
     license_comparison :=
       {| licenses_by_model := []; common_licenses := [];
          license_conflicts := []; unlicensed_models := [] |};
     size_comparison :=
       {| sizes_by_model := []; largest_model := ""; smallest_model := "";
          average_size := PyInt 0; size_distribution := [] |};
     dependency_analysis :=
       {| dependencies_by_model := []; common_dependencies := [];
          unique_dependencies := []; dependency_conflicts := [] |} |}.

(** *** Closed forms of the loops, valid when no name fails to hash *)

Definition dict_hashable (d : sdict (list entry)) : bool :=
  forallb (fun kv => forallb hashable (map comp_name (snd kv))) d.

Definition in_every (n : pyval) (others : sdict (list entry)) : bool :=
  forallb (fun kv => name_in n (map comp_name (snd kv))) others.

Definition common_closed (d : sdict (list entry)) : list entry :=
  match d with
  | [] => []
  | (_, first) :: others =>
      map (fun kv => annotate (snd kv) (Py.keys d))
          (filter (fun kv => in_every (fst kv) others) (index_by_name first))
  end.

Definition names_by_model (d : sdict (list entry)) : sdict (list pyval) :=
  fold_left (fun acc kv => sset acc (fst kv) (map comp_name (snd kv))) d [].

Definition unique_closed (d : sdict (list entry)) : sdict (list entry) :=
  fold_left (fun u kv =>
               sset u (fst kv)
                    (unique_to_model (fst kv) (snd kv) (names_by_model d)))
            d [].

End Engine.

(* ===================================================================== *)
(** * Concrete data for the examples                                      *)
(* ===================================================================== *)

Module Samples.

Import F64 Json Model Generator.
Local Open Scope string_scope.

(** A source of UUIDs: the [k]-th one ends in the two decimal digits of
    [k mod 100]. *)
Definition digit (n : nat) : ascii := Py.chr (48 + n mod 10).

Definition sample_source (k : nat) : UUID :=
  {| hex := "5f0c2a9e4b7d4e1a8c3f6b2d9a1e70"
            ++ String (digit (k / 10)) (String (digit k) "") |}.

Definition fresh : supply := {| source := sample_source; drawn := 0 |}.

(** A model card with the given name, license, size and file names. *)
Definition card (n : string) (lic : option string) (size : option Z)
    (file_names : list string) : ModelInfo :=
  {| name := n;
     author := "acme";
     description := Some "a test model";
     tags := ["text-generation"];
     pipeline_tag := Some "text-generation";
     library_name := Some "transformers";
     license := lic;
     downloads := 10;
     likes := 1;
     created_at := "2024-01-01";
     last_modified := "2024-02-01";
     model_size := size;
     config := JObj [];
     files := map (fun f => {| file_name := f; file_size := None |}) file_names |}.

(** A model card without any file. *)
Definition no_files_card : ModelInfo := card "acme/empty" (Some "mit") None [].

(** A model card without a license. *)
Definition unlicensed_card : ModelInfo :=
  card "acme/unlicensed" None None ["weights.bin"].


(** An analysis result: the document built for [card], and the risk record
    parsed from [reply]. *)
Definition analysed (mi : ModelInfo) (reply : string) : AnalysisResult :=
  {| model_name := name mi;
     model_info := mi;
     aibom := build true mi fresh;
     security_analysis := Bedrock._parse_security_analysis reply |}.

Definition model_a : AnalysisResult :=
  analysed (card "A" (Some "mit") (Some 100%Z) ["weights.bin"; "config.json"]) "{}".
Definition model_b : AnalysisResult :=
  analysed (card "B" (Some "mit") None ["model.safetensors"; "train.py"]) "{}".
Definition model_c : AnalysisResult :=
  analysed (card "C" None (Some 300%Z) ["weights.bin"; "config.json"]) "{}".

(** Two results carrying the same model name, with different files. *)
Definition model_m_old : AnalysisResult :=
  analysed (card "M" (Some "mit") (Some 100%Z) ["weights.bin"]) "{}".
Definition model_m_new : AnalysisResult :=
  analysed (card "M" (Some "mit") (Some 100%Z) ["model.safetensors"]) "{}".

(** The same model name again, now with size 0. *)
Definition model_m_zero : AnalysisResult :=
  analysed (card "M" (Some "mit") (Some 0%Z) ["weights.bin"]) "{}".

(** Sizes 0 and 100; sizes 0 and -5. *)
Definition model_zero : AnalysisResult :=
  analysed (card "Z" (Some "mit") (Some 0%Z) ["config.json"]) "{}".
Definition model_hundred : AnalysisResult :=
  analysed (card "H" (Some "mit") (Some 100%Z) ["weights.bin"]) "{}".
Definition model_negative : AnalysisResult :=
  analysed (card "N" (Some "mit") (Some (-5)%Z) ["weights.bin"]) "{}".

(** A result whose reply gave a number for [vulnerabilities]. *)
Definition model_unsized : AnalysisResult :=
  analysed (card "U" (Some "mit") None ["weights.bin"])
           (Bedrock.dq "{'vulnerabilities': 5}").

End Samples.

(* ===================================================================== *)
(** * Truth value and iteration of decoded JSON values                    *)
(* ===================================================================== *)

Module Values.

Import F64 Json.
Local Open Scope string_scope.

(** [bool(x)]: [None], [False], zero and the empty containers are false;
    a NaN is true. *)
Definition truth (x : json) : bool :=
  match x with
  | JNull => false
  | JBool b => b
  | JInt z => negb (z =? 0)%Z
  | JFloat f => negb (F64.eqb f zero)
  | JStr s => negb (String.eqb s "")
  | JArr l => match l with [] => false | _ :: _ => true end
  | JObj d => match d with [] => false | _ :: _ => true end
  end.

(** [x == s] for a [str] literal [s]. *)
Definition is_str (s : string) (x : json) : bool :=
  match x with
  | JStr t => String.eqb t s
  | _ => false
  end.

Definition is_continuation (c : ascii) : bool :=
  (128 <=? Py.ord c)%nat && (Py.ord c <? 192)%nat.

(** The characters of a [str], each with its continuation bytes. *)
Fixpoint code_points (s : string) : list string :=
  match s with
  | EmptyString => []
  | String c r =>
      match r with
      | EmptyString => [String c EmptyString]
      | String c' _ =>
          if is_continuation c'
          then match code_points r with
               | h :: t => String c h :: t
               | [] => [String c EmptyString]
               end
          else String c EmptyString :: code_points r
      end
  end.

(** [for x in v]: the elements of a list, the characters of a [str], the
    keys of a dict; no other value can be iterated. *)
Definition iterate (v : json) : result (list json) :=
  match v with
  | JArr l => Ok l
  | JStr s => Ok (map JStr (code_points s))
  | JObj d => Ok (map (fun kv => JStr (fst kv)) d)
  | _ => Raise TypeError
  end.

End Values.

(* ===================================================================== *)
(** * [services/huggingface_service.py]                                   *)
(* ===================================================================== *)

Module Hub.

Import Json Model.
Local Open Scope string_scope.

(** The attributes of the hub's [info] object that are read.  For an
    attribute read with [getattr(info, a, None)], absent and [None] are the
    same. *)
Record HubInfo : Type := {
  h_author : option string;
  h_description : option string;
  h_tags : option (list string);
  h_pipeline_tag : option string;
  h_library_name : option string;
  h_license : option string;
  h_downloads : Z;
  h_likes : Z;
  h_created_at : string;
  h_last_modified : string;
  h_config : option json
}.

(** [f.endswith(('.bin', '.safetensors', '.h5'))] *)
Definition is_model_file (f : string) : bool :=
  Py.endswith f ".bin" || Py.endswith f ".safetensors" || Py.endswith f ".h5".

Definition _estimate_model_size (files : list string) : option Z :=
  let model_files := filter is_model_file files in
  match model_files with
  | [] => None
  | _ :: _ => Some (Z.of_nat (List.length model_files) * 500000000)%Z
  end.

(** [info.author or "unknown"] *)
Definition or_unknown (o : option string) : string :=
  match o with
  | Some s => if String.eqb s "" then "unknown" else s
  | None => "unknown"
  end.

(** [info.tags or []] *)
Definition or_no_tags (o : option (list string)) : list string :=
  match o with
  | Some l => l
  | None => []
  end.

(** [getattr(info, 'config', {}) or {}] *)
Definition or_no_config (o : option json) : json :=
  match o with
  | Some v => if Values.truth v then v else JObj []
  | None => JObj []
  end.

(** [get_model_info], given the outcome of the two calls to the hub: the
    [info] object and the list of file names, or the exception raised. *)
Definition get_model_info (model_name : string)
    (fetched : result (HubInfo * list string)) : result ModelInfo :=
  match fetched with
  | Raise e => Raise e
  | Ok (info, files) =>
      Ok {| name := model_name;
            author := or_unknown (h_author info);
            description := h_description info;
            tags := or_no_tags (h_tags info);
            pipeline_tag := h_pipeline_tag info;
            library_name := h_library_name info;
            license := h_license info;
            downloads := h_downloads info;
            likes := h_likes info;
            created_at := h_created_at info;
            last_modified := h_last_modified info;
            model_size := _estimate_model_size files;
            config := or_no_config (h_config info);
            files := map (fun f => {| file_name := f; file_size := None |}) files |}
  end.

(** *** Vocabulary of the statements *)

Definition is_h5 (f : string) : bool := Py.endswith f ".h5".

(** The model card the hub service builds from [info] and [files]. *)
Definition card_of (model_name : string) (info : HubInfo) (files : list string)
    : ModelInfo :=
  match get_model_info model_name (Ok (info, files)) with
  | Ok mi => mi
  | Raise _ =>
      (* unreachable *)
      {| name := model_name; author := ""; description := None; tags := [];
         pipeline_tag := None; library_name := None; license := None;
         downloads := 0; likes := 0; created_at := ""; last_modified := "";
         model_size := None; config := JObj []; files := [] |}
  end.

(** The size of [r] is an estimate of the hub service. *)
Definition estimated (r : AnalysisResult) : Prop :=
  exists files, model_size (model_info r) = _estimate_model_size files.

End Hub.

(* ===================================================================== *)
(** * [models/analysis_result.py]: comparison results and counts          *)
(* ===================================================================== *)

Module Results.

Import Json Builtins Model Engine.
Local Open Scope string_scope.
Local Open Scope py_scope.

(** The fields hold whatever value the reply carried under their key. *)
Record ComparisonInsights : Type := {
  summary : json;
  key_differences : json;
  security_recommendations : json;
  best_practices : json;
  risk_assessment : json
}.

(** [model_names] is the value the caller passed. *)
Record ComparisonResult : Type := {
  model_names : json;
  individual_results : list AnalysisResult;
  comparison : ModelComparison;
  insights : ComparisonInsights;
  report_path : string
}.

(** The properties of [AnalysisResult]. *)
Definition security_issues_count (r : AnalysisResult) : result Z :=
  py_len (sa_vulnerabilities (security_analysis r)).

Definition compliance_gaps_count (r : AnalysisResult) : result Z :=
  py_len (compliance_issues (security_analysis r)).

(** [sum(f(result) for result in results)], from the total so far. *)
Fixpoint sum_over (f : AnalysisResult -> result Z)
    (results : list AnalysisResult) (total : Z) : result Z :=
  match results with
  | [] => Ok total
  | r :: rest => n <- f r ;; sum_over f rest (total + n)%Z
  end.

(** The properties of [ComparisonResult]. *)
Definition total_security_issues_count (c : ComparisonResult) : result Z :=
  sum_over security_issues_count (individual_results c) 0.

Definition total_compliance_gaps_count (c : ComparisonResult) : result Z :=
  sum_over compliance_gaps_count (individual_results c) 0.

End Results.

(* ===================================================================== *)
(** * [services/bedrock_agent.py]: the comparison insights                *)
(* ===================================================================== *)

Module Insights.

Import Json Bedrock Results.
Local Open Scope string_scope.
Local Open Scope py_scope.

Definition _create_default_comparison_insights : ComparisonInsights :=
  {| summary := JStr "Comparison analysis completed with limited insights";
     key_differences := JArr [JStr "Manual analysis required"];
     security_recommendations := JArr [JStr "Perform detailed security review"];
     best_practices := JArr [JStr "Follow ML security best practices"];
     risk_assessment := JStr "Manual assessment required" |}.

(** The [try] block of [_parse_comparison_insights]. *)
Definition parse_comparison_insights_try (response : string)
    : result ComparisonInsights :=
  data <- loads (extract_json response) ;;
  s <- data_get data "summary" (JStr "Analysis completed") ;;
  kd <- data_get data "key_differences" (JArr []) ;;
  sr <- data_get data "security_recommendations" (JArr []) ;;
  bp <- data_get data "best_practices" (JArr []) ;;
  ra <- data_get data "risk_assessment" (JStr "Medium risk") ;;
  Ok {| summary := s;
        key_differences := kd;
        security_recommendations := sr;
        best_practices := bp;
        risk_assessment := ra |}.

Definition _parse_comparison_insights (response : string) : ComparisonInsights :=
  match parse_comparison_insights_try response with
  | Ok i => i
  | Raise _ => _create_default_comparison_insights
  end.

(** [generate_comparison_insights], given the outcome of building the
    prompt and invoking the reasoning service. *)
Definition generate_comparison_insights (response : result string)
    : ComparisonInsights :=
  match response with
  | Ok text => _parse_comparison_insights text
  | Raise _ => _create_default_comparison_insights
  end.

(** *** Vocabulary of the statements *)



(** [c in s] for a character. *)
Fixpoint has_char (c : ascii) (s : string) : bool :=
  match s with
  | EmptyString => false
  | String a r => Ascii.eqb a c || has_char c r
  end.

(** The text starts with [{] and ends with [}]. *)
Definition braced (s : string) : bool :=
  String.prefix "{" s && Py.endswith s "}".

End Insights.

(* ===================================================================== *)
(** * Vocabulary of the statements about comparisons                      *)
(* ===================================================================== *)

Module Vocabulary.

Import F64 Json Builtins Model Engine.
Local Open Scope string_scope.

(** The keys of a dict after [d[k] = v]. *)
Definition add_key (ks : list string) (k : string) : list string :=
  if existsb (fun k' => String.eqb k' k) ks then ks else (ks ++ [k])%list.

(** The model names of the results, each once, in the order of their first
    occurrence. *)
Definition model_order (results : list AnalysisResult) : list string :=
  fold_left add_key (map model_name results) [].

(** The number of results whose license is [l]. *)
Definition count_licensed (l : string) (results : list AnalysisResult) : nat :=
  List.length
    (filter (fun r => Generator.opt_is l (license (model_info r))) results).

(** The counts [len] gives for a result, 0 standing for an undefined one. *)
Definition issue_count (r : AnalysisResult) : Z :=
  match py_len (sa_vulnerabilities (security_analysis r)) with
  | Ok n => n
  | Raise _ => 0%Z
  end.

Definition gap_count (r : AnalysisResult) : Z :=
  match py_len (compliance_issues (security_analysis r)) with
  | Ok n => n
  | Raise _ => 0%Z
  end.

(** The names of the dependencies of a model, in list order. *)
Definition dependency_names (r : AnalysisResult) : list pyval :=
  map comp_name (dependencies (aibom r)).

(** The risk score of a result. *)
Definition score_of (r : AnalysisResult) : float :=
  risk_score (security_analysis r).


(** The file names that yield a component, and the type of the component. *)
Definition recognised (f : string) : bool :=
  Generator.is_weights f || Generator.is_config f || Generator.is_source f.

Definition kind_of (f : string) : string :=
  if Generator.is_weights f then "model-weights"
  else if Generator.is_config f then "configuration"
  else "source-code".

Definition file_names (mi : ModelInfo) : list string :=
  map file_name (files mi).

(** The [type] and the [id] of an entry. *)
Definition entry_type (c : entry) : option string :=
  Generator.as_str (sget c "type").



(** The reference [o] names the model or a component of the document. *)
Definition resolves (model_name : string) (a : AIBOM) (o : option string) : Prop :=
  exists target,
    o = Some target
    /\ (target = model_name \/ In (PStr target) (map comp_name (components a))).

(** The components of type model-weights. *)
Definition weights_components (a : AIBOM) : list entry :=
  filter (fun c => Generator.opt_is "model-weights" (entry_type c)) (components a).


End Vocabulary.

(* ===================================================================== *)
(** * [services/report_generator.py]: the names of the report files       *)
(* ===================================================================== *)

Module Reports.

Local Open Scope string_scope.

(** [s.replace('/', '_')] *)
Fixpoint replace_slash (s : string) : string :=
  match s with
  | EmptyString => EmptyString
  | String c r => String (if Ascii.eqb c "/" then "_"%char else c) (replace_slash r)
  end.

(** [sep.join(parts)] *)
Fixpoint join (sep : string) (parts : list string) : string :=
  match parts with
  | [] => ""
  | p :: rest =>
      match rest with
      | [] => p
      | _ :: _ => p ++ sep ++ join sep rest
      end
  end.

(** The file names of the two reports; [stamp] is the text of the current
    time in the format [%Y%m%d_%H%M%S]. *)
Definition single_report_filename (model_name stamp : string) : string :=
  "aibom_report_" ++ replace_slash model_name ++ "_" ++ stamp ++ ".html".

Definition comparison_report_filename (model_names : list string)
    (stamp : string) : string :=
  "aibom_comparison_" ++ join "_vs_" (map replace_slash model_names)
  ++ "_" ++ stamp ++ ".html".

End Reports.

(* ===================================================================== *)
(** * [core/agent_orchestrator.py]                                        *)
(* ===================================================================== *)

Module Orchestrator.

Import Json Model Generator Hub Results Insights.
Local Open Scope string_scope.
Local Open Scope py_scope.

(** What one analysis meets outside the program: the outcome of the calls
    to the hub, the state of the UUID source when the document is built, the
    outcome of writing the scratch file, of the reasoning service and of
    writing the report (the path of the report). *)
Record Task : Type := {
  fetched : result (HubInfo * list string);
  uuids : supply;
  disk_ok : bool;
  reply : result string;
  report : result string
}.

(** What a call of the orchestrator meets: the outcome of making the
    services ready (nothing to do once they are), the [i]-th analysis it
    starts, which of several failing analyses raises first, and the
    outcomes of the reasoning service and of the report for a comparison. *)
Record World : Type := {
  boot : result unit;
  task : nat -> Task;
  raised_first : nat;
  insight_reply : result string;
  comparison_report : result string
}.

(** The [try] block of [analyze_single_model].  A name that is not a [str]
    is passed to the hub as it is; no document is built from it here, and
    the file name of its report cannot be formed ([model_name.replace]). *)
Definition analysis (t : Task) (model_name : json)
    : result (AnalysisResult * string) :=
  match model_name with
  | JStr s =>
      model_info <- get_model_info s (fetched t) ;;
      let aibom := build (disk_ok t) model_info (uuids t) in
      let security_analysis := Bedrock.analyze_security (reply t) in
      let result :=
        {| model_name := s;
           model_info := model_info;
           aibom := aibom;
           security_analysis := security_analysis |} in
      report_path <- report t ;;
      Ok (result, report_path)
  | _ =>
      _ <- fetched t ;;
      _ <- report t ;;
      Raise AttributeError
  end.

Definition analyze_single_model (w : World) (model_name : json)
    : result (AnalysisResult * string) :=
  _ <- boot w ;;
  analysis (task w 0) model_name.

(** The outcomes of the analyses started for [names], the first of them
    the [i]-th of the call. *)
Fixpoint analyses (w : World) (i : nat) (names : list json)
    : list (result AnalysisResult) :=
  match names with
  | [] => []
  | n :: rest =>
      (r <- analysis (task w i) n ;; Ok (fst r)) :: analyses w (S i) rest
  end.

(** [asyncio.gather] over the tasks: the results in the order of the tasks
    when all return; else the exception raised first, that of task [first]
    when that one fails. *)
Definition gather {A} (first : nat) (outcomes : list (result A))
    : result (list A) :=
  match Py.mapM (fun o => o) outcomes with
  | Ok results => Ok results
  | Raise e =>
      match nth_error outcomes first with
      | Some (Raise e') => Raise e'
      | _ => Raise e
      end
  end.

Definition compare_models (w : World) (model_names : json)
    : result ComparisonResult :=
  _ <- boot w ;;
  names <- Values.iterate model_names ;;
  individual_results <- gather (raised_first w) (analyses w 0 names) ;;
  comparison <- Engine.compare_models individual_results ;;
  let insights := generate_comparison_insights (insight_reply w) in
  report_path <- comparison_report w ;;
  Ok {| model_names := model_names;
        individual_results := individual_results;
        comparison := comparison;
        insights := insights;
        report_path := report_path |}.

(** *** Vocabulary of the statements *)

(** The result of the analysis of the model [s] in the task [t], when the
    hub answers with [info] and [files]. *)
Definition result_of (t : Task) (s : string) (info : HubInfo)
    (files : list string) : AnalysisResult :=
  {| model_name := s;
     model_info := card_of s info files;
     aibom := build (disk_ok t) (card_of s info files) (uuids t);
     security_analysis := Bedrock.analyze_security (reply t) |}.

(** [r] is the result of some analysis. *)
Definition produced (r : AnalysisResult) : Prop :=
  exists t info files,
    fetched t = Ok (info, files)
    /\ r = result_of t (model_name r) info files.

End Orchestrator.

(* ===================================================================== *)
(** * [main.py]: the entry point                                          *)
(* ===================================================================== *)

Module Handler.

Import F64 Json Builtins Model Engine Results Orchestrator.
Local Open Scope string_scope.
Local Open Scope py_scope.

(** The dict returned for an analysed model; [a_components_count],
    [a_vulnerabilities_count] and [a_risk_level] are the entries of its
    ["aibom_summary"]. *)
Record Analysed : Type := {
  a_model_name : json;
  a_security_issues_count : Z;
  a_compliance_gaps_count : Z;
  a_report_path : string;
  a_components_count : Z;
  a_vulnerabilities_count : Z;
  a_risk_level : json
}.

(** The dict returned for a comparison; the last three fields are the
    entries of its ["comparison_summary"]. *)
Record Compared : Type := {
  c_model_names : json;
  c_models_analyzed : Z;
  c_total_security_issues : Z;
  c_total_compliance_gaps : Z;
  c_report_path : string;
  c_common_components_count : Z;
  c_unique_components_per_model : sdict Z;
  c_highest_risk_model : string
}.

(** What [invoke] returns, one constructor for each [return]:
    - [NameRequired]: [{"error": "model_name is required for analyze_model action"}];
    - [NamesRequired]: [{"error": "At least 2 model names required for compare_models action"}];
    - [UnknownAction action]: ["error"] names [action], and
      ["supported_actions"] lists [supported_actions];
    - [Failure action]: [{"success": False, "error": str(e), "action": action}],
      the text of the exception left out;
    - [AnalysedModel] and [ComparedModels]: the dicts with ["success": True]. *)
Inductive response : Type :=
  | NameRequired
  | NamesRequired
  | UnknownAction (action : json)
  | Failure (action : json)
  | AnalysedModel (a : Analysed)
  | ComparedModels (c : Compared).

Definition supported_actions : list string := ["analyze_model"; "compare_models"].

(** [payload.get(key, default)] *)
Definition payload_get (payload : sdict json) (key : string) (default : json)
    : json :=
  Py.get_default String.eqb payload key default.

Definition risk_key (r : AnalysisResult) : float :=
  risk_score (security_analysis r).

(** [max(results, key=lambda r: r.security_analysis.risk_score).model_name] *)
Definition riskiest (results : list AnalysisResult) : result string :=
  match max_by risk_key F64.ltb results with
  | Some r => Ok (model_name r)
  | None => Raise ValueError
  end.

(** The dict built after a single analysis. *)
Definition analysed_response (model_name : json) (res : AnalysisResult)
    (report_path : string) : result response :=
  issues <- security_issues_count res ;;
  gaps <- compliance_gaps_count res ;;
  Ok (AnalysedModel
        {| a_model_name := model_name;
           a_security_issues_count := issues;
           a_compliance_gaps_count := gaps;
           a_report_path := report_path;
           a_components_count := Z.of_nat (List.length (components (aibom res)));
           a_vulnerabilities_count :=
             Z.of_nat (List.length (vulnerabilities (aibom res)));
           a_risk_level := risk_level (security_analysis res) |}).

(** The dict built after a comparison. *)
Definition compared_response (model_names : json) (res : ComparisonResult)
    : result response :=
  analyzed <- py_len model_names ;;
  issues <- total_security_issues_count res ;;
  gaps <- total_compliance_gaps_count res ;;
  let per_model :=
    Py.of_pairs String.eqb
      (map (fun item => (fst item, Z.of_nat (List.length (snd item))))
           (unique_components (comparison res))) in
  highest <- riskiest (individual_results res) ;;
  Ok (ComparedModels
        {| c_model_names := model_names;
           c_models_analyzed := analyzed;
           c_total_security_issues := issues;
           c_total_compliance_gaps := gaps;
           c_report_path := report_path res;
           c_common_components_count :=
             Z.of_nat (List.length (common_components (comparison res)));
           c_unique_components_per_model := per_model;
           c_highest_risk_model := highest |}).

(** The [try] block of [invoke]; [ready] is the outcome of
    [get_orchestrator]. *)
Definition invoke_try (ready : result unit) (w : World) (payload : sdict json)
    : result response :=
  _ <- ready ;;
  let action := payload_get payload "action" JNull in
  if Values.is_str "analyze_model" action then
    let model_name := payload_get payload "model_name" JNull in
    if negb (Values.truth model_name) then Ok NameRequired
    else
      res <- analyze_single_model w model_name ;;
      analysed_response model_name (fst res) (snd res)
  else if Values.is_str "compare_models" action then
    let model_names := payload_get payload "model_names" (JArr []) in
    if negb (Values.truth model_names) then Ok NamesRequired
    else
      n <- py_len model_names ;;
      if (n <? 2)%Z then Ok NamesRequired
      else
        res <- Orchestrator.compare_models w model_names ;;
        compared_response model_names res
  else Ok (UnknownAction action).

Definition invoke (ready : result unit) (w : World) (payload : sdict json)
    : response :=
  match invoke_try ready w payload with
  | Ok r => r
  | Raise _ => Failure (payload_get payload "action" (JStr "unknown"))
  end.

(** *** Vocabulary of the statements *)

Definition analyze_request (model_name : json) : sdict json :=
  [("action", JStr "analyze_model"); ("model_name", model_name)].

Definition compare_request (model_names : json) : sdict json :=
  [("action", JStr "compare_models"); ("model_names", model_names)].

End Handler.

(* ===================================================================== *)
(** * Concrete data for the examples of the pipeline                      *)
(* ===================================================================== *)

Module Scenarios.

Import F64 Json Model Generator Hub Results Orchestrator Handler Samples.
Local Open Scope string_scope.

Definition sample_info : HubInfo :=
  {| h_author := Some "acme";
     h_description := None;
     h_tags := Some ["text-generation"];
     h_pipeline_tag := Some "text-generation";
     h_library_name := Some "transformers";
     h_license := None;
     h_downloads := 10;
     h_likes := 1;
     h_created_at := "2024-01-01";
     h_last_modified := "2024-02-01";
     h_config := None |}.

Definition sample_files : list string :=
  ["weights.bin"; "config.json"; "pickle_loader.py"; "legacy.h5"; "README.md"].

Definition other_files : list string := ["model.safetensors"; "config.json"].

(** A reply wrapped in prose. *)
Definition sample_reply : string :=
  Bedrock.dq "Here it is: {'risk_score': 7.5, 'risk_level': 'HIGH', 'vulnerabilities': [{'type': 'pickle'}]} Regards.".

Definition sample_task (files : list string) (reply : result string) : Task :=
  {| fetched := Ok (sample_info, files);
     uuids := fresh;
     disk_ok := true;
     reply := reply;
     report := Ok "reports/aibom_report.html" |}.

(** A world where everything outside the program answers. *)
Definition sample_world : World :=
  {| boot := Ok tt;
     task := fun i =>
       match i with
       | 0 => sample_task sample_files (Ok sample_reply)
       | _ => sample_task other_files (Raise OSError)
       end;
     raised_first := 0;
     insight_reply := Ok "{}";
     comparison_report := Ok "reports/aibom_comparison.html" |}.

Definition first_result : AnalysisResult :=
  result_of (sample_task sample_files (Ok sample_reply)) "acme/one"
            sample_info sample_files.

Definition second_result : AnalysisResult :=
  result_of (sample_task other_files (Raise OSError)) "acme/two"
            sample_info other_files.

(** A world where the hub does not know the second model. *)
Definition flaky_world : World :=
  {| boot := Ok tt;
     task := fun i =>
       match i with
       | 1 => {| fetched := Raise OSError;
                 uuids := fresh;
                 disk_ok := true;
                 reply := Ok sample_reply;
                 report := Ok "reports/aibom_report.html" |}
       | _ => sample_task sample_files (Ok sample_reply)
       end;
     raised_first := 0;
     insight_reply := Ok "{}";
     comparison_report := Ok "reports/aibom_comparison.html" |}.

(** Results whose license is the empty string, and the word unknown. *)
Definition blank_license : AnalysisResult :=
  analysed (card "E" (Some "") None ["weights.bin"]) "{}".

Definition unknown_license : AnalysisResult :=
  analysed (card "K" (Some "unknown") None ["weights.bin"]) "{}".

(** Three results, two of them under the same model name. *)
Definition risky : AnalysisResult :=
  analysed (card "M" (Some "mit") None ["weights.bin"])
           (Bedrock.dq "{'risk_score': 9, 'vulnerabilities': [{'type': 'pickle'}]}").

Definition mild : AnalysisResult :=
  analysed (card "N" (Some "mit") None ["weights.bin"])
           (Bedrock.dq "{'risk_score': 5}").

Definition calm : AnalysisResult :=
  analysed (card "M" (Some "mit") None ["weights.bin"])
           (Bedrock.dq "{'risk_score': 1, 'vulnerabilities': [{'type': 'license'}]}").

End Scenarios.

(* ===================================================================== *)
(** * Properties                                                          *)
(* ===================================================================== *)

(** ** The risk interpreter *)

Module BedrockFacts.

Import F64 Json Builtins Model Bedrock.
Local Open Scope string_scope.








(** C3 fails on the reply [{"risk_score": 42, "risk_level": "banana"}]:
    the record takes both values as they are, a score outside [0, 10] and a
    level outside the four enumerated ones. *)
Theorem parse_keeps_unvalidated_values :
  let a :=
    _parse_security_analysis (dq "{'risk_score': 42, 'risk_level': 'banana'}") in
  risk_score a = round_Z 42 /\
  risk_level a = JStr "banana" /\
  score_in_range (risk_score a) = false /\
  level_enumerated (risk_level a) = false /\
  record_valid a = false.
Proof.
  vm_compute. repeat split.
Qed.

End BedrockFacts.

(** ** Strings *)

Module StrFacts.

Local Open Scope string_scope.

Lemma endswith_length (s suffix : string) :
  Py.endswith s suffix = true -> String.length suffix <= String.length s.
Proof.
  induction s as [| c r IH]; cbn [Py.endswith]; intros H.
  - rewrite orb_false_r in H. apply String.eqb_eq in H. subst. apply le_n.
  - apply orb_prop in H. destruct H as [H | H].
    + apply String.eqb_eq in H. subst. apply le_n.
    + cbn [String.length]. apply IH in H. lia.
Qed.

(** Of two suffixes of one string, the shorter is a suffix of the longer. *)
Lemma endswith_both (s a b : string) :
  Py.endswith s a = true -> Py.endswith s b = true ->
  String.length a <= String.length b -> Py.endswith b a = true.
Proof.
  induction s as [| c r IH]; cbn [Py.endswith]; intros Ha Hb Hlen.
  - rewrite orb_false_r in Ha, Hb.
    apply String.eqb_eq in Ha, Hb. subst. reflexivity.
  - apply orb_prop in Hb. destruct Hb as [Hb | Hb].
    + apply String.eqb_eq in Hb. subst b. cbn [Py.endswith]. exact Ha.
    + apply orb_prop in Ha. destruct Ha as [Ha | Ha].
      * apply String.eqb_eq in Ha. subst a.
        apply endswith_length in Hb. cbn [String.length] in Hlen. lia.
      * now apply IH.
Qed.

(** Two suffixes neither of which ends with the other exclude each
    other. *)
Lemma endswith_exclusive (s a b : string) :
  Py.endswith a b = false -> Py.endswith b a = false ->
  Py.endswith s a = true -> Py.endswith s b = false.
Proof.
  intros Hab Hba Ha. destruct (Py.endswith s b) eqn:Hb; [| reflexivity].
  destruct (Nat.le_ge_cases (String.length a) (String.length b)) as [H | H].
  - rewrite (endswith_both s a b Ha Hb H) in Hba. discriminate.
  - rewrite (endswith_both s b a Hb Ha H) in Hab. discriminate.
Qed.

End StrFacts.

(** ** The document builder *)

Module GeneratorFacts.

Import Model Generator Samples StrFacts.
Local Open Scope string_scope.



(** The file loop in closed form. *)
Lemma scan_files_closed (md : Manifest) (fs : list FileInfo) :
  forall (cs vs : list entry) (g : supply),
    scan_files md fs cs vs g =
    (Ok (cs ++ flat_map (file_component md) fs,
         vs ++ flagged_entries (source g) (drawn g) fs)%list,
     {| source := source g;
        drawn := drawn g + List.length (filter flagged fs) |}).
Proof.
  induction fs as [| f rest IH]; intros cs vs g.
  - cbn. rewrite !app_nil_r, Nat.add_0_r. destruct g; reflexivity.
  - cbn [scan_files flat_map flagged_entries filter].
    pose proof (eq_refl (flagged f)) as Hfl. unfold flagged at 2 in Hfl.
    pose proof (eq_refl (file_component md f)) as Hfc.
    unfold file_component at 2 in Hfc. cbv zeta in Hfl, Hfc |- *.
    destruct (is_weights (file_name f)); cbn [negb andb] in Hfl;
      [rewrite Hfl, Hfc, IH, <- app_assoc; reflexivity |].
    destruct (is_config (file_name f)); cbn [negb andb] in Hfl;
      [rewrite Hfl, Hfc, IH, <- app_assoc; reflexivity |].
    destruct (is_source (file_name f)); cbn [negb andb] in Hfl;
      [| rewrite Hfl, Hfc, IH; reflexivity].
    destruct (mentions_pickle (file_name f)); rewrite Hfl, Hfc.
    + unfold bind, uuid4. rewrite IH. cbn [source drawn List.length].
      rewrite <- !app_assoc, Nat.add_succ_r. reflexivity.
    + rewrite IH, <- app_assoc. reflexivity.
Qed.

Lemma build_normal (mi : ModelInfo) (g : supply) :
  build true mi g = normal_document mi g.
Proof.
  unfold build, generate_aibom, try_except, generate_aibom_try,
    _run_owasp_generator, _simulate_owasp_generator, write_manifest,
    _convert_to_aibom, normal_document.
  unfold bind at 1 2 3 4. unfold uuid4 at 1 2. unfold ret at 1.
  cbn [source drawn].
  unfold bind at 1. rewrite scan_files_closed. cbn [source drawn fst snd m_files
    m_license m_library_name _create_model_manifest app].
  replace (S (S (drawn g))) with (drawn g + 2) by lia.
  destruct (license_unknown (license mi)); unfold bind, uuid4, ret;
    cbn [source drawn fst snd];
    rewrite ?Nat.add_0_r, ?Nat.add_1_r, ?app_nil_r; reflexivity.
Qed.

(** When the scratch file cannot be written, the fallback document. *)
Lemma build_fallback (mi : ModelInfo) (g : supply) :
  build false mi g =
  match fst (_create_basic_aibom mi
               {| source := source g; drawn := drawn g + 2 |}) with
  | Ok a => a
  | Raise _ => build false mi g
  end.
Proof.
  unfold build, generate_aibom, try_except, generate_aibom_try,
    _run_owasp_generator, write_manifest, bind, uuid4, raise.
  cbn [source drawn fst]. replace (S (S (drawn g))) with (drawn g + 2) by lia.
  reflexivity.
Qed.

Lemma generate_aibom_total (disk_ok : bool) (mi : ModelInfo) (g : supply) :
  Py.is_ok (fst (generate_aibom disk_ok mi g)) = true.
Proof.
  destruct disk_ok.
  - unfold generate_aibom, try_except, generate_aibom_try,
      _run_owasp_generator, _simulate_owasp_generator, write_manifest.
    unfold bind at 1 2 3 4. unfold uuid4 at 1 2. unfold ret at 1.
    unfold bind at 1. rewrite scan_files_closed.
    destruct (license_unknown _); reflexivity.
  - reflexivity.
Qed.

(** *** Severity and references of the entries the builder emits *)


Lemma pickle_entry_not_medium (u : UUID) (n : string) :
  is_medium (pickle_vulnerability u n) = false.
Proof. reflexivity. Qed.

Lemma pickle_entry_refs (u : UUID) (n : string) :
  affected_refs (pickle_vulnerability u n) = [Some n].
Proof. reflexivity. Qed.



Lemma license_entry_medium (u : UUID) (n : string) :
  is_medium (license_vulnerability u n) = true
  /\ describes_license_absence (license_vulnerability u n) = true.
Proof. split; reflexivity. Qed.




Lemma flagged_entries_not_license (src : nat -> UUID) (fs : list FileInfo) :
  forall k,
    filter (fun v => is_medium v && describes_license_absence v)
           (flagged_entries src k fs) = [].
Proof.
  induction fs as [| f rest IH]; intros k; cbn [flagged_entries].
  - reflexivity.
  - destruct (flagged f); [| apply IH].
    cbn [filter]. rewrite pickle_entry_not_medium. cbn [andb]. apply IH.
Qed.

(** C4 (as amended).  For a model without files the document of the normal
    path has an empty components list; the model appears only as the
    subject component of the metadata block.  The fallback document,
    returned when generation fails, is the one that has exactly one
    component. *)
Theorem no_files_no_components (mi : ModelInfo) (g : supply) :
  files mi = [] ->
  components (build true mi g) = []
  /\ (exists d, subject_component (build true mi g) = Some (PDict d)
                /\ sget d "name" = Some (PStr (name mi)))
  /\ List.length (components (build false mi g)) = 1.
Proof.
  intros Hf. rewrite build_normal. unfold normal_document. cbn [components].
  rewrite Hf. split; [reflexivity |]. split.
  - eexists. split; reflexivity.
  - reflexivity.
Qed.

Lemma no_files_no_components_witness :
  files no_files_card = []
  /\ components (build true no_files_card fresh) = []
  /\ (exists d, subject_component (build true no_files_card fresh) = Some (PDict d)
                /\ sget d "name" = Some (PStr (name no_files_card)))
  /\ List.length (components (build false no_files_card fresh)) = 1.
Proof.
  split; [reflexivity |].
  exact (no_files_no_components no_files_card fresh eq_refl).
Defined.

(** C4, as stated, fails on a model card without files: the document
    built for it has no component at all. *)
Lemma empty_file_list_yields_zero_components :
  files no_files_card = []
  /\ ~ (1 <= List.length (components (build true no_files_card fresh))).
Proof.
  split; [reflexivity |]. vm_compute. intros H. inversion H.
Qed.





End GeneratorFacts.

(** ** Dicts *)

Module DictFacts.

Local Open Scope string_scope.

Section StringKeys.
Variables V W : Type.

Lemma sset_fresh (d : sdict V) (k : string) (v : V) :
  ~ In k (Py.keys d) -> sset d k v = (d ++ [(k, v)])%list.
Proof.
  unfold sset. induction d as [| [k' v'] r IH]; cbn; intros H.
  - reflexivity.
  - destruct (String.eqb_spec k' k) as [-> | Hne].
    + exfalso. apply H. now left.
    + f_equal. apply IH. intros Hin. apply H. now right.
Qed.

(** Successive assignments under distinct fresh keys append. *)
Lemma fold_sset_distinct (A : Type) (kf : A -> string) (vf : A -> V)
    (xs : list A) :
  forall acc : sdict V,
    NoDup (Py.keys acc ++ map kf xs) ->
    fold_left (fun d x => sset d (kf x) (vf x)) xs acc =
    (acc ++ map (fun x => (kf x, vf x)) xs)%list.
Proof.
  induction xs as [| x r IH]; intros acc H; cbn [fold_left map].
  - now rewrite app_nil_r.
  - rewrite sset_fresh.
    + rewrite IH.
      * now rewrite <- app_assoc.
      * unfold Py.keys in *. rewrite map_app. cbn [map fst].
        rewrite <- app_assoc. exact H.
    + cbn [map] in H. apply NoDup_remove_2 in H.
      intros Hin. apply H. apply in_or_app. now left.
Qed.

Lemma sset_In (d : sdict V) (k k' : string) (v v' : V) :
  In (k', v') (sset d k v) -> In (k', v') d \/ (k' = k /\ v' = v).
Proof.
  unfold sset. induction d as [| [k0 v0] r IH]; cbn.
  - intros [H | []]. inversion H. now right.
  - destruct (String.eqb_spec k0 k) as [-> | Hne]; cbn.
    + intros [H | H]; [inversion H; now right | left; now right].
    + intros [H | H]; [left; now left |].
      destruct (IH H) as [Hd | Hn]; [left; now right | now right].
Qed.

Lemma sset_keys_In (d : sdict V) (k k' : string) (v : V) :
  In k' (Py.keys (sset d k v)) <-> In k' (Py.keys d) \/ k' = k.
Proof.
  unfold sset, Py.keys. induction d as [| [k0 v0] r IH]; cbn.
  - intuition congruence.
  - destruct (String.eqb_spec k0 k) as [-> | Hne]; cbn.
    + intuition congruence.
    + rewrite IH. intuition congruence.
Qed.

(** Assignment commutes with a map over the values. *)
Lemma sset_map_values (h : V -> W) (d : sdict V) (k : string) (v : V) :
  sset (map (fun kv => (fst kv, h (snd kv))) d) k (h v) =
  map (fun kv => (fst kv, h (snd kv))) (sset d k v).
Proof.
  unfold sset. induction d as [| [k0 v0] r IH]; cbn.
  - reflexivity.
  - destruct (String.eqb k0 k); cbn; [reflexivity | now rewrite IH].
Qed.

End StringKeys.

(** The value of an invariant of the values is kept by assignments. *)
Lemma fold_sset_Forall (A V : Type) (P : V -> Prop) (kf : A -> string)
    (vf : A -> V) (xs : list A) :
  (forall x, In x xs -> P (vf x)) ->
  forall acc : sdict V,
    (forall k v, In (k, v) acc -> P v) ->
    forall k v,
      In (k, v) (fold_left (fun d x => sset d (kf x) (vf x)) xs acc) -> P v.
Proof.
  induction xs as [| x r IH]; intros Hxs acc Hacc k v; cbn [fold_left].
  - apply Hacc.
  - apply IH.
    + intros y Hy. apply Hxs. now right.
    + intros k' v' Hin. apply sset_In in Hin.
      destruct Hin as [Hin | [_ ->]]; [eapply Hacc; eauto |].
      apply Hxs. now left.
Qed.

End DictFacts.

(** ** The comparison engine *)

Module EngineFacts.

Import F64 Json Builtins Model Engine Samples DictFacts.
Local Open Scope string_scope.

(** *** Names *)

Lemma key_eqb_eq (a b : pyval) : key_eqb a b = true -> a = b.
Proof.
  destruct a, b; cbn; try discriminate; [reflexivity |].
  intros H. apply String.eqb_eq in H. now subst.
Qed.

Lemma key_eqb_refl (a : pyval) : hashable a = true -> key_eqb a a = true.
Proof.
  destruct a; cbn; try discriminate; [reflexivity |].
  intros _. apply String.eqb_refl.
Qed.

Lemma key_eqb_hashable (a b : pyval) : key_eqb a b = true -> hashable a = true.
Proof. destruct a, b; cbn; try discriminate; reflexivity. Qed.

Lemma name_in_In (n : pyval) (l : list pyval) : name_in n l = true -> In n l.
Proof.
  unfold name_in. intros H. apply existsb_exists in H.
  destruct H as [m [Hm He]]. apply key_eqb_eq in He. now subst.
Qed.

Lemma In_name_in (n : pyval) (l : list pyval) :
  hashable n = true -> In n l -> name_in n l = true.
Proof.
  intros Hh Hin. unfold name_in. apply existsb_exists.
  exists n. split; [exact Hin | now apply key_eqb_refl].
Qed.

Lemma name_in_hashable (n : pyval) (l : list pyval) :
  name_in n l = true -> hashable n = true.
Proof.
  unfold name_in. intros H. apply existsb_exists in H.
  destruct H as [m [_ He]]. now apply key_eqb_hashable in He.
Qed.

(** Annotating a component does not touch its name. *)
Lemma sset_other (V : Type) (d : sdict V) (k k' : string) (v : V) :
  k <> k' -> sget (sset d k v) k' = sget d k'.
Proof.
  unfold sget, sset. intros Hne.
  induction d as [| [k0 v0] r IH]; cbn.
  - destruct (String.eqb_spec k k'); [contradiction | reflexivity].
  - destruct (String.eqb_spec k0 k) as [-> | H0]; cbn.
    + destruct (String.eqb_spec k k'); [contradiction | reflexivity].
    + destruct (String.eqb k0 k'); [reflexivity | exact IH].
Qed.

Lemma comp_name_annotate (c : entry) (names : list string) :
  comp_name (annotate c names) = comp_name c.
Proof.
  unfold comp_name, annotate, Py.get_default.
  change (Py.get String.eqb) with (@sget pyval).
  rewrite sset_other; [reflexivity | discriminate].
Qed.

(** *** The loops in closed form *)

Lemma name_set_closed (comps : list entry) :
  forallb hashable (map comp_name comps) = true ->
  name_set comps = Ok (map comp_name comps).
Proof.
  unfold name_set.
  induction comps as [| c r IH]; cbn [map forallb Py.mapM]; intros H.
  - reflexivity.
  - apply andb_prop in H. destruct H as [Hc Hr].
    unfold hash_key at 1. rewrite Hc, (IH Hr). reflexivity.
Qed.

Lemma by_name_closed (comps : list entry) :
  forallb hashable (map comp_name comps) = true ->
  forall d,
    by_name comps d =
    Ok (fold_left (fun d c => Py.set key_eqb d (comp_name c) c) comps d).
Proof.
  induction comps as [| c r IH]; cbn [map forallb by_name fold_left];
    intros H d.
  - reflexivity.
  - apply andb_prop in H. destruct H as [Hc Hr].
    unfold hash_key. rewrite Hc. cbn [Py.bind]. now apply IH.
Qed.

Lemma in_every_model_closed (n : pyval) (others : sdict (list entry)) :
  dict_hashable others = true ->
  in_every_model n others = Ok (in_every n others).
Proof.
  unfold dict_hashable, in_every.
  induction others as [| [m comps] r IH];
    cbn [forallb in_every_model snd]; intros H.
  - reflexivity.
  - apply andb_prop in H. destruct H as [Hc Hr].
    rewrite (name_set_closed comps Hc). cbn [Py.bind].
    destruct (name_in n (map comp_name comps)); [now apply IH | reflexivity].
Qed.

Lemma common_loop_closed (others : sdict (list entry)) (names : list string)
    (items : list (pyval * entry)) :
  dict_hashable others = true ->
  forall acc,
    common_loop items others names acc =
    Ok (acc ++ map (fun kv => annotate (snd kv) names)
                   (filter (fun kv => in_every (fst kv) others) items))%list.
Proof.
  intros H.
  induction items as [| [n c] r IH]; intros acc;
    cbn [common_loop filter fst snd].
  - cbn. now rewrite app_nil_r.
  - rewrite (in_every_model_closed n others H). cbn [Py.bind]. rewrite IH.
    destruct (in_every n others); cbn [map snd];
      [now rewrite <- app_assoc | reflexivity].
Qed.

Lemma find_common_closed (d : sdict (list entry)) :
  dict_hashable d = true -> _find_common_components d = Ok (common_closed d).
Proof.
  unfold _find_common_components, common_closed.
  destruct d as [| [m first] others]; [reflexivity |].
  intros H. cbn in H. apply andb_prop in H. destruct H as [Hf Ho].
  rewrite (by_name_closed first Hf). cbn [Py.bind].
  rewrite (common_loop_closed others _ _ Ho). reflexivity.
Qed.

Lemma collect_names_closed (items : sdict (list entry)) :
  dict_hashable items = true ->
  forall acc,
    collect_names items acc =
    Ok (fold_left (fun acc kv => sset acc (fst kv) (map comp_name (snd kv)))
                  items acc).
Proof.
  unfold dict_hashable.
  induction items as [| [m comps] r IH];
    cbn [forallb collect_names fold_left fst snd]; intros H acc.
  - reflexivity.
  - apply andb_prop in H. destruct H as [Hc Hr].
    rewrite (name_set_closed comps Hc). cbn [Py.bind]. now apply IH.
Qed.

Lemma find_unique_closed (d : sdict (list entry)) :
  dict_hashable d = true -> _find_unique_components d = Ok (unique_closed d).
Proof.
  intros H. unfold _find_unique_components.
  rewrite (collect_names_closed d H). reflexivity.
Qed.

(** *** The dict of all components *)

Lemma extract_hashable (results : list AnalysisResult) :
  names_hashable results = true ->
  dict_hashable (_extract_all_components results) = true.
Proof.
  unfold names_hashable, dict_hashable, _extract_all_components, names_of.
  intros H. rewrite forallb_forall in H. apply forallb_forall.
  intros [k v] Hin. cbn [snd].
  apply (fold_sset_Forall
           (fun comps => forallb hashable (map comp_name comps) = true)
           model_name (fun r => components (aibom r)) results) with (k := k) (acc := []).
  - intros x Hx. now apply H.
  - intros ? ? [].
  - exact Hin.
Qed.

Lemma extract_distinct (results : list AnalysisResult) :
  NoDup (map model_name results) ->
  _extract_all_components results =
  map (fun r => (model_name r, components (aibom r))) results.
Proof.
  intros H. unfold _extract_all_components.
  now rewrite (fold_sset_distinct model_name (fun r => components (aibom r))).
Qed.

(** *** The index of the first model's components *)

Lemma set_key_In (d : Py.dict pyval entry) (k k' : pyval) (v v' : entry) :
  In (k', v') (Py.set key_eqb d k v) -> In (k', v') d \/ (k' = k /\ v' = v).
Proof.
  induction d as [| [k0 v0] r IH]; cbn.
  - intros [H | []]. inversion H. now right.
  - destruct (key_eqb k0 k) eqn:He; cbn.
    + apply key_eqb_eq in He. subst k0.
      intros [H | H]; [inversion H; now right | left; now right].
    + intros [H | H]; [left; now left |].
      destruct (IH H) as [Hd | Hn]; [left; now right | now right].
Qed.

Lemma set_key_names (d : Py.dict pyval entry) (k n : pyval) (v : entry) :
  name_in n (Py.keys (Py.set key_eqb d k v)) =
  name_in n (Py.keys d) || key_eqb n k.
Proof.
  unfold name_in, Py.keys. induction d as [| [k0 v0] r IH]; cbn.
  - now rewrite orb_false_r.
  - destruct (key_eqb k0 k) eqn:He; cbn.
    + apply key_eqb_eq in He. subst k0.
      destruct (key_eqb n k), (existsb (key_eqb n) (map fst r)); reflexivity.
    + rewrite IH. now rewrite orb_assoc.
Qed.


Lemma index_items (comps : list entry) :
  forall d k v,
    In (k, v) (fold_left (fun d c => Py.set key_eqb d (comp_name c) c) comps d) ->
    In (k, v) d \/ (In v comps /\ comp_name v = k).
Proof.
  induction comps as [| c r IH]; intros d k v; cbn [fold_left].
  - now left.
  - intros H. apply IH in H. destruct H as [H | [H1 H2]].
    + apply set_key_In in H. destruct H as [H | [-> ->]];
        [now left | right; split; [now left | reflexivity]].
    + right. split; [now right | exact H2].
Qed.

Lemma index_names (comps : list entry) (n : pyval) :
  forall d,
    name_in n (Py.keys (fold_left (fun d c => Py.set key_eqb d (comp_name c) c)
                                  comps d)) =
    name_in n (Py.keys d) || name_in n (map comp_name comps).
Proof.
  induction comps as [| c r IH]; intros d; cbn [fold_left map].
  - cbn. now rewrite orb_false_r.
  - rewrite IH, set_key_names. unfold name_in at 4. cbn [existsb].
    now rewrite orb_assoc.
Qed.


(** *** Lists *)

Lemma filter_all (A : Type) (f : A -> bool) (l : list A) :
  (forall x, In x l -> f x = true) -> filter f l = l.
Proof.
  induction l as [| x r IH]; cbn; intros H; [reflexivity |].
  rewrite (H x (or_introl eq_refl)). f_equal. apply IH. auto.
Qed.

Lemma filter_none (A : Type) (f : A -> bool) (l : list A) :
  (forall x, In x l -> f x = false) -> filter f l = [].
Proof.
  induction l as [| x r IH]; cbn; intros H; [reflexivity |].
  rewrite (H x (or_introl eq_refl)). apply IH. auto.
Qed.

Lemma existsb_map (A B : Type) (f : B -> bool) (g : A -> B) (l : list A) :
  existsb f (map g l) = existsb (fun x => f (g x)) l.
Proof. induction l as [| x r IH]; cbn; [reflexivity | now rewrite IH]. Qed.

Lemma forallb_map (A B : Type) (f : B -> bool) (g : A -> B) (l : list A) :
  forallb f (map g l) = forallb (fun x => f (g x)) l.
Proof. induction l as [| x r IH]; cbn; [reflexivity | now rewrite IH]. Qed.

Lemma fold_left_map (A B C : Type) (f : C -> B -> C) (g : A -> B)
    (l : list A) :
  forall a, fold_left f (map g l) a = fold_left (fun a x => f a (g x)) l a.
Proof. induction l as [| x r IH]; intros a; cbn; [reflexivity | apply IH]. Qed.

Lemma NoDup_map_injective (A B : Type) (f : A -> B) (l : list A) (x y : A) :
  NoDup (map f l) -> In x l -> In y l -> f x = f y -> x = y.
Proof.
  induction l as [| a r IH]; cbn; intros Hnd Hx Hy Hf; [contradiction |].
  inversion Hnd as [| ? ? Hnotin Hnd']; subst.
  destruct Hx as [-> | Hx], Hy as [-> | Hy].
  - reflexivity.
  - exfalso. apply Hnotin. rewrite Hf. now apply in_map.
  - exfalso. apply Hnotin. rewrite <- Hf. now apply in_map.
  - now apply IH.
Qed.

(** *** Common and unique components over distinct model names *)

Lemma common_of_closed (results : list AnalysisResult) :
  NoDup (map model_name results) ->
  names_hashable results = true ->
  common_of results =
  Ok (common_closed (map (fun r => (model_name r, components (aibom r))) results)).
Proof.
  intros Hnd Hh. unfold common_of.
  rewrite (find_common_closed _ (extract_hashable results Hh)).
  now rewrite (extract_distinct results Hnd).
Qed.

Lemma in_every_results (n : pyval) (rest : list AnalysisResult) :
  in_every n (map (fun r => (model_name r, components (aibom r))) rest) = true
  <-> forall r', In r' rest -> name_in n (names_of r') = true.
Proof.
  unfold in_every. rewrite forallb_map, forallb_forall. reflexivity.
Qed.

Lemma names_by_model_distinct (results : list AnalysisResult) :
  NoDup (map model_name results) ->
  names_by_model (map (fun r => (model_name r, components (aibom r))) results) =
  map (fun r => (model_name r, names_of r)) results.
Proof.
  intros Hnd. unfold names_by_model.
  rewrite fold_left_map. cbn [fst snd].
  now rewrite (fold_sset_distinct model_name names_of).
Qed.

Lemma is_unique_elsewhere (results : list AnalysisResult) (r : AnalysisResult)
    (c : entry) :
  is_unique (model_name r) (comp_name c)
            (map (fun r => (model_name r, names_of r)) results) =
  negb (elsewhere results r c).
Proof.
  unfold is_unique, elsewhere. now rewrite existsb_map.
Qed.

Lemma unique_of_closed (results : list AnalysisResult) :
  NoDup (map model_name results) ->
  names_hashable results = true ->
  unique_of results =
  Ok (map (fun r => (model_name r,
                     filter (fun c => negb (elsewhere results r c))
                            (components (aibom r))))
          results).
Proof.
  intros Hnd Hh. unfold unique_of.
  rewrite (find_unique_closed _ (extract_hashable results Hh)).
  rewrite (extract_distinct results Hnd). f_equal.
  unfold unique_closed. rewrite (names_by_model_distinct results Hnd).
  rewrite fold_left_map. cbn [fst snd].
  rewrite (fold_sset_distinct model_name
             (fun r => unique_to_model (model_name r) (components (aibom r))
                         (map (fun r0 => (model_name r0, names_of r0)) results)))
    by exact Hnd.
  cbn [app]. apply map_ext. intros r. f_equal.
  unfold unique_to_model. apply filter_ext. intros c.
  apply is_unique_elsewhere.
Qed.

Ltac distinct_strings :=
  repeat (constructor; [cbn; intuition discriminate |]); constructor.




(** C8 (as amended).  Two results with different model names, hashable
    component names and disjoint name sets have no common component, and
    each model's unique-components entry is its own full component list.
    In general, for pairwise distinct model names, the entry of a model
    keeps, in order and with repetitions, exactly its components whose name
    is in no other model's name set. *)
Theorem unique_components_of_distinct_models :
  (forall r1 r2,
      model_name r1 <> model_name r2 ->
      names_hashable [r1; r2] = true ->
      disjoint_names r1 r2 = true ->
      common_of [r1; r2] = Ok []
      /\ unique_of [r1; r2] =
         Ok [(model_name r1, components (aibom r1));
             (model_name r2, components (aibom r2))])
  /\ (forall results,
        NoDup (map model_name results) ->
        names_hashable results = true ->
        unique_of results =
        Ok (map (fun r => (model_name r,
                           filter (fun c => negb (elsewhere results r c))
                                  (components (aibom r))))
                results)).
Proof.
  split; [| exact unique_of_closed].
  intros r1 r2 Hne Hh Hdis.
  assert (Hnd : NoDup (map model_name [r1; r2])).
  { cbn. constructor; [intros [H | []]; congruence |].
    constructor; [intros [] | constructor]. }
  pose proof Hh as Hh'. cbn in Hh'. rewrite andb_true_r in Hh'.
  apply andb_prop in Hh'. destruct Hh' as [Hh1 Hh2].
  unfold disjoint_names in Hdis. rewrite forallb_forall in Hdis.
  split.
  - rewrite (common_of_closed _ Hnd Hh). f_equal.
    cbn [map common_closed]. rewrite filter_none; [reflexivity |].
    intros [k v] Hin. cbn [fst in_every forallb snd]. rewrite andb_true_r.
    apply index_items in Hin. destruct Hin as [[] | [Hv Hk]].
    specialize (Hdis k). rewrite <- Hk in *.
    apply negb_true_iff. apply Hdis. unfold names_of. now apply in_map.
  - rewrite (unique_of_closed _ Hnd Hh). cbn [map]. do 2 f_equal.
    + f_equal. apply filter_all. intros c Hc. unfold elsewhere.
      cbn [existsb]. rewrite String.eqb_refl. cbn [negb andb orb].
      rewrite orb_false_r. apply negb_true_iff. apply andb_false_intro2.
      apply negb_true_iff. apply Hdis. unfold names_of. now apply in_map.
    + do 2 f_equal. apply filter_all. intros c Hc. unfold elsewhere.
      cbn [existsb]. rewrite String.eqb_refl. cbn [negb andb orb].
      rewrite orb_false_r. apply negb_true_iff. apply andb_false_intro2.
      destruct (name_in (comp_name c) (names_of r1)) eqn:Hin; [| reflexivity].
      apply name_in_In in Hin. apply Hdis in Hin.
      apply negb_true_iff in Hin. rewrite In_name_in in Hin; [discriminate | |].
      * rewrite forallb_forall in Hh2. apply Hh2. unfold names_of.
        now apply in_map.
      * unfold names_of. now apply in_map.
Qed.

Lemma unique_components_of_distinct_models_witness :
  model_name model_a <> model_name model_b
  /\ names_hashable [model_a; model_b] = true
  /\ disjoint_names model_a model_b = true
  /\ common_of [model_a; model_b] = Ok []
  /\ unique_of [model_a; model_b] =
     Ok [(model_name model_a, components (aibom model_a));
         (model_name model_b, components (aibom model_b))].
Proof.
  assert (Hne : model_name model_a <> model_name model_b) by discriminate.
  split; [exact Hne |]. split; [reflexivity |]. split; [reflexivity |].
  exact (proj1 unique_components_of_distinct_models model_a model_b Hne
           eq_refl eq_refl).
Defined.

(** C8, as stated, fails for two results that carry the same model name:
    their name sets are disjoint, yet the later result's component is
    reported as common, and the earlier result has no entry of its own. *)
Lemma same_name_pair_has_common_component :
  disjoint_names model_m_old model_m_new = true
  /\ common_of [model_m_old; model_m_new] <> Ok []
  /\ unique_of [model_m_old; model_m_new] =
     Ok [(model_name model_m_new, components (aibom model_m_new))]
  /\ components (aibom model_m_old) <> components (aibom model_m_new).
Proof.
  split; [reflexivity |]. split; [vm_compute; discriminate |].
  split; [reflexivity | vm_compute; discriminate].
Qed.

(** *** [max] and [min] with a key *)

Lemma max_fold_spec (A : Type) (key : A -> Z) (l : list A) :
  forall best,
    let m := fold_left (fun b y => if Z.ltb (key b) (key y) then y else b) l best in
    In m (best :: l) /\ (key best <= key m)%Z
    /\ forall y, In y l -> (key y <= key m)%Z.
Proof.
  induction l as [| x r IH]; intros best; cbn [fold_left].
  - cbn. split; [now left |]. split; [lia | intros ? []].
  - destruct (IH (if Z.ltb (key best) (key x) then x else best))
      as [Hin [Hle Hall]].
    split; [| split].
    + destruct (Z.ltb (key best) (key x)).
      * right. exact Hin.
      * destruct Hin as [Hin | Hin]; [now left | right; now right].
    + destruct (Z.ltb_spec (key best) (key x)); lia.
    + intros y [-> | Hy]; [| now apply Hall].
      destruct (Z.ltb_spec (key best) (key y)); lia.
Qed.

Lemma max_by_spec (A : Type) (key : A -> Z) (l : list A) (m : A) :
  max_by key Z.ltb l = Some m ->
  In m l /\ forall y, In y l -> (key y <= key m)%Z.
Proof.
  destruct l as [| x r]; cbn [max_by]; [discriminate |].
  intros H. injection H as <-.
  destruct (max_fold_spec key r x) as [Hin [Hle Hall]].
  split; [exact Hin |]. intros y [-> | Hy]; [exact Hle | now apply Hall].
Qed.

Lemma ext_ltb_keeps_floor (y b z : ext) :
  ext_ltb y b = true -> ext_ltb z b = false -> ext_ltb z y = false.
Proof.
  destruct y, b, z; cbn; try discriminate; try reflexivity;
    rewrite ?Z.ltb_lt, ?Z.ltb_ge; lia.
Qed.

Lemma ext_ltb_irrefl (a : ext) : ext_ltb a a = false.
Proof. destruct a; cbn; [apply Z.ltb_irrefl | reflexivity]. Qed.

Lemma ext_ltb_trans_floor (y b m : ext) :
  ext_ltb y b = false -> ext_ltb b m = false -> ext_ltb y m = false.
Proof.
  destruct y, b, m; cbn; try discriminate; try reflexivity;
    rewrite ?Z.ltb_ge; lia.
Qed.

Lemma min_fold_spec (A : Type) (key : A -> ext) (l : list A) :
  forall best,
    let m := fold_left (fun b y => if ext_ltb (key y) (key b) then y else b) l best in
    In m (best :: l) /\ ext_ltb (key best) (key m) = false
    /\ forall y, In y l -> ext_ltb (key y) (key m) = false.
Proof.
  induction l as [| x r IH]; intros best; cbn [fold_left].
  - cbn. split; [now left |]. split; [apply ext_ltb_irrefl | intros ? []].
  - destruct (IH (if ext_ltb (key x) (key best) then x else best))
      as [Hin [Hle Hall]].
    split; [| split].
    + destruct (ext_ltb (key x) (key best)).
      * right. exact Hin.
      * destruct Hin as [Hin | Hin]; [now left | right; now right].
    + destruct (ext_ltb (key x) (key best)) eqn:Hx; [| exact Hle].
      destruct (ext_ltb (key best) (key _)) eqn:Hb; [| reflexivity].
      rewrite (ext_ltb_keeps_floor _ _ _ Hb Hle) in Hx. discriminate.
    + intros y [-> | Hy]; [| now apply Hall].
      destruct (ext_ltb (key y) (key best)) eqn:Hx; [exact Hle |].
      exact (ext_ltb_trans_floor _ _ _ Hx Hle).
Qed.

Lemma min_by_spec (A : Type) (key : A -> ext) (l : list A) (m : A) :
  min_by key ext_ltb l = Some m ->
  In m l /\ forall y, In y l -> ext_ltb (key y) (key m) = false.
Proof.
  destruct l as [| x r]; cbn [min_by]; [discriminate |].
  intros H. injection H as <-.
  destruct (min_fold_spec key r x) as [Hin [Hle Hall]].
  split; [exact Hin |]. intros y [-> | Hy]; [exact Hle | now apply Hall].
Qed.

(** A map that keeps keys commutes with the choice of an extreme. *)
Lemma max_by_map (A K : Type) (key : A -> K) (ltb : K -> K -> bool)
    (h : A -> A) (l : list A) :
  (forall x, key (h x) = key x) ->
  max_by key ltb (map h l) = option_map h (max_by key ltb l).
Proof.
  intros Hk. destruct l as [| x r]; cbn [map max_by option_map]; [reflexivity |].
  f_equal. revert x. induction r as [| y r IH]; intros x; cbn [map fold_left].
  - reflexivity.
  - rewrite !Hk. destruct (ltb (key x) (key y)); apply IH.
Qed.

Lemma min_by_map (A K : Type) (key : A -> K) (ltb : K -> K -> bool)
    (h : A -> A) (l : list A) :
  (forall x, key (h x) = key x) ->
  min_by key ltb (map h l) = option_map h (min_by key ltb l).
Proof.
  intros Hk. destruct l as [| x r]; cbn [map min_by option_map]; [reflexivity |].
  f_equal. revert x. induction r as [| y r IH]; intros x; cbn [map fold_left].
  - reflexivity.
  - rewrite !Hk. destruct (ltb (key y) (key x)); apply IH.
Qed.

(** *** Sizes *)

Lemma sizes_of_distinct (results : list AnalysisResult) :
  NoDup (map model_name results) ->
  sizes_of results =
  map (fun r => (model_name r, model_size (model_info r))) results.
Proof.
  intros H. unfold sizes_of.
  now rewrite (fold_sset_distinct model_name (fun r => model_size (model_info r))).
Qed.

Lemma valid_sizes_known (results : list AnalysisResult) :
  valid_sizes_of results =
  filter (fun z => negb (z =? 0)%Z) (known_sizes results).
Proof.
  unfold valid_sizes_of, known_sizes.
  induction results as [| r rest IH]; cbn [flat_map]; [reflexivity |].
  rewrite filter_app, <- IH. f_equal.
  destruct (model_size (model_info r)) as [z |]; [| reflexivity].
  cbn. destruct (z =? 0)%Z; reflexivity.
Qed.

Lemma valid_sizes_nonzero (results : list AnalysisResult) :
  ~ In 0%Z (valid_sizes_of results).
Proof.
  rewrite valid_sizes_known. intros H. apply filter_In in H.
  destruct H as [_ H]. discriminate.
Qed.

Lemma valid_size_exists (results : list AnalysisResult) :
  valid_sizes_of results <> [] ->
  exists r z, In r results /\ model_size (model_info r) = Some z /\ z <> 0%Z.
Proof.
  unfold valid_sizes_of.
  induction results as [| r rest IH]; cbn [flat_map]; [congruence |].
  intros H. destruct (model_size (model_info r)) as [z |] eqn:Hs.
  - cbn in H. destruct (Z.eqb_spec z 0).
    + cbn in H. destruct (IH H) as [r' [z' [Hin Hr]]].
      exists r', z'. split; [now right | exact Hr].
    + exists r, z. split; [now left | split; [exact Hs | exact n]].
  - cbn in H. destruct (IH H) as [r' [z' [Hin Hr]]].
    exists r', z'. split; [now right | exact Hr].
Qed.

Lemma compare_sizes_empty (results : list AnalysisResult) :
  valid_sizes_of results = [] ->
  _compare_sizes results =
  Ok {| sizes_by_model := sizes_of results;
        largest_model := "";
        smallest_model := "";
        average_size := PyInt 0;
        size_distribution := [] |}.
Proof. unfold _compare_sizes. intros ->. reflexivity. Qed.

Lemma compare_sizes_nonempty (results : list AnalysisResult) (avg : float) :
  valid_sizes_of results <> [] ->
  int_truediv (sum (valid_sizes_of results))
              (Z.of_nat (List.length (valid_sizes_of results))) = Ok avg ->
  _compare_sizes results =
  Ok {| sizes_by_model := sizes_of results;
        largest_model :=
          or_initial (max_by (fun kv => or_zero (snd kv)) Z.ltb (sizes_of results));
        smallest_model :=
          or_initial (min_by (fun kv => or_inf (snd kv)) ext_ltb (sizes_of results));
        average_size := PyFloat avg;
        size_distribution := [] |}.
Proof.
  unfold _compare_sizes. intros Hne Havg.
  destruct (valid_sizes_of results) as [| z zs]; [congruence |].
  rewrite Havg. reflexivity.
Qed.

(** With distinct model names and no negative size, the models chosen as
    largest and smallest have a size that is present and positive. *)
Lemma winners_have_valid_size (results : list AnalysisResult) :
  NoDup (map model_name results) ->
  sizes_nonnegative results = true ->
  valid_sizes_of results <> [] ->
  (exists rl zl,
      In rl results
      /\ or_initial (max_by (fun kv => or_zero (snd kv)) Z.ltb (sizes_of results))
         = model_name rl
      /\ model_size (model_info rl) = Some zl /\ (0 < zl)%Z
      /\ forall r, In r results -> (or_zero (model_size (model_info r)) <= zl)%Z)
  /\ (exists rs zs,
        In rs results
        /\ or_initial (min_by (fun kv => or_inf (snd kv)) ext_ltb (sizes_of results))
           = model_name rs
        /\ model_size (model_info rs) = Some zs /\ (0 < zs)%Z
        /\ forall r z, In r results -> model_size (model_info r) = Some z ->
                       z <> 0%Z -> (zs <= z)%Z).
Proof.
  intros Hnd Hnn Hne. rewrite (sizes_of_distinct results Hnd).
  destruct (valid_size_exists results Hne) as [r0 [z0 [Hin0 [Hs0 Hz0]]]].
  unfold sizes_nonnegative in Hnn. rewrite forallb_forall in Hnn.
  assert (Hpos0 : (0 < z0)%Z).
  { specialize (Hnn r0 Hin0). rewrite Hs0 in Hnn. apply Z.leb_le in Hnn. lia. }
  set (items := map (fun r => (model_name r, model_size (model_info r))) results).
  assert (Hin0' : In (model_name r0, model_size (model_info r0)) items).
  { unfold items. now apply (in_map (fun r => (model_name r, model_size (model_info r)))). }
  split.
  - destruct (max_by (fun kv => or_zero (snd kv)) Z.ltb items) as [m |] eqn:Hm.
    2:{ unfold items in Hm. destruct results; [contradiction | discriminate]. }
    apply max_by_spec in Hm. destruct Hm as [Hmin Hmax].
    apply in_map_iff in Hmin. destruct Hmin as [rl [<- Hrl]].
    pose proof (Hmax _ Hin0') as H0. cbn [snd] in H0.
    rewrite Hs0 in H0. cbn [or_zero] in H0.
    destruct (Z.eqb_spec z0 0); [contradiction |].
    destruct (model_size (model_info rl)) as [zl |] eqn:Hsl;
      cbn [or_zero] in H0; [| lia].
    destruct (Z.eqb_spec zl 0); [lia |].
    exists rl, zl. split; [exact Hrl |]. split; [reflexivity |].
    split; [exact Hsl |]. split; [lia |].
    intros r Hr.
    pose proof (Hmax (model_name r, model_size (model_info r))
                  (in_map (fun r => (model_name r, model_size (model_info r)))
                          _ _ Hr)) as H.
    cbn [snd] in H. rewrite ?Hsl in H. cbn [or_zero] in H.
    destruct (Z.eqb_spec zl 0); [contradiction | exact H].
  - destruct (min_by (fun kv => or_inf (snd kv)) ext_ltb items) as [m |] eqn:Hm.
    2:{ unfold items in Hm. destruct results; [contradiction | discriminate]. }
    apply min_by_spec in Hm. destruct Hm as [Hmin Hmax].
    apply in_map_iff in Hmin. destruct Hmin as [rs [<- Hrs]].
    pose proof (Hmax _ Hin0') as H0. cbn [snd] in H0.
    rewrite Hs0 in H0. cbn [or_inf] in H0.
    destruct (Z.eqb_spec z0 0); [contradiction |].
    destruct (model_size (model_info rs)) as [zs |] eqn:Hss;
      cbn [or_inf] in H0; [| discriminate].
    destruct (Z.eqb_spec zs 0); [discriminate |].
    exists rs, zs. split; [exact Hrs |]. split; [reflexivity |].
    split; [exact Hss |]. split.
    + specialize (Hnn rs Hrs). rewrite Hss in Hnn. apply Z.leb_le in Hnn. lia.
    + intros r z Hr Hs Hz.
      pose proof (Hmax (model_name r, model_size (model_info r))
                    (in_map (fun r => (model_name r, model_size (model_info r)))
                            _ _ Hr)) as H.
      cbn [snd] in H. rewrite Hs, ?Hss in H. cbn [or_inf] in H.
      destruct (Z.eqb_spec z 0); [contradiction |].
      destruct (Z.eqb_spec zs 0); [contradiction |].
      cbn in H. apply Z.ltb_ge in H. exact H.
Qed.

Lemma compare_sizes_selection (results : list AnalysisResult)
    (sc : SizeComparison) :
  valid_sizes_of results <> [] ->
  _compare_sizes results = Ok sc ->
  largest_model sc =
    or_initial (max_by (fun kv => or_zero (snd kv)) Z.ltb (sizes_of results))
  /\ smallest_model sc =
    or_initial (min_by (fun kv => or_inf (snd kv)) ext_ltb (sizes_of results)).
Proof.
  intros Hne H.
  destruct (int_truediv (sum (valid_sizes_of results))
              (Z.of_nat (List.length (valid_sizes_of results)))) as [avg | e] eqn:Havg.
  - rewrite (compare_sizes_nonempty results Hne Havg) in H.
    injection H as <-. split; reflexivity.
  - unfold _compare_sizes in H.
    destruct (valid_sizes_of results); [congruence |].
    rewrite Havg in H. discriminate.
Qed.

(** With distinct model names and no negative size, a model whose size is
    absent or 0 is chosen neither as largest nor as smallest. *)
Lemma invalid_size_never_wins (results : list AnalysisResult)
    (sc : SizeComparison) (r : AnalysisResult) :
  NoDup (map model_name results) ->
  sizes_nonnegative results = true ->
  valid_sizes_of results <> [] ->
  _compare_sizes results = Ok sc ->
  In r results ->
  size_truthy (model_size (model_info r)) = false ->
  largest_model sc <> model_name r /\ smallest_model sc <> model_name r.
Proof.
  intros Hnd Hnn Hne Hsc Hr Hinv.
  destruct (compare_sizes_selection results Hne Hsc) as [-> ->].
  destruct (winners_have_valid_size results Hnd Hnn Hne)
    as [[rl [zl [Hrl [-> [Hsl [Hzl _]]]]]] [rs [zs [Hrs [-> [Hss [Hzs _]]]]]]].
  split; intros Heq.
  - pose proof (NoDup_map_injective model_name results rl r Hnd Hrl Hr Heq).
    subst rl. rewrite Hsl in Hinv. cbn in Hinv.
    destruct (Z.eqb_spec zl 0); [lia | discriminate].
  - pose proof (NoDup_map_injective model_name results rs r Hnd Hrs Hr Heq).
    subst rs. rewrite Hss in Hinv. cbn in Hinv.
    destruct (Z.eqb_spec zs 0); [lia | discriminate].
Qed.

(** C9 (as amended).  The average is taken over the sizes that are present
    and not 0: it is the float nearest to their arithmetic mean, and the
    integer 0 (with no largest or smallest model) when there is none.
    When model names are distinct and no size is negative, the largest and
    the smallest model are models with a present, positive size, maximal
    resp. minimal among those, so that a model with an absent size is
    chosen as neither.  For the sizes A: 100, B: absent, C: 300 the average
    is 200.0 and the largest model is C. *)
Theorem size_comparison_over_valid_sizes (results : list AnalysisResult) :
  valid_sizes_of results =
    filter (fun z => negb (z =? 0)%Z) (known_sizes results)
  /\ (valid_sizes_of results = [] ->
      size_outcome results = Ok ("", "", PyInt 0))
  /\ (forall avg,
        valid_sizes_of results <> [] ->
        int_truediv (sum (valid_sizes_of results))
                    (Z.of_nat (List.length (valid_sizes_of results))) = Ok avg ->
        exists sc,
          _compare_sizes results = Ok sc
          /\ average_size sc = PyFloat avg
          /\ (NoDup (map model_name results) ->
              sizes_nonnegative results = true ->
              (exists rl zl,
                  In rl results /\ largest_model sc = model_name rl
                  /\ model_size (model_info rl) = Some zl /\ (0 < zl)%Z
                  /\ forall r, In r results ->
                               (or_zero (model_size (model_info r)) <= zl)%Z)
              /\ (exists rs zs,
                    In rs results /\ smallest_model sc = model_name rs
                    /\ model_size (model_info rs) = Some zs /\ (0 < zs)%Z
                    /\ forall r z, In r results ->
                                   model_size (model_info r) = Some z ->
                                   z <> 0%Z -> (zs <= z)%Z)
              /\ forall r, In r results ->
                           model_size (model_info r) = None ->
                           largest_model sc <> model_name r
                           /\ smallest_model sc <> model_name r))
  /\ size_outcome [model_a; model_b; model_c] = Ok ("C", "A", PyFloat (round_Z 200)).
Proof.
  split; [apply valid_sizes_known |].
  split; [| split; [| reflexivity]].
  - intros H. unfold size_outcome.
    rewrite (compare_sizes_empty results H). reflexivity.
  - intros avg Hne Havg. eexists.
    split; [apply (compare_sizes_nonempty results Hne Havg) |].
    split; [reflexivity |]. intros Hnd Hnn. cbn [largest_model smallest_model].
    destruct (winners_have_valid_size results Hnd Hnn Hne) as [Hl Hs].
    split; [exact Hl |]. split; [exact Hs |].
    intros r Hr Hnone.
    refine (@invalid_size_never_wins results _ r Hnd Hnn Hne
              (compare_sizes_nonempty results Hne Havg) Hr _).
    rewrite Hnone. reflexivity.
Qed.

Lemma size_comparison_over_valid_sizes_witness :
  valid_sizes_of [model_a; model_b; model_c] <> []
  /\ int_truediv (sum (valid_sizes_of [model_a; model_b; model_c]))
       (Z.of_nat (List.length (valid_sizes_of [model_a; model_b; model_c])))
     = Ok (round_Z 200)
  /\ NoDup (map model_name [model_a; model_b; model_c])
  /\ sizes_nonnegative [model_a; model_b; model_c] = true
  /\ exists sc,
       _compare_sizes [model_a; model_b; model_c] = Ok sc
       /\ average_size sc = PyFloat (round_Z 200)
       /\ largest_model sc <> model_name model_b
       /\ smallest_model sc <> model_name model_b.
Proof.
  assert (Hne : valid_sizes_of [model_a; model_b; model_c] <> [])
    by (vm_compute; discriminate).
  assert (Havg : int_truediv (sum (valid_sizes_of [model_a; model_b; model_c]))
            (Z.of_nat (List.length (valid_sizes_of [model_a; model_b; model_c])))
          = Ok (round_Z 200)) by reflexivity.
  assert (Hnd : NoDup (map model_name [model_a; model_b; model_c]))
    by (cbn; distinct_strings).
  assert (Hnn : sizes_nonnegative [model_a; model_b; model_c] = true)
    by reflexivity.
  split; [exact Hne |]. split; [exact Havg |]. split; [exact Hnd |].
  split; [exact Hnn |].
  destruct (proj1 (proj2 (proj2
              (size_comparison_over_valid_sizes [model_a; model_b; model_c])))
              (round_Z 200) Hne Havg) as [sc [Hsc [Hav Hsel]]].
  exists sc. split; [exact Hsc |]. split; [exact Hav |].
  destruct (Hsel Hnd Hnn) as [_ [_ Habs]].
  exact (Habs model_b (or_intror (or_introl eq_refl)) eq_refl).
Defined.

(** C9, as stated, fails when a size is known to be 0: of the known sizes
    0 and 100 the mean is 50, the average computed is 100.  And next to a
    negative size, the model whose size is absent is chosen as largest. *)
Lemma zero_size_left_out_of_average :
  known_sizes [model_zero; model_hundred] = [0%Z; 100%Z]
  /\ int_truediv (sum (known_sizes [model_zero; model_hundred]))
       (Z.of_nat (List.length (known_sizes [model_zero; model_hundred])))
     = Ok (round_Z 50)
  /\ size_outcome [model_zero; model_hundred] = Ok ("H", "H", PyFloat (round_Z 100))
  /\ round_Z 100 <> round_Z 50
  /\ model_size (model_info model_b) = None
  /\ size_outcome [model_b; model_negative] = Ok ("B", "N", PyFloat (round_Z (-5))).
Proof.
  split; [reflexivity |]. split; [reflexivity |]. split; [reflexivity |].
  split; [vm_compute; discriminate |]. split; reflexivity.
Qed.

(** *** A size of 0 *)

Lemma zero_as_absent_keys (o : option Z) :
  or_zero (zero_as_absent o) = or_zero o
  /\ or_inf (zero_as_absent o) = or_inf o
  /\ size_truthy (zero_as_absent o) = size_truthy o.
Proof.
  destruct o as [z |]; cbn; [| repeat split].
  destruct (Z.eqb_spec z 0); cbn; [repeat split |].
  destruct (Z.eqb_spec z 0); [contradiction | repeat split].
Qed.

Lemma valid_sizes_forget (results : list AnalysisResult) :
  valid_sizes_of (map forget_zero results) = valid_sizes_of results.
Proof.
  unfold valid_sizes_of.
  induction results as [| r rest IH]; cbn [map flat_map]; [reflexivity |].
  rewrite IH. f_equal. cbn [forget_zero model_info with_size model_size].
  destruct (model_size (model_info r)) as [z |]; cbn; [| reflexivity].
  destruct (Z.eqb_spec z 0); cbn; [reflexivity |].
  destruct (Z.eqb_spec z 0); [contradiction | reflexivity].
Qed.

Lemma sizes_of_forget (results : list AnalysisResult) :
  sizes_of (map forget_zero results) =
  map (fun kv => (fst kv, zero_as_absent (snd kv))) (sizes_of results).
Proof.
  unfold sizes_of. rewrite fold_left_map.
  change (@nil (string * option Z))
    with (map (fun kv : string * option Z => (fst kv, zero_as_absent (snd kv))) [])
    at 1.
  generalize (@nil (string * option Z)) as acc.
  induction results as [| r rest IH]; intros acc; cbn [fold_left];
    [reflexivity |].
  cbn [forget_zero model_name model_info with_size model_size].
  rewrite sset_map_values. apply IH.
Qed.

Lemma or_initial_map (V : Type) (h : string * V -> string * V)
    (o : option (string * V)) :
  (forall x, fst (h x) = fst x) ->
  or_initial (option_map h o) = or_initial o.
Proof. intros H. destruct o as [x |]; cbn; [apply H | reflexivity]. Qed.

Lemma size_outcome_forget (results : list AnalysisResult) :
  size_outcome (map forget_zero results) = size_outcome results.
Proof.
  unfold size_outcome, _compare_sizes.
  rewrite valid_sizes_forget, sizes_of_forget.
  destruct (valid_sizes_of results) as [| z zs]; [reflexivity |].
  destruct (int_truediv _ _) as [avg | e]; [| reflexivity].
  cbn [Py.bind largest_model smallest_model average_size].
  rewrite (max_by_map (fun kv : string * option Z => or_zero (snd kv)) Z.ltb
             (fun kv => (fst kv, zero_as_absent (snd kv))))
    by (intros x; apply zero_as_absent_keys).
  rewrite (min_by_map (fun kv : string * option Z => or_inf (snd kv)) ext_ltb
             (fun kv => (fst kv, zero_as_absent (snd kv))))
    by (intros x; apply zero_as_absent_keys).
  rewrite !or_initial_map by reflexivity. reflexivity.
Qed.

(** C10 (as amended).  A size of 0 is handled exactly as an absent size:
    it is left out of the average, it gets the ranking keys of an absent
    size (0 for the largest model, infinity for the smallest), and
    replacing every 0 by an absent size changes neither the largest model,
    the smallest model nor the average.  When model names are distinct and
    no size is negative, a model of size 0 is chosen neither as largest nor
    as smallest. *)
Theorem zero_size_counts_as_absent (results : list AnalysisResult) :
  size_outcome (map forget_zero results) = size_outcome results
  /\ ~ In 0%Z (valid_sizes_of results)
  /\ or_zero (Some 0%Z) = or_zero None
  /\ or_inf (Some 0%Z) = or_inf None
  /\ (forall r sc,
        NoDup (map model_name results) ->
        sizes_nonnegative results = true ->
        In r results ->
        model_size (model_info r) = Some 0%Z ->
        valid_sizes_of results <> [] ->
        _compare_sizes results = Ok sc ->
        largest_model sc <> model_name r /\ smallest_model sc <> model_name r).
Proof.
  split; [apply size_outcome_forget |].
  split; [apply valid_sizes_nonzero |].
  split; [reflexivity |]. split; [reflexivity |].
  intros r sc Hnd Hnn Hr Hzero Hne Hsc.
  refine (@invalid_size_never_wins results sc r Hnd Hnn Hne Hsc Hr _).
  rewrite Hzero. reflexivity.
Qed.

Lemma zero_size_counts_as_absent_witness :
  NoDup (map model_name [model_zero; model_hundred])
  /\ sizes_nonnegative [model_zero; model_hundred] = true
  /\ In model_zero [model_zero; model_hundred]
  /\ model_size (model_info model_zero) = Some 0%Z
  /\ valid_sizes_of [model_zero; model_hundred] <> []
  /\ exists sc,
       _compare_sizes [model_zero; model_hundred] = Ok sc
       /\ largest_model sc <> model_name model_zero
       /\ smallest_model sc <> model_name model_zero.
Proof.
  assert (Hnd : NoDup (map model_name [model_zero; model_hundred]))
    by (cbn; distinct_strings).
  assert (Hne : valid_sizes_of [model_zero; model_hundred] <> [])
    by (vm_compute; discriminate).
  split; [exact Hnd |]. split; [reflexivity |].
  split; [left; reflexivity |]. split; [reflexivity |]. split; [exact Hne |].
  eexists. split; [vm_compute; reflexivity |].
  exact (proj2 (proj2 (proj2 (proj2
           (zero_size_counts_as_absent [model_zero; model_hundred]))))
           model_zero _ Hnd eq_refl (or_introl eq_refl) eq_refl Hne eq_refl).
Defined.

(** C10, as stated, fails next to a negative size: of the sizes 0 and -5
    the model of size 0 is chosen as the largest.  It fails as well when
    a model name occurs twice: the name whose recorded size is 0 is chosen
    as the largest. *)
Lemma zero_size_largest_among_negative :
  model_size (model_info model_zero) = Some 0%Z
  /\ model_size (model_info model_negative) = Some (-5)%Z
  /\ (exists sc,
        _compare_sizes [model_zero; model_negative] = Ok sc
        /\ largest_model sc = model_name model_zero)
  /\ (exists sc,
        _compare_sizes [model_m_old; model_m_zero] = Ok sc
        /\ sget (sizes_by_model sc) (model_name model_m_zero) = Some (Some 0%Z)
        /\ largest_model sc = model_name model_m_zero).
Proof.
  split; [reflexivity |]. split; [reflexivity |].
  split; eexists; (split; [vm_compute; reflexivity |]); repeat split.
Qed.

(** *** When [compare_models] returns *)

Lemma security_loop_returns (results : list AnalysisResult) :
  counts_defined results = true ->
  forall acc, exists acc', security_loop results acc = Ok acc'.
Proof.
  unfold counts_defined.
  induction results as [| r rest IH]; cbn [forallb security_loop];
    intros H acc.
  - now exists acc.
  - apply andb_prop in H. destruct H as [Hr Hrest].
    apply andb_prop in Hr. destruct Hr as [Hv Hi].
    destruct (py_len (sa_vulnerabilities (security_analysis r)));
      [| discriminate].
    destruct (py_len (compliance_issues (security_analysis r)));
      [| discriminate].
    cbn [Py.bind]. now apply IH.
Qed.

Lemma deps_loop_returns (results : list AnalysisResult) :
  dependencies_hashable results = true ->
  forall by_model all_deps,
    exists bd, deps_loop results by_model all_deps = Ok bd.
Proof.
  unfold dependencies_hashable.
  induction results as [| r rest IH]; cbn [forallb deps_loop];
    intros H by_model all_deps.
  - now eexists.
  - apply andb_prop in H. destruct H as [Hr Hrest].
    rewrite by_name_closed by (now rewrite forallb_map).
    cbn [Py.bind]. now apply IH.
Qed.

Lemma compare_sizes_returns (results : list AnalysisResult) :
  mean_defined results = true -> exists sc, _compare_sizes results = Ok sc.
Proof.
  unfold mean_defined, _compare_sizes.
  destruct (valid_sizes_of results) as [| z zs]; [now eexists |].
  destruct (int_truediv _ _); [now eexists | discriminate].
Qed.

(** Conversely, a loop that returns has met no name it could not hash and
    no value without a length. *)
Lemma name_set_returned (comps : list entry) (names : list pyval) :
  name_set comps = Ok names -> forallb hashable (map comp_name comps) = true.
Proof.
  unfold name_set. revert names.
  induction comps as [| c r IH]; intros names; cbn [map forallb Py.mapM].
  - reflexivity.
  - unfold hash_key at 1. destruct (hashable (comp_name c)); [| discriminate].
    destruct (Py.mapM _ r) as [ns |] eqn:Hr; [| discriminate].
    intros _. now rewrite (IH ns).
Qed.

Lemma by_name_returned (comps : list entry) :
  forall d d', by_name comps d = Ok d' ->
               forallb hashable (map comp_name comps) = true.
Proof.
  induction comps as [| c r IH]; intros d d'; cbn [map forallb by_name].
  - reflexivity.
  - unfold hash_key. destruct (hashable (comp_name c)); [| discriminate].
    cbn [Py.bind andb]. apply IH.
Qed.

Lemma collect_names_returned (items : sdict (list entry)) :
  forall acc out, collect_names items acc = Ok out -> dict_hashable items = true.
Proof.
  unfold dict_hashable.
  induction items as [| [m comps] r IH]; intros acc out;
    cbn [forallb collect_names snd].
  - reflexivity.
  - destruct (name_set comps) as [names |] eqn:Hn; [| discriminate].
    cbn [Py.bind]. intros H.
    rewrite (name_set_returned comps Hn), (IH _ _ H). reflexivity.
Qed.

Lemma security_loop_returned (results : list AnalysisResult) :
  forall acc acc', security_loop results acc = Ok acc' ->
                   counts_defined results = true.
Proof.
  unfold counts_defined.
  induction results as [| r rest IH]; intros acc acc';
    cbn [forallb security_loop].
  - reflexivity.
  - destruct (py_len (sa_vulnerabilities (security_analysis r)));
      [| discriminate].
    destruct (py_len (compliance_issues (security_analysis r)));
      [| discriminate].
    cbn [Py.bind Py.is_ok andb]. apply IH.
Qed.

Lemma deps_loop_returned (results : list AnalysisResult) :
  forall by_model all_deps bd,
    deps_loop results by_model all_deps = Ok bd ->
    dependencies_hashable results = true.
Proof.
  unfold dependencies_hashable.
  induction results as [| r rest IH]; intros by_model all_deps bd;
    cbn [forallb deps_loop].
  - reflexivity.
  - destruct (by_name (dependencies (aibom r)) []) as [d |] eqn:Hd;
      [| discriminate].
    cbn [Py.bind]. intros H. apply by_name_returned in Hd.
    rewrite forallb_map in Hd. rewrite Hd. cbn [andb]. exact (IH _ _ _ H).
Qed.

Lemma compare_sizes_returned (results : list AnalysisResult)
    (sc : SizeComparison) :
  _compare_sizes results = Ok sc -> mean_defined results = true.
Proof.
  unfold mean_defined, _compare_sizes.
  destruct (valid_sizes_of results) as [| z zs]; [reflexivity |].
  destruct (int_truediv _ _); [reflexivity | discriminate].
Qed.

(** C2 (as amended).  Comparing no model is not an error: the outcome is
    the comparison whose lists, maps and aggregate blocks are all empty.
    For any list, [compare_models] returns a comparison whenever every
    component and dependency name can be hashed, every vulnerabilities and
    compliance-issues value has a length, and the mean of the valid sizes
    is a float; for pairwise distinct model names it returns in no other
    case. *)
Theorem compare_models_returns :
  compare_models [] = Ok empty_comparison
  /\ (forall results,
        well_formed results = true ->
        exists comparison, compare_models results = Ok comparison)
  /\ (forall results comparison,
        NoDup (map model_name results) ->
        compare_models results = Ok comparison ->
        well_formed results = true).
Proof.
  split; [reflexivity |]. split.
  - intros results H. unfold well_formed in H.
    apply andb_prop in H. destruct H as [H Hmean].
    apply andb_prop in H. destruct H as [H Hcounts].
    apply andb_prop in H. destruct H as [Hnames Hdeps].
    unfold compare_models.
    rewrite (find_common_closed _ (extract_hashable results Hnames)).
    rewrite (find_unique_closed _ (extract_hashable results Hnames)).
    cbn [Py.bind]. unfold _compare_security.
    destruct (security_loop_returns results Hcounts
                {| acc_scores := []; acc_levels := []; acc_vulns := [];
                   acc_issues := [] |}) as [acc ->].
    cbn [Py.bind].
    destruct (compare_sizes_returns results Hmean) as [sc ->].
    cbn [Py.bind]. unfold _analyze_dependencies.
    destruct (deps_loop_returns results Hdeps [] []) as [bd ->].
    cbn [Py.bind]. now eexists.
  - intros results comparison Hnd. unfold compare_models.
    destruct (_find_common_components _); [| discriminate].
    destruct (_find_unique_components _) as [u |] eqn:Hu; [| discriminate].
    cbn [Py.bind]. unfold _compare_security.
    destruct (security_loop results _) as [acc |] eqn:Hs; [| discriminate].
    cbn [Py.bind].
    destruct (_compare_sizes results) as [sc |] eqn:Hz; [| discriminate].
    cbn [Py.bind]. unfold _analyze_dependencies.
    destruct (deps_loop results [] []) as [bd |] eqn:Hd; [| discriminate].
    intros _. unfold well_formed.
    rewrite (security_loop_returned results _ Hs),
            (deps_loop_returned results _ _ Hd),
            (compare_sizes_returned results Hz), !andb_true_r.
    unfold _find_unique_components in Hu.
    destruct (collect_names _ []) as [mcn |] eqn:Hc; [| discriminate].
    apply collect_names_returned in Hc.
    rewrite (extract_distinct results Hnd) in Hc.
    unfold dict_hashable in Hc. rewrite forallb_map in Hc. exact Hc.
Qed.

Lemma compare_models_returns_witness :
  well_formed [model_a; model_b; model_c] = true
  /\ exists comparison, compare_models [model_a; model_b; model_c] = Ok comparison.
Proof.
  split; [reflexivity |].
  exact (proj1 (proj2 compare_models_returns) [model_a; model_b; model_c]
           eq_refl).
Defined.

(** C2, as stated, fails on the empty list, for which no error is raised;
    and an error does arise for a non-empty list, here from a result whose
    vulnerabilities value is a number. *)
Lemma empty_list_is_not_an_error :
  compare_models [] = Ok empty_comparison
  /\ ~ (exists e, compare_models [] = Raise e)
  /\ compare_models [model_unsized] = Raise Py.TypeError.
Proof.
  split; [reflexivity |]. split; [| reflexivity].
  intros [e H]. vm_compute in H. discriminate.
Qed.

(** The fields of a comparison are what [common_of], [unique_of] and
    [_compare_sizes] compute. *)
Lemma compare_models_fields (results : list AnalysisResult)
    (comparison : ModelComparison) :
  compare_models results = Ok comparison ->
  common_of results = Ok (common_components comparison)
  /\ unique_of results = Ok (unique_components comparison)
  /\ _compare_sizes results = Ok (size_comparison comparison).
Proof.
  unfold compare_models, common_of, unique_of.
  destruct (_find_common_components _); [| discriminate].
  destruct (_find_unique_components _); [| discriminate].
  destruct (_compare_security results); [| discriminate].
  destruct (_compare_sizes results); [| discriminate].
  destruct (_analyze_dependencies results); [| discriminate].
  cbn [Py.bind]. intros H. injection H as <-. repeat split.
Qed.

End EngineFacts.

(** ** The decoder never runs out of fuel *)

Module JsonFacts.

Import F64 Json.
Local Open Scope string_scope.

Lemma skip_ws_length (s : string) :
  String.length (skip_ws s) <= String.length s.
Proof.
  induction s as [| c r IH]; cbn; [lia |].
  destruct (is_ws c); cbn; lia.
Qed.

Lemma expect_length (c : ascii) (s r : string) :
  expect c s = Some r -> String.length s = S (String.length r).
Proof.
  destruct s as [| a t]; cbn; [discriminate |].
  destruct (Ascii.eqb a c); [| discriminate].
  intros H. now injection H as ->.
Qed.

Lemma take_digits_length (s ds rest : string) :
  take_digits s = (ds, rest) ->
  String.length s = String.length ds + String.length rest.
Proof.
  revert ds rest. induction s as [| c r IH]; cbn; intros ds rest H.
  - now injection H as <- <-.
  - destruct (is_digit c).
    + destruct (take_digits r) as [ds' rest'] eqn:Hr.
      injection H as <- <-. cbn. rewrite (IH _ _ eq_refl). lia.
    + now injection H as <- <-.
Qed.

Lemma drop_length (n : nat) (s : string) :
  String.length (drop n s) = String.length s - n.
Proof.
  revert s. induction n as [| n IH]; intros s; destruct s as [| c r]; cbn;
    try lia. apply IH.
Qed.

Lemma prefix_length (p s : string) :
  String.prefix p s = true -> String.length p <= String.length s.
Proof.
  revert s. induction p as [| a p IH]; intros s; destruct s as [| b r]; cbn;
    try lia; try discriminate.
  destruct (ascii_dec a b); [| discriminate].
  intros H. apply IH in H. lia.
Qed.

Lemma hex4_length (s r : string) (n : N) :
  hex4 s = Some (n, r) -> String.length s = 4 + String.length r.
Proof.
  unfold hex4. destruct s as [| a [| b [| c [| d t]]]]; try discriminate.
  destruct (hex_val a), (hex_val b), (hex_val c), (hex_val d);
    try discriminate.
  intros H. now injection H as _ ->.
Qed.

(** *** Strings *)

Lemma scanstring_shorter (fuel : nat) :
  forall s acc out rest,
    scanstring fuel s acc = Scanned out rest ->
    String.length rest < String.length s.
Proof.
  induction fuel as [| fuel IH]; intros s acc out rest; cbn [scanstring];
    [discriminate |].
  destruct s as [| c r]; [discriminate |].
  destruct (Ascii.eqb c dquote).
  { intros H. injection H as _ ->. cbn. lia. }
  destruct (Ascii.eqb c "\").
  - destruct r as [| e r']; [discriminate |].
    destruct (Ascii.eqb e "u").
    + destruct (hex4 r') as [[c1 r1] |] eqn:H1; [| discriminate].
      apply hex4_length in H1.
      destruct (is_high_surrogate c1 && String.prefix "\u" r1) eqn:Hs.
      * destruct (hex4 (drop 2 r1)) as [[c2 r2] |] eqn:H2; [| discriminate].
        apply hex4_length in H2. rewrite drop_length in H2.
        destruct (is_low_surrogate c2); intros H; apply IH in H; cbn; lia.
      * intros H. apply IH in H. cbn. lia.
    + destruct (simple_escape e); [| discriminate].
      intros H. apply IH in H. cbn. lia.
  - destruct (Nat.ltb (Py.ord c) 32); [discriminate |].
    intros H. apply IH in H. cbn. lia.
Qed.

Lemma scanstring_has_fuel (fuel : nat) :
  forall s acc,
    String.length s < fuel -> scanstring fuel s acc <> NoFuel.
Proof.
  induction fuel as [| fuel IH]; intros s acc Hlen; [lia |].
  cbn [scanstring]. destruct s as [| c r]; [discriminate |].
  cbn in Hlen.
  destruct (Ascii.eqb c dquote); [discriminate |].
  destruct (Ascii.eqb c "\").
  - destruct r as [| e r']; [discriminate |]. cbn in Hlen.
    destruct (Ascii.eqb e "u").
    + destruct (hex4 r') as [[c1 r1] |] eqn:H1; [| discriminate].
      apply hex4_length in H1.
      destruct (is_high_surrogate c1 && String.prefix "\u" r1).
      * destruct (hex4 (drop 2 r1)) as [[c2 r2] |] eqn:H2; [| discriminate].
        apply hex4_length in H2. rewrite drop_length in H2.
        destruct (is_low_surrogate c2); apply IH; lia.
      * apply IH. lia.
    + destruct (simple_escape e); [| discriminate]. apply IH. lia.
  - destruct (Nat.ltb (Py.ord c) 32); [discriminate |]. apply IH. lia.
Qed.

(** *** Numbers *)

Lemma scan_number_shorter (s rest : string) (v : json) :
  scan_number s = Scanned v rest -> String.length rest < String.length s.
Proof.
  unfold scan_number.
  destruct (scan_sign s) as [neg s1] eqn:H1.
  destruct (scan_int_part s1) as [ip s2] eqn:H2.
  destruct (is_empty ip) eqn:Hip; [discriminate |].
  destruct (scan_frac s2) as [fp s3] eqn:H3.
  destruct (scan_exp s3) as [ex s4] eqn:H4.
  assert (L1 : String.length s1 <= String.length s).
  { unfold scan_sign in H1. destruct s as [| c r]; [now injection H1 as _ <- |].
    destruct (Ascii.eqb c "-"); injection H1 as _ <-; cbn; lia. }
  assert (L2 : String.length s2 < String.length s1).
  { unfold scan_int_part in H2. destruct s1 as [| c r].
    - injection H2 as <- _. discriminate.
    - destruct (Ascii.eqb c "0").
      + injection H2 as _ <-. cbn. lia.
      + apply take_digits_length in H2. destruct ip; [discriminate |].
        cbn in H2 |- *. lia. }
  assert (L3 : String.length s3 <= String.length s2).
  { unfold scan_frac in H3. destruct s2 as [| c r]; [now injection H3 as _ <- |].
    destruct (Ascii.eqb c "."); [| now injection H3 as _ <-].
    destruct (take_digits r) as [ds r'] eqn:Hd.
    apply take_digits_length in Hd.
    destruct (is_empty ds); injection H3 as _ <-; cbn; lia. }
  assert (L4 : String.length s4 <= String.length s3).
  { unfold scan_exp in H4. destruct s3 as [| c r]; [now injection H4 as _ <- |].
    destruct (Ascii.eqb c "e" || Ascii.eqb c "E"); [| now injection H4 as _ <-].
    destruct r as [| g r'].
    - cbn in H4. injection H4 as _ <-. cbn. lia.
    - destruct (Ascii.eqb g "-"); [| destruct (Ascii.eqb g "+")];
        (destruct (take_digits _) as [ds rr] eqn:Hd;
         apply take_digits_length in Hd;
         destruct (is_empty ds); injection H4 as _ <-; cbn in *; lia). }
  destruct (is_empty fp), ex; intros H; injection H as _ <-; lia.
Qed.

(** *** Values *)

(** What a scanner returns is shorter than what it was given, and with
    twice the length as fuel (one more for the loops) it does not stop for
    lack of fuel. *)
Lemma scanners_sound (fuel : nat) :
  (forall s,
      (forall v rest, scan_once fuel s = Scanned v rest ->
                      String.length rest < String.length s)
      /\ (2 * String.length s < fuel -> scan_once fuel s <> NoFuel))
  /\ (forall s acc,
        (forall v rest, scan_members fuel s acc = Scanned v rest ->
                        String.length rest < String.length s)
        /\ (2 * String.length s < fuel -> scan_members fuel s acc <> NoFuel))
  /\ (forall s acc,
        (forall v rest, scan_elements fuel s acc = Scanned v rest ->
                        String.length rest < String.length s)
        /\ (2 * String.length s + 1 < fuel -> scan_elements fuel s acc <> NoFuel)).
Proof.
  induction fuel as [| fuel [IHo [IHm IHe]]].
  { repeat split; try discriminate; cbn; lia. }
  split; [| split].
  - intros s. cbn [scan_once]. destruct s as [| c r]; [split; discriminate |].
    destruct (Ascii.eqb c dquote).
    { destruct (scanstring (S (String.length r)) r "") as [str rest | |] eqn:Hs.
      - apply scanstring_shorter in Hs. split; [| discriminate].
        intros v rest' H. injection H as _ <-. cbn. lia.
      - split; discriminate.
      - exfalso. apply (@scanstring_has_fuel (S (String.length r)) r "");
          [lia | exact Hs]. }
    pose proof (skip_ws_length r) as Hws.
    destruct (Ascii.eqb c "{").
    { destruct (expect "}" (skip_ws r)) as [rest |] eqn:He.
      - apply expect_length in He. split; [| discriminate].
        intros v rest' H. injection H as _ <-. cbn. lia.
      - destruct (IHm (skip_ws r) []) as [Hsh Hfu]. split.
        + intros v rest H. apply Hsh in H. cbn. lia.
        + intros Hlen. apply Hfu. cbn in Hlen. lia. }
    destruct (Ascii.eqb c "[").
    { destruct (expect "]" (skip_ws r)) as [rest |] eqn:He.
      - apply expect_length in He. split; [| discriminate].
        intros v rest' H. injection H as _ <-. cbn. lia.
      - destruct (IHe (skip_ws r) []) as [Hsh Hfu]. split.
        + intros v rest H. apply Hsh in H. cbn. lia.
        + intros Hlen. apply Hfu. cbn in Hlen. lia. }
    repeat match goal with
           | |- context [if String.prefix ?p ?t then _ else _] =>
               let Hp := fresh "Hp" in
               destruct (String.prefix p t) eqn:Hp;
               [apply prefix_length in Hp; cbn [String.length] in Hp;
                split; [| discriminate];
                intros v rest H;
                match type of H with
                | Scanned _ ?x = _ =>
                    assert (Hr : x = rest) by congruence; rewrite <- Hr
                end;
                rewrite drop_length; cbn [String.length]; lia |]
           end.
    split.
    + intros v rest H. now apply scan_number_shorter in H.
    + intros _. unfold scan_number.
      destruct (scan_sign _) as [neg s1].
      destruct (scan_int_part s1) as [ip s2].
      destruct (is_empty ip); [discriminate |].
      destruct (scan_frac s2) as [fp s3].
      destruct (scan_exp s3) as [ex s4].
      destruct (is_empty fp), ex; discriminate.
  - intros s acc. cbn [scan_members].
    destruct (expect dquote s) as [r |] eqn:Hq; [| split; discriminate].
    apply expect_length in Hq.
    destruct (scanstring (S (String.length r)) r "") as [key r1 | |] eqn:Hs;
      [| split; discriminate |].
    2:{ exfalso. apply (@scanstring_has_fuel (S (String.length r)) r "");
          [lia | exact Hs]. }
    apply scanstring_shorter in Hs.
    pose proof (skip_ws_length r1) as Hw1.
    destruct (expect ":" (skip_ws r1)) as [r2 |] eqn:Hc; [| split; discriminate].
    apply expect_length in Hc.
    pose proof (skip_ws_length r2) as Hw2.
    destruct (IHo (skip_ws r2)) as [Hsh Hfu].
    destruct (scan_once fuel (skip_ws r2)) as [v r3 | |] eqn:Hv;
      [| split; discriminate |].
    2:{ split; [discriminate |]. intros Hlen _. apply Hfu; [lia | reflexivity]. }
    specialize (Hsh _ _ eq_refl).
    pose proof (skip_ws_length r3) as Hw3.
    destruct (expect "}" (skip_ws r3)) as [rest |] eqn:Hb.
    + apply expect_length in Hb. split; [| discriminate].
      intros v' rest' H. injection H as _ <-. lia.
    + destruct (expect "," (skip_ws r3)) as [r4 |] eqn:Hk;
        [| split; discriminate].
      apply expect_length in Hk.
      pose proof (skip_ws_length r4) as Hw4.
      destruct (IHm (skip_ws r4) ((key, v) :: acc)) as [Hsh' Hfu']. split.
      * intros v' rest' H. apply Hsh' in H. lia.
      * intros Hlen. apply Hfu'. lia.
  - intros s acc. cbn [scan_elements].
    destruct (IHo s) as [Hsh Hfu].
    destruct (scan_once fuel s) as [v r1 | |] eqn:Hv; [| split; discriminate |].
    2:{ split; [discriminate |]. intros Hlen _. apply Hfu; [lia | reflexivity]. }
    specialize (Hsh _ _ eq_refl).
    pose proof (skip_ws_length r1) as Hw1.
    destruct (expect "]" (skip_ws r1)) as [rest |] eqn:Hb.
    + apply expect_length in Hb. split; [| discriminate].
      intros v' rest' H. injection H as _ <-. lia.
    + destruct (expect "," (skip_ws r1)) as [r2 |] eqn:Hk;
        [| split; discriminate].
      apply expect_length in Hk.
      pose proof (skip_ws_length r2) as Hw2.
      destruct (IHe (skip_ws r2) (v :: acc)) as [Hsh' Hfu']. split.
      * intros v' rest' H. apply Hsh' in H. lia.
      * intros Hlen. apply Hfu'. lia.
Qed.

(** [loads] gives its scanner enough fuel: an error it reports is a syntax
    error. *)
Lemma loads_has_fuel (s : string) :
  scan_once (fuel_for (skip_ws s)) (skip_ws s) <> NoFuel.
Proof.
  apply (proj1 (scanners_sound (fuel_for (skip_ws s)))).
  unfold fuel_for. lia.
Qed.

End JsonFacts.

(** ** The runtime fragment on known values *)

Module RuntimeExamples.

Import F64 Json Builtins Bedrock.
Local Open Scope string_scope.

(** [float("0.1")] is [0x1.999999999999ap-4]. *)
Example tenth : of_decimal false 1 (-1) = S754_finite false 0x1999999999999a (-56).
Proof. reflexivity. Qed.

(** [1 / 3] is [0x1.5555555555555p-2]. *)
Example third : int_truediv 1 3 = Ok (S754_finite false 0x15555555555555 (-54)).
Proof. reflexivity. Qed.

(** [float(2**53 + 1)] rounds to even, [2.0**53]. *)
Example ties_to_even : of_int (2 ^ 53 + 1) = Ok (S754_finite false (2 ^ 52) 1).
Proof. reflexivity. Qed.

(** [float(10**400)] and [10**400 / 1] raise; [10**400 / 10**399] is 10.0. *)
Example too_large :
  of_int (10 ^ 400) = Raise Py.OverflowError
  /\ int_truediv (10 ^ 400) 1 = Raise Py.OverflowError
  /\ int_truediv (10 ^ 400) (10 ^ 399) = Ok ten.
Proof. repeat split; vm_compute; reflexivity. Qed.

(** [float] of a [str]. *)
Example float_texts :
  float_of_str " 1_000.5 " = Ok (of_decimal false 10005 (-1))
  /\ float_of_str "-iNf" = Ok (S754_infinity true)
  /\ float_of_str "1e" = Raise Py.ValueError
  /\ float_of_str "1__0" = Raise Py.ValueError.
Proof. repeat split; vm_compute; reflexivity. Qed.

(** A later duplicate key replaces the value at the key's first position;
    an escape yields the UTF-8 bytes of its character. *)
Example loads_object :
  loads (dq "{'a': [1, 2.5, null, true], 'a': 'x\u00e9\n', 'b': -0.0}") =
  Ok (JObj [("a", JStr (String "x" (String (Py.chr 195) (String (Py.chr 169)
                         (String (Py.chr 10) EmptyString)))));
            ("b", JFloat (S754_zero true))]).
Proof. vm_compute. reflexivity. Qed.

Example loads_rejects :
  loads (dq "{'a': 1,}") = Raise Py.JSONDecodeError
  /\ loads "[1 2]" = Raise Py.JSONDecodeError
  /\ loads (dq "{'a': 01}") = Raise Py.JSONDecodeError
  /\ loads "" = Raise Py.JSONDecodeError.
Proof. repeat split; vm_compute; reflexivity. Qed.

(** The slice from the first [{] to the last [}]. *)
Example extract_json_cases :
  extract_json (dq "Here is the analysis: {'risk_score': 3} Done.")
    = dq "{'risk_score': 3}"
  /\ extract_json "no braces" = ""
  /\ extract_json "} then {" = "".
Proof. repeat split; vm_compute; reflexivity. Qed.

End RuntimeExamples.

(** ** The reply of the reasoning service: what is read from it *)

Module ReplyFacts.

Import F64 Json Builtins Model Bedrock Results Insights.
Local Open Scope string_scope.

(** *** [find], [rfind] and slices *)

Lemma find_from_none (c : ascii) (s : string) :
  has_char c s = false -> forall k, Py.find_from c s k = (-1)%Z.
Proof.
  induction s as [| a r IH]; cbn [has_char Py.find_from]; intros H k.
  - reflexivity.
  - apply orb_false_iff in H as [Ha Hr]. rewrite Ha. now apply IH.
Qed.

Lemma find_from_app (c : ascii) (p q : string) :
  has_char c p = false ->
  forall k, Py.find_from c (p ++ String c q) k = (k + Z.of_nat (String.length p))%Z.
Proof.
  induction p as [| a p IH];
    cbn [has_char Py.find_from String.append String.length]; intros H k.
  - rewrite Ascii.eqb_refl. cbn. lia.
  - apply orb_false_iff in H as [Ha Hp]. rewrite Ha, IH by assumption.
    rewrite Nat2Z.inj_succ. lia.
Qed.

Lemma rfind_from_none (c : ascii) (s : string) :
  has_char c s = false -> forall k last, Py.rfind_from c s k last = last.
Proof.
  induction s as [| a r IH]; cbn [has_char Py.rfind_from]; intros H k last.
  - reflexivity.
  - apply orb_false_iff in H as [Ha Hr]. rewrite Ha. now apply IH.
Qed.

Lemma rfind_from_app (c : ascii) (p q : string) :
  has_char c q = false ->
  forall k last,
    Py.rfind_from c (p ++ String c q) k last = (k + Z.of_nat (String.length p))%Z.
Proof.
  intros Hq.
  induction p as [| a p IH];
    cbn [Py.rfind_from String.append String.length]; intros k last.
  - rewrite Ascii.eqb_refl, rfind_from_none by assumption. cbn. lia.
  - rewrite IH, Nat2Z.inj_succ. lia.
Qed.

Lemma split_first (c : ascii) (s : string) :
  has_char c s = true ->
  exists p q, s = p ++ String c q /\ has_char c p = false.
Proof.
  induction s as [| a r IH]; cbn [has_char]; intros H; [discriminate |].
  destruct (Ascii.eqb a c) eqn:Ha.
  - apply Ascii.eqb_eq in Ha as ->. now exists "", r.
  - destruct (IH H) as (p & q & -> & Hp).
    exists (String a p), q. cbn [has_char String.append]. now rewrite Ha.
Qed.

Lemma split_last (c : ascii) (s : string) :
  has_char c s = true ->
  exists p q, s = p ++ String c q /\ has_char c q = false.
Proof.
  induction s as [| a r IH]; cbn [has_char]; intros H; [discriminate |].
  destruct (has_char c r) eqn:Hr.
  - destruct (IH eq_refl) as (p & q & -> & Hq). now exists (String a p), q.
  - rewrite orb_false_r in H. apply Ascii.eqb_eq in H as ->. now exists "", r.
Qed.

Lemma has_char_app (c : ascii) (s t : string) :
  has_char c (s ++ t) = has_char c s || has_char c t.
Proof.
  induction s as [| a s IH]; cbn [has_char String.append]; [reflexivity |].
  now rewrite IH, orb_assoc.
Qed.

Lemma substring_nothing (n : nat) (s : string) : substring n 0 s = "".
Proof.
  revert n. induction s as [| a s IH]; intros [| n]; cbn; auto.
Qed.

Lemma substring_skip (p s : string) (n : nat) :
  substring (String.length p) n (p ++ s) = substring 0 n s.
Proof.
  induction p as [| a p IH]; cbn [String.length String.append substring];
    [reflexivity | exact IH].
Qed.

Lemma substring_whole (b q : string) :
  substring 0 (String.length b) (b ++ q) = b.
Proof.
  induction b as [| a b IH]; cbn [String.length String.append substring].
  - destruct q; reflexivity.
  - now rewrite IH.
Qed.

Lemma length_append (s t : string) :
  String.length (s ++ t) = String.length s + String.length t.
Proof.
  induction s as [| a s IH]; cbn [String.length String.append]; [reflexivity |].
  now rewrite IH.
Qed.

(** The slice that starts where [s] starts inside [p ++ s]. *)
Lemma slice_skip (p s : string) (j : Z) :
  Py.slice (p ++ s) (Z.of_nat (String.length p)) j =
  substring 0
    (Z.to_nat (Py.slice_index (Py.len (p ++ s)) j - Z.of_nat (String.length p)))
    s.
Proof.
  unfold Py.slice.
  assert (Hlo : Py.slice_index (Py.len (p ++ s)) (Z.of_nat (String.length p))
                = Z.of_nat (String.length p)).
  { unfold Py.slice_index, Py.len. rewrite length_append.
    destruct (Z.ltb_spec (Z.of_nat (String.length p)) 0); lia. }
  cbv zeta. rewrite Hlo, Nat2Z.id. apply substring_skip.
Qed.

(** *** The text handed to the decoder *)

(** The extracted text is empty, a lone closing brace, or starts with the
    opening brace. *)
Lemma extract_json_shape (response : string) :
  extract_json response = ""
  \/ extract_json response = "}"
  \/ exists t, extract_json response = String "{" t.
Proof.
  unfold extract_json, Py.find, Py.rfind.
  destruct (has_char "{" response) eqn:Ho.
  - destruct (split_first _ _ Ho) as (p & q & -> & Hp).
    rewrite find_from_app by assumption. rewrite Z.add_0_l, slice_skip.
    match goal with |- context [substring 0 ?n _] => destruct n as [| m] end.
    + left. reflexivity.
    + right; right. cbn [substring]. eauto.
  - rewrite find_from_none by assumption.
    destruct (has_char "}" response) eqn:Hc.
    + destruct (split_last _ _ Hc) as (p & q & -> & Hq).
      rewrite rfind_from_app by assumption. rewrite Z.add_0_l.
      unfold Py.slice, Py.slice_index, Py.len. rewrite length_append.
      cbv zeta. change (-1 <? 0)%Z with true. cbv iota.
      destruct (Z.ltb_spec (Z.of_nat (String.length p) + 1) 0) as [Hn | _];
        [lia |].
      destruct q as [| b q]; cbn [String.length].
      * right; left.
        match goal with
        | |- substring ?m ?n _ = _ =>
            replace m with (String.length p) by lia; replace n with 1 by lia
        end.
        rewrite substring_skip. reflexivity.
      * left.
        match goal with
        | |- substring _ ?n _ = _ => replace n with 0 by lia
        end.
        apply substring_nothing.
    + left. rewrite rfind_from_none by assumption.
      unfold Py.slice, Py.slice_index, Py.len. cbv zeta.
      match goal with
      | |- substring _ ?n _ = _ => replace n with 0
      end.
      { apply substring_nothing. }
      cbn. lia.
Qed.






(** With no opening brace, or no closing brace, nothing is decoded. *)
Lemma no_brace_no_object (response : string) :
  has_char "{" response = false \/ has_char "}" response = false ->
  loads (extract_json response) = Raise JSONDecodeError.
Proof.
  intros H.
  assert (Hs : extract_json response = "" \/ extract_json response = "}").
  { destruct (has_char "{" response) eqn:Ho.
    - destruct H as [H | Hc]; [discriminate |].
      left. unfold extract_json, Py.find, Py.rfind.
      destruct (split_first _ _ Ho) as (p & q & -> & Hp).
      rewrite find_from_app by assumption. rewrite Z.add_0_l, slice_skip.
      rewrite rfind_from_none by assumption.
      change (-1 + 1)%Z with 0%Z. unfold Py.slice_index.
      change (0 <? 0)%Z with false. cbv iota.
      match goal with
      | |- substring 0 ?n _ = _ => replace n with 0
      end.
      { apply substring_nothing. }
      unfold Py.len. lia.
    - destruct (extract_json_shape response) as [E | [E | [t E]]]; auto.
      exfalso.
      assert (Hin : has_char "{" (extract_json response) = true)
        by (rewrite E; reflexivity).
      clear E. revert Hin. unfold extract_json, Py.slice. cbv zeta.
      generalize (Z.to_nat (Py.slice_index (Py.len response)
                                           (Py.find "{" response))).
      generalize (Z.to_nat
                    (Py.slice_index (Py.len response)
                                    (Py.rfind "}" response + 1)
                     - Py.slice_index (Py.len response) (Py.find "{" response))).
      clear H. induction response as [| a r IH]; intros n m.
      + destruct m, n; cbn; discriminate.
      + cbn [has_char] in Ho. apply orb_false_iff in Ho as [Ha Hr].
        destruct m as [| m]; cbn [substring].
        * destruct n as [| n]; cbn [has_char]; [discriminate |].
          rewrite Ha. cbn [orb]. apply (IH Hr n 0).
        * apply (IH Hr n m). }
  destruct Hs as [-> | ->]; reflexivity.
Qed.

(** X3.  A reply without an opening brace, or without a closing brace,
    yields the default risk record and the default insights. *)
Theorem reply_without_braces_is_default (response : string) :
  has_char "{" response = false \/ has_char "}" response = false ->
  _parse_security_analysis response = _create_default_security_analysis
  /\ _parse_comparison_insights response = _create_default_comparison_insights.
Proof.
  intros H. apply no_brace_no_object in H.
  unfold _parse_security_analysis, parse_security_analysis_try,
    _parse_comparison_insights, parse_comparison_insights_try.
  rewrite H. split; reflexivity.
Qed.

Lemma reply_without_braces_is_default_witness :
  (has_char "{" "I cannot assess this model." = false
   \/ has_char "}" "I cannot assess this model." = false)
  /\ _parse_security_analysis "I cannot assess this model."
     = _create_default_security_analysis
  /\ _parse_comparison_insights "I cannot assess this model."
     = _create_default_comparison_insights.
Proof.
  split; [left; reflexivity |].
  apply reply_without_braces_is_default. left. reflexivity.
Defined.

Lemma endswith_split (s suffix : string) :
  Py.endswith s suffix = true -> exists p, s = p ++ suffix.
Proof.
  induction s as [| a s IH]; cbn [Py.endswith]; intros H.
  - rewrite orb_false_r in H. apply String.eqb_eq in H as <-. now exists "".
  - apply orb_true_iff in H as [H | H].
    + apply String.eqb_eq in H as <-. now exists "".
    + destruct (IH H) as [p ->]. now exists (String a p).
Qed.

Lemma append_assoc (a b c : string) : (a ++ b) ++ c = a ++ (b ++ c).
Proof.
  induction a as [| x a IH]; cbn [String.append]; [reflexivity | now rewrite IH].
Qed.

(** The object is cut out of the prose around it. *)
Lemma extract_json_braced (pre body post : string) :
  has_char "{" pre = false ->
  has_char "}" post = false ->
  braced body = true ->
  extract_json (pre ++ body ++ post) = body.
Proof.
  intros Hpre Hpost Hb. unfold braced in Hb.
  apply andb_true_iff in Hb as [Hopen Hclose].
  destruct body as [| c b]; [discriminate |].
  cbn [String.prefix] in Hopen.
  destruct (ascii_dec "{" c) as [<- |]; [| discriminate]. clear Hopen.
  destruct (endswith_split _ _ Hclose) as [p Hp].
  unfold extract_json, Py.find, Py.rfind.
  cbn [String.append].
  rewrite find_from_app by assumption. rewrite Z.add_0_l, slice_skip.
  change (String "{" (b ++ post)) with (String "{" b ++ post).
  rewrite Hp.
  replace (pre ++ (p ++ "}") ++ post) with ((pre ++ p) ++ String "}" post).
  2:{ rewrite !append_assoc. reflexivity. }
  rewrite rfind_from_app by assumption. rewrite Z.add_0_l.
  match goal with
  | |- substring 0 ?n _ = _ => replace n with (String.length (p ++ "}"))
  end.
  { apply substring_whole. }
  unfold Py.slice_index, Py.len. rewrite !length_append. cbn [String.length].
  destruct (Z.ltb_spec (Z.of_nat (String.length pre + String.length p) + 1) 0); lia.
Qed.

(** X4.  Prose around the object is ignored: when a text that starts with
    an opening brace and ends with a closing brace is preceded by text
    without an opening brace and followed by text without a closing brace,
    both parsers return what they return for the bare text. *)
Theorem prose_around_object_is_ignored (pre body post : string) :
  has_char "{" pre = false ->
  has_char "}" post = false ->
  braced body = true ->
  extract_json (pre ++ body ++ post) = body
  /\ _parse_security_analysis (pre ++ body ++ post) = _parse_security_analysis body
  /\ _parse_comparison_insights (pre ++ body ++ post)
     = _parse_comparison_insights body.
Proof.
  intros Hpre Hpost Hb.
  pose proof (extract_json_braced pre body post Hpre Hpost Hb) as E.
  pose proof (extract_json_braced "" body "" eq_refl eq_refl Hb) as E0.
  cbn [String.append] in E0.
  replace (body ++ "") with body in E0.
  2:{ clear. induction body as [| a b IH]; cbn; [reflexivity | now rewrite <- IH]. }
  split; [exact E |].
  unfold _parse_security_analysis, parse_security_analysis_try,
    _parse_comparison_insights, parse_comparison_insights_try.
  rewrite E, E0. split; reflexivity.
Qed.

Lemma prose_around_object_is_ignored_witness :
  has_char "{" "Here is my assessment: " = false
  /\ has_char "}" " Let me know if you need more." = false
  /\ braced (dq "{'risk_score': 7.5, 'risk_level': 'HIGH'}") = true
  /\ _parse_security_analysis
       ("Here is my assessment: "
        ++ dq "{'risk_score': 7.5, 'risk_level': 'HIGH'}"
        ++ " Let me know if you need more.")
     = _parse_security_analysis (dq "{'risk_score': 7.5, 'risk_level': 'HIGH'}").
Proof.
  split; [reflexivity |]. split; [reflexivity |]. split; [reflexivity |].
  apply (prose_around_object_is_ignored
           "Here is my assessment: "
           (dq "{'risk_score': 7.5, 'risk_level': 'HIGH'}")
           " Let me know if you need more."); reflexivity.
Defined.

End ReplyFacts.

(** ** The comparison engine: keys, extremes, licenses and dependencies *)

Module ComparisonFacts.

Import F64 Json Builtins Model Engine Samples DictFacts EngineFacts Vocabulary.
Local Open Scope string_scope.

(** *** The keys of the per-model maps *)

Lemma keys_sset (V : Type) (d : sdict V) (k : string) (v : V) :
  Py.keys (sset d k v) = add_key (Py.keys d) k.
Proof.
  unfold sset, add_key, Py.keys.
  induction d as [| [k' v'] d IH]; cbn [Py.set map existsb fst].
  - reflexivity.
  - destruct (String.eqb k' k); cbn [orb map fst]; [reflexivity |].
    rewrite IH. destruct (existsb _ _); reflexivity.
Qed.

Lemma keys_fold (A V : Type) (kf : A -> string) (vf : A -> V) (xs : list A) :
  forall acc : sdict V,
    Py.keys (fold_left (fun d x => sset d (kf x) (vf x)) xs acc) =
    fold_left add_key (map kf xs) (Py.keys acc).
Proof.
  induction xs as [| x xs IH]; intros acc; cbn [fold_left map]; [reflexivity |].
  now rewrite IH, keys_sset.
Qed.

Lemma existsb_eqb_In (k : string) (ks : list string) :
  existsb (fun k' => String.eqb k' k) ks = true <-> In k ks.
Proof.
  rewrite existsb_exists. split.
  - intros (x & Hx & E). apply String.eqb_eq in E. now subst.
  - intros H. exists k. split; [assumption | apply String.eqb_refl].
Qed.

Lemma add_key_In (ks : list string) (k n : string) :
  In n (add_key ks k) <-> In n ks \/ n = k.
Proof.
  unfold add_key. destruct (existsb _ ks) eqn:E.
  - apply existsb_eqb_In in E. split; [auto |]. intros [H | ->]; assumption.
  - rewrite in_app_iff. cbn. intuition.
Qed.

Lemma add_key_NoDup (ks : list string) (k : string) :
  NoDup ks -> NoDup (add_key ks k).
Proof.
  intros H. unfold add_key. destruct (existsb _ ks) eqn:E; [assumption |].
  apply NoDup_app; [assumption | repeat constructor; intros [] | ].
  intros x Hx [<- | []].
  apply existsb_eqb_In in Hx. congruence.
Qed.

Lemma fold_add_key_In (l : list string) (n : string) :
  forall acc, In n (fold_left add_key l acc) <-> In n acc \/ In n l.
Proof.
  induction l as [| k l IH]; intros acc; cbn [fold_left In]; [intuition |].
  rewrite IH, add_key_In. intuition.
Qed.

Lemma fold_add_key_NoDup (l : list string) :
  forall acc, NoDup acc -> NoDup (fold_left add_key l acc).
Proof.
  induction l as [| k l IH]; intros acc H; cbn [fold_left]; [assumption |].
  apply IH, add_key_NoDup, H.
Qed.

Lemma fold_add_key_distinct (l : list string) :
  forall acc, NoDup (acc ++ l) -> fold_left add_key l acc = (acc ++ l)%list.
Proof.
  induction l as [| k l IH]; intros acc H; cbn [fold_left].
  - now rewrite app_nil_r.
  - assert (Hk : existsb (fun k' => String.eqb k' k) acc = false).
    { destruct (existsb _ acc) eqn:E; [| reflexivity].
      apply existsb_eqb_In in E. apply NoDup_remove_2 in H.
      exfalso. apply H. apply in_or_app. now left. }
    unfold add_key at 2. rewrite Hk.
    rewrite IH; rewrite <- app_assoc; [reflexivity | exact H].
Qed.

Lemma model_order_NoDup (results : list AnalysisResult) :
  NoDup (model_order results).
Proof. apply fold_add_key_NoDup. constructor. Qed.

Lemma model_order_In (results : list AnalysisResult) (n : string) :
  In n (model_order results) <-> In n (map model_name results).
Proof. unfold model_order. rewrite fold_add_key_In. cbn. intuition. Qed.

Lemma extract_keys (results : list AnalysisResult) :
  Py.keys (_extract_all_components results) = model_order results.
Proof. unfold _extract_all_components. now rewrite keys_fold. Qed.

Lemma security_loop_keys (results : list AnalysisResult) :
  forall acc acc',
    security_loop results acc = Ok acc' ->
    Py.keys (acc_scores acc')
    = fold_left add_key (map model_name results) (Py.keys (acc_scores acc))
    /\ Py.keys (acc_levels acc')
       = fold_left add_key (map model_name results) (Py.keys (acc_levels acc))
    /\ Py.keys (acc_vulns acc')
       = fold_left add_key (map model_name results) (Py.keys (acc_vulns acc))
    /\ Py.keys (acc_issues acc')
       = fold_left add_key (map model_name results) (Py.keys (acc_issues acc)).
Proof.
  induction results as [| r rest IH]; intros acc acc'; cbn [security_loop].
  - intros H. injection H as <-. repeat split; reflexivity.
  - destruct (py_len (sa_vulnerabilities (security_analysis r))) as [nv |];
      [| discriminate].
    destruct (py_len (compliance_issues (security_analysis r))) as [ni |];
      [| discriminate].
    cbn [Py.bind]. intros H. apply IH in H. cbn [acc_scores acc_levels
      acc_vulns acc_issues] in H. rewrite !keys_sset in H.
    cbn [map fold_left]. exact H.
Qed.

Lemma deps_loop_keys (results : list AnalysisResult) :
  forall by_model all_deps bd,
    deps_loop results by_model all_deps = Ok bd ->
    Py.keys (fst bd)
    = fold_left add_key (map model_name results) (Py.keys by_model).
Proof.
  induction results as [| r rest IH]; intros by_model all_deps bd;
    cbn [deps_loop].
  - intros H. injection H as <-. reflexivity.
  - destruct (by_name (dependencies (aibom r)) []) as [d |]; [| discriminate].
    cbn [Py.bind]. intros H. apply IH in H. rewrite keys_sset in H.
    cbn [map fold_left]. exact H.
Qed.

Lemma unique_keys (d : sdict (list entry)) (u : sdict (list entry)) :
  NoDup (Py.keys d) ->
  _find_unique_components d = Ok u -> Py.keys u = Py.keys d.
Proof.
  intros Hd. unfold _find_unique_components.
  destruct (collect_names d []) as [names |]; [| discriminate].
  cbn [Py.bind]. intros H. injection H as <-.
  rewrite keys_fold. unfold Py.keys at 2. cbn [map].
  apply (fold_add_key_distinct (Py.keys d) []). exact Hd.
Qed.

(** The six steps of [compare_models], when it returns. *)
Lemma compare_models_parts (results : list AnalysisResult)
    (comparison : ModelComparison) :
  compare_models results = Ok comparison ->
  common_of results = Ok (common_components comparison)
  /\ unique_of results = Ok (unique_components comparison)
  /\ _compare_security results = Ok (security_comparison comparison)
  /\ license_comparison comparison = _compare_licenses results
  /\ _compare_sizes results = Ok (size_comparison comparison)
  /\ _analyze_dependencies results = Ok (dependency_analysis comparison).
Proof.
  unfold compare_models, common_of, unique_of.
  destruct (_find_common_components _) as [c |]; [| discriminate].
  destruct (_find_unique_components _) as [u |]; [| discriminate].
  destruct (_compare_security results) as [s |]; [| discriminate].
  destruct (_compare_sizes results) as [z |]; [| discriminate].
  destruct (_analyze_dependencies results) as [a |]; [| discriminate].
  cbn [Py.bind]. intros H. injection H as <-. repeat split; reflexivity.
Qed.

(** X5.  In a comparison that returns, the eight per-model maps (unique
    components, risk scores, risk levels, vulnerability counts, compliance
    counts, licenses, sizes and dependencies) all have the same keys: the
    model names of the results, each once, in the order of their first
    occurrence. *)
Theorem per_model_maps_share_keys (results : list AnalysisResult)
    (comparison : ModelComparison) :
  compare_models results = Ok comparison ->
  NoDup (model_order results)
  /\ (forall n, In n (model_order results) <-> In n (map model_name results))
  /\ Py.keys (unique_components comparison) = model_order results
  /\ Py.keys (risk_scores (security_comparison comparison)) = model_order results
  /\ Py.keys (risk_levels (security_comparison comparison)) = model_order results
  /\ Py.keys (vulnerability_counts (security_comparison comparison))
     = model_order results
  /\ Py.keys (compliance_issue_counts (security_comparison comparison))
     = model_order results
  /\ Py.keys (licenses_by_model (license_comparison comparison))
     = model_order results
  /\ Py.keys (sizes_by_model (size_comparison comparison)) = model_order results
  /\ Py.keys (dependencies_by_model (dependency_analysis comparison))
     = model_order results.
Proof.
  intros H.
  destruct (@compare_models_parts _ _ H) as (_ & Hu & Hs & Hl & Hz & Hd).
  split; [apply model_order_NoDup |].
  split; [apply model_order_In |].
  split.
  { unfold unique_of in Hu. apply unique_keys in Hu.
    - now rewrite Hu, extract_keys.
    - rewrite extract_keys. apply model_order_NoDup. }
  unfold _compare_security in Hs.
  destruct (security_loop results _) as [acc |] eqn:Hloop; [| discriminate].
  cbn [Py.bind] in Hs. injection Hs as Hs.
  destruct (security_loop_keys _ _ Hloop) as (K1 & K2 & K3 & K4).
  rewrite <- Hs.
  cbn [risk_scores risk_levels vulnerability_counts compliance_issue_counts].
  repeat (split; [assumption |]).
  split.
  { rewrite Hl. unfold _compare_licenses. cbn [licenses_by_model].
    rewrite keys_fold, map_map. reflexivity. }
  split.
  { assert (Hsz : sizes_by_model (size_comparison comparison) = sizes_of results).
    { revert Hz. unfold _compare_sizes.
      destruct (valid_sizes_of results).
      - intros Hz; injection Hz as <-. reflexivity.
      - destruct (int_truediv _ _); [| discriminate].
        intros Hz; injection Hz as <-. reflexivity. }
    rewrite Hsz. unfold sizes_of. now rewrite keys_fold. }
  unfold _analyze_dependencies in Hd.
  destruct (deps_loop results [] []) as [bd |] eqn:Hdl; [| discriminate].
  cbn [Py.bind] in Hd. injection Hd as <-. cbn [dependencies_by_model].
  exact (deps_loop_keys _ _ _ Hdl).
Qed.

Lemma per_model_maps_share_keys_witness :
  model_order [model_m_old; model_a; model_m_new] = ["M"; "A"]
  /\ exists comparison,
       compare_models [model_m_old; model_a; model_m_new] = Ok comparison
       /\ Py.keys (unique_components comparison) = ["M"; "A"]
       /\ Py.keys (sizes_by_model (size_comparison comparison)) = ["M"; "A"].
Proof.
  split; [reflexivity |].
  destruct (compare_models [model_m_old; model_a; model_m_new])
    as [comparison |] eqn:H; [| vm_compute in H; discriminate].
  exists comparison. split; [reflexivity |].
  pose proof (@per_model_maps_share_keys _ _ H) as K.
  change (model_order [model_m_old; model_a; model_m_new]) with ["M"; "A"] in K.
  split; apply K.
Defined.

(** *** Common and unique components *)

Lemma names_hashable_of_dict (results : list AnalysisResult) :
  NoDup (map model_name results) ->
  dict_hashable (_extract_all_components results) = true ->
  names_hashable results = true.
Proof.
  intros Hnd. rewrite (extract_distinct _ Hnd).
  unfold dict_hashable, names_hashable, names_of.
  now rewrite forallb_map.
Qed.

(** Hashing succeeded wherever the component comparison returned. *)
Lemma unique_of_returned (results : list AnalysisResult)
    (u : sdict (list entry)) :
  NoDup (map model_name results) ->
  unique_of results = Ok u -> names_hashable results = true.
Proof.
  intros Hnd. unfold unique_of, _find_unique_components.
  destruct (collect_names _ []) as [names |] eqn:Hc; [| discriminate].
  intros _. apply names_hashable_of_dict; [assumption |].
  exact (collect_names_returned _ _ Hc).
Qed.

(** A name is the name of a common component exactly when every model has
    a component of that name. *)
Lemma common_names_spec (r : AnalysisResult) (rest : list AnalysisResult) :
  NoDup (map model_name (r :: rest)) ->
  names_hashable (r :: rest) = true ->
  exists common,
    common_of (r :: rest) = Ok common
    /\ forall n,
         name_in n (map comp_name common) = true <->
         forall r', In r' (r :: rest) -> name_in n (names_of r') = true.
Proof.
  intros Hnd Hh. rewrite (common_of_closed _ Hnd Hh).
  eexists. split; [reflexivity |].
  cbn [map common_closed Py.keys fst].
  set (names := model_name r :: map fst _).
  set (items := index_by_name (components (aibom r))).
  assert (Hitems : forall k v, In (k, v) items ->
                               In v (components (aibom r)) /\ comp_name v = k).
  { intros k v Hin. apply index_items in Hin. destruct Hin as [[] | H]. exact H. }
  assert (Hkeys : forall n, name_in n (Py.keys items) = name_in n (names_of r)).
  { intros n. unfold items, index_by_name. now rewrite index_names. }
  intros n. rewrite map_map. split.
  - intros Hin. apply existsb_exists in Hin. destruct Hin as [m [Hm He]].
    apply in_map_iff in Hm. destruct Hm as [[k v] [Hkv Hf]].
    apply filter_In in Hf. destruct Hf as [Hf Hp]. cbn [fst snd] in *.
    rewrite comp_name_annotate in Hkv.
    destruct (Hitems k v Hf) as [_ Hk]. rewrite Hk in Hkv. subst m.
    pose proof (key_eqb_hashable _ _ He) as Hnh.
    apply key_eqb_eq in He. subst k.
    intros r' [<- | Hr'].
    + rewrite <- Hkeys. apply In_name_in; [exact Hnh |].
      unfold Py.keys. change n with (fst (n, v)). now apply in_map.
    + revert r' Hr'. now apply in_every_results.
  - intros Hall.
    assert (Hfirst : name_in n (names_of r) = true) by (apply Hall; now left).
    rewrite <- Hkeys in Hfirst.
    pose proof (name_in_hashable _ _ Hfirst) as Hnh.
    apply name_in_In in Hfirst. unfold Py.keys in Hfirst.
    apply in_map_iff in Hfirst. destruct Hfirst as [[k v] [Hk Hin]].
    cbn [fst] in Hk. subst k.
    apply existsb_exists. exists (comp_name (annotate v names)). split.
    + apply in_map_iff. exists (n, v). split; [reflexivity |].
      apply filter_In. split; [exact Hin |]. apply in_every_results.
      intros r' Hr'. apply Hall. now right.
    + rewrite comp_name_annotate. destruct (Hitems n v Hin) as [_ ->].
      now apply key_eqb_refl.
Qed.

Lemma elsewhere_false (results : list AnalysisResult) (r r' : AnalysisResult)
    (c : entry) :
  elsewhere results r c = false ->
  In r' results -> model_name r' <> model_name r ->
  name_in (comp_name c) (names_of r') = false.
Proof.
  unfold elsewhere. intros H Hin Hne.
  destruct (name_in (comp_name c) (names_of r')) eqn:E; [| reflexivity].
  assert (Ht : existsb
                 (fun r' => negb (String.eqb (model_name r') (model_name r))
                            && name_in (comp_name c) (names_of r')) results
               = true).
  { apply existsb_exists. exists r'. split; [assumption |].
    rewrite E, andb_true_r. apply negb_true_iff.
    now apply String.eqb_neq. }
  congruence.
Qed.

(** Among two or more models with distinct names, each model has a peer
    of another name. *)
Lemma other_model (results : list AnalysisResult) (r : AnalysisResult) :
  NoDup (map model_name results) -> 2 <= List.length results ->
  In r results ->
  exists r', In r' results /\ model_name r' <> model_name r.
Proof.
  intros Hnd Hlen Hin.
  destruct results as [| a [| b rest]]; cbn in Hlen; try lia.
  cbn [map] in Hnd.
  assert (Hab : model_name a <> model_name b).
  { inversion Hnd as [| ? ? Hna _]. intros E. apply Hna. left. now rewrite E. }
  destruct (string_dec (model_name a) (model_name r)) as [E | E].
  - exists b. split; [right; now left |]. congruence.
  - exists a. split; [now left | assumption].
Qed.

(** X6.  Among two or more models with distinct names, no component name
    is both common and unique: a component listed as unique to a model never
    has the name of a common component. *)
Theorem common_and_unique_are_disjoint (results : list AnalysisResult)
    (comparison : ModelComparison) :
  NoDup (map model_name results) ->
  2 <= List.length results ->
  compare_models results = Ok comparison ->
  Forall (fun c =>
            Forall (fun ml =>
                      Forall (fun u => comp_name u <> comp_name c) (snd ml))
                   (unique_components comparison))
         (common_components comparison).
Proof.
  intros Hnd Hlen H.
  destruct (@compare_models_parts _ _ H) as (Hc & Hu & _).
  pose proof (@unique_of_returned _ _ Hnd Hu) as Hh.
  assert (Hu' : unique_components comparison =
                map (fun r => (model_name r,
                               filter (fun c => negb (elsewhere results r c))
                                      (components (aibom r)))) results).
  { rewrite (unique_of_closed _ Hnd Hh) in Hu. congruence. }
  apply Forall_forall. intros c Hcin.
  apply Forall_forall. intros [m l] Hml.
  apply Forall_forall. intros u Huin E. cbn [snd] in Huin.
  rewrite Hu' in Hml. apply in_map_iff in Hml.
  destruct Hml as (r0 & Heq & Hr0). injection Heq as <- <-.
  apply filter_In in Huin. destruct Huin as [_ Hel].
  apply negb_true_iff in Hel.
  destruct (@other_model _ r0 Hnd Hlen Hr0) as (r' & Hr' & Hne).
  pose proof (@elsewhere_false _ _ _ _ Hel Hr' Hne) as Hfalse.
  assert (Hch : hashable (comp_name c) = true).
  { assert (Hd : dict_hashable (_extract_all_components results) = true)
      by now apply extract_hashable.
    unfold common_of in Hc. rewrite (find_common_closed _ Hd) in Hc.
    assert (Hc0 : common_components comparison
                  = common_closed (_extract_all_components results))
      by congruence.
    rewrite Hc0 in Hcin. clear Hc Hc0. rewrite (extract_distinct _ Hnd) in Hcin.
    destruct results as [| r rest]; [destruct Hcin |].
    cbn [map common_closed] in Hcin.
    apply in_map_iff in Hcin. destruct Hcin as ([k v] & <- & Hf).
    apply filter_In in Hf. destruct Hf as [Hf _].
    apply index_items in Hf. destruct Hf as [[] | [Hv Hk]].
    cbn [snd]. rewrite comp_name_annotate.
    unfold names_hashable in Hh. cbn [forallb] in Hh.
    apply andb_true_iff in Hh as [Hh _].
    rewrite forallb_forall in Hh. apply Hh. unfold names_of. now apply in_map. }
  destruct results as [| r rest]; [cbn in Hlen; lia |].
  destruct (@common_names_spec r rest Hnd Hh) as (common & Hc' & Hspec).
  assert (Hcc : common = common_components comparison) by congruence.
  subst common.
  assert (Hn : name_in (comp_name c) (map comp_name (common_components comparison))
               = true).
  { apply existsb_exists. exists (comp_name c). split; [now apply in_map |].
    now apply key_eqb_refl. }
  pose proof (proj1 (Hspec _) Hn r' Hr') as Hin. rewrite <- E in Hin. congruence.
Qed.



Lemma common_and_unique_are_disjoint_witness :
  NoDup (map model_name [model_a; model_hundred])
  /\ 2 <= List.length [model_a; model_hundred]
  /\ exists comparison,
       compare_models [model_a; model_hundred] = Ok comparison
       /\ Forall (fun c =>
                    Forall (fun ml =>
                              Forall (fun u => comp_name u <> comp_name c) (snd ml))
                           (unique_components comparison))
                 (common_components comparison).
Proof.
  assert (Hnd : NoDup (map model_name [model_a; model_hundred]))
    by distinct_strings.
  split; [exact Hnd |]. split; [cbn; lia |].
  destruct (compare_models [model_a; model_hundred]) as [comparison |] eqn:H;
    [| vm_compute in H; discriminate].
  exists comparison. split; [reflexivity |].
  apply (@common_and_unique_are_disjoint _ _ Hnd); [cbn; lia | exact H].
Defined.

(** *** The first extreme element of a list *)

Section FirstExtreme.
Variables A K : Type.
Variable key : A -> K.
Variable ltb : K -> K -> bool.
Hypothesis ltb_irrefl : forall a, ltb a a = false.
Hypothesis ltb_trans :
  forall a b c, ltb a b = true -> ltb b c = true -> ltb a c = true.

Lemma extreme_fold (l : list A) :
  forall best,
    let m := fold_left (fun b y => if ltb (key b) (key y) then y else b) l best in
    In m (best :: l)
    /\ (m = best \/ ltb (key best) (key m) = true)
    /\ forall y, In y (best :: l) -> ltb (key m) (key y) = false.
Proof.
  induction l as [| a l IH]; intros best; cbn [fold_left].
  - split; [now left |]. split; [now left |].
    intros y [<- | []]. apply ltb_irrefl.
  - specialize (IH (if ltb (key best) (key a) then a else best)).
    cbv zeta in IH. destruct IH as (Hin & Hchain & Htop).
    set (m := fold_left _ l _) in *.
    destruct (ltb (key best) (key a)) eqn:E.
    + assert (Hbm : ltb (key best) (key m) = true).
      { destruct Hchain as [Hm | Ham]; [now rewrite Hm | exact (ltb_trans E Ham)]. }
      split; [now right |]. split; [now right |].
      intros y [<- | Hy]; [| now apply Htop].
      destruct (ltb (key m) (key best)) eqn:F; [| reflexivity].
      rewrite <- (ltb_irrefl (key best)). symmetry. exact (ltb_trans Hbm F).
    + split; [destruct Hin as [Hin | Hin]; [now left | now right; right] |].
      split; [exact Hchain |].
      intros y [<- | [<- | Hy]].
      * apply Htop. now left.
      * destruct (ltb (key m) (key a)) eqn:F; [| reflexivity].
        destruct Hchain as [Hm | Hbm].
        -- rewrite Hm in F. congruence.
        -- rewrite <- E. symmetry. exact (ltb_trans Hbm F).
      * apply Htop. now right.
Qed.

(** The element [max_by] returns is in the list, and no element has a
    strictly greater key. *)
Lemma max_by_top (l : list A) (m : A) :
  max_by key ltb l = Some m ->
  In m l /\ forall y, In y l -> ltb (key m) (key y) = false.
Proof.
  destruct l as [| x rest]; [discriminate |]. cbn [max_by].
  intros H. injection H as <-.
  destruct (extreme_fold rest x) as (Hin & _ & Htop). split; assumption.
Qed.

End FirstExtreme.

Lemma max_by_image (A B K : Type) (key : B -> K) (ltb : K -> K -> bool)
    (h : A -> B) (l : list A) :
  max_by key ltb (map h l) = option_map h (max_by (fun x => key (h x)) ltb l).
Proof.
  destruct l as [| x rest]; [reflexivity |]. cbn [map max_by option_map].
  f_equal. revert x. induction rest as [| y rest IH]; intros x; [reflexivity |].
  cbn [map fold_left]. rewrite <- IH. now destruct (ltb (key (h x)) (key (h y))).
Qed.

(** [min] is [max] for the converse order. *)
Lemma min_by_converse (A K : Type) (key : A -> K) (ltb : K -> K -> bool)
    (l : list A) :
  min_by key ltb l = max_by key (fun a b => ltb b a) l.
Proof. reflexivity. Qed.

(** *** The order of floats *)

Lemma ltb_irrefl (x : float) : F64.ltb x x = false.
Proof.
  unfold F64.ltb, SFltb. destruct x as [s | s | | s m e]; cbn; try reflexivity.
  - now destruct s.
  - destruct s; rewrite Z.compare_refl;
      change (Pos.compare_cont Eq m m) with (Pos.compare m m);
      now rewrite Pos.compare_refl.
Qed.

Lemma ltb_trans (x y z : float) :
  F64.ltb x y = true -> F64.ltb y z = true -> F64.ltb x z = true.
Proof.
  unfold F64.ltb, SFltb.
  destruct x as [sx | sx | | sx mx ex], y as [sy | sy | | sy my ey],
    z as [sz | sz | | sz mz ez];
    cbn [SFcompare];
    repeat match goal with s : bool |- _ => destruct s end;
    try discriminate; try reflexivity;
    change (Pos.compare_cont Eq) with Pos.compare;
    destruct (Z.compare_spec ex ey), (Z.compare_spec ey ez),
      (Z.compare_spec ex ez);
    try discriminate; try reflexivity; try lia;
    destruct (Pos.compare_spec mx my), (Pos.compare_spec my mz),
      (Pos.compare_spec mx mz);
    cbn [CompOpp]; try discriminate; try reflexivity; lia.
Qed.

Lemma gtb_trans (x y z : float) :
  F64.ltb y x = true -> F64.ltb z y = true -> F64.ltb z x = true.
Proof. intros H1 H2. exact (ltb_trans _ _ _ H2 H1). Qed.

(** *** [_compare_security] *)

Lemma security_loop_distinct (results : list AnalysisResult) :
  forall acc acc',
    security_loop results acc = Ok acc' ->
    (NoDup (Py.keys (acc_scores acc) ++ map model_name results) ->
     acc_scores acc' =
     (acc_scores acc ++ map (fun r => (model_name r, score_of r)) results)%list)
    /\ (NoDup (Py.keys (acc_vulns acc) ++ map model_name results) ->
        acc_vulns acc' =
        (acc_vulns acc ++ map (fun r => (model_name r, issue_count r)) results)%list)
    /\ (NoDup (Py.keys (acc_issues acc) ++ map model_name results) ->
        acc_issues acc' =
        (acc_issues acc ++ map (fun r => (model_name r, gap_count r)) results)%list).
Proof.
  induction results as [| r rest IH]; intros acc acc'; cbn [security_loop].
  - intros H. injection H as <-. cbn [map]. rewrite !app_nil_r. auto.
  - destruct (py_len (sa_vulnerabilities (security_analysis r))) as [nv |] eqn:Ev;
      [| discriminate].
    destruct (py_len (compliance_issues (security_analysis r))) as [ni |] eqn:Ei;
      [| discriminate].
    cbn [Py.bind]. intros H. apply IH in H.
    cbn [acc_scores acc_vulns acc_issues] in H.
    destruct H as (H1 & H2 & H3). cbn [map].
    unfold issue_count at 1, gap_count at 1. rewrite Ev, Ei.
    assert (Hstep : forall (V : Type) (d : sdict V) (v : V),
               NoDup (Py.keys d ++ model_name r :: map model_name rest) ->
               sset d (model_name r) v = (d ++ [(model_name r, v)])%list
               /\ NoDup (Py.keys (sset d (model_name r) v)
                         ++ map model_name rest)).
    { intros V d v Hnd.
      assert (Hfresh : ~ In (model_name r) (Py.keys d)).
      { apply NoDup_remove_2 in Hnd. intros Hin. apply Hnd.
        apply in_or_app. now left. }
      rewrite (@sset_fresh _ _ _ v Hfresh). split; [reflexivity |].
      unfold Py.keys. rewrite map_app, <- app_assoc. exact Hnd. }
    repeat split; intros Hnd.
    + destruct (Hstep _ _ (risk_score (security_analysis r)) Hnd) as [E Hnd'].
      rewrite (H1 Hnd'), E, <- app_assoc. reflexivity.
    + destruct (Hstep _ _ nv Hnd) as [E Hnd'].
      rewrite (H2 Hnd'), E, <- app_assoc. reflexivity.
    + destruct (Hstep _ _ ni Hnd) as [E Hnd'].
      rewrite (H3 Hnd'), E, <- app_assoc. reflexivity.
Qed.

(** The maps of a security comparison of models with distinct names. *)
Lemma compare_security_distinct (results : list AnalysisResult)
    (sc : SecurityComparison) :
  NoDup (map model_name results) ->
  _compare_security results = Ok sc ->
  risk_scores sc = map (fun r => (model_name r, score_of r)) results
  /\ vulnerability_counts sc = map (fun r => (model_name r, issue_count r)) results
  /\ compliance_issue_counts sc
     = map (fun r => (model_name r, gap_count r)) results
  /\ highest_risk_model sc = or_initial (max_by snd F64.ltb (risk_scores sc))
  /\ lowest_risk_model sc = or_initial (min_by snd F64.ltb (risk_scores sc)).
Proof.
  intros Hnd. unfold _compare_security.
  destruct (security_loop results _) as [acc |] eqn:Hloop; [| discriminate].
  cbn [Py.bind]. intros H. injection H as <-.
  cbn [risk_scores vulnerability_counts compliance_issue_counts
       highest_risk_model lowest_risk_model].
  destruct (security_loop_distinct _ _ Hloop) as (H1 & H2 & H3).
  cbn [acc_scores acc_vulns acc_issues Py.keys map app] in H1, H2, H3.
  rewrite (H1 Hnd), (H2 Hnd), (H3 Hnd). repeat split; reflexivity.
Qed.

(** X8.  In a security comparison of models with distinct names, the model
    named as the highest risk is one of the models and no model has a
    strictly greater score; the model named as the lowest risk is one of the
    models and no model has a strictly smaller score. *)
Theorem risk_extremes_are_extremes (results : list AnalysisResult)
    (sc : SecurityComparison) :
  NoDup (map model_name results) ->
  results <> [] ->
  _compare_security results = Ok sc ->
  (exists r, In r results
             /\ highest_risk_model sc = model_name r
             /\ Forall (fun r' => F64.ltb (score_of r) (score_of r') = false)
                       results)
  /\ (exists r, In r results
                /\ lowest_risk_model sc = model_name r
                /\ Forall (fun r' => F64.ltb (score_of r') (score_of r) = false)
                          results).
Proof.
  intros Hnd Hne H.
  destruct (@compare_security_distinct _ _ Hnd H) as (Hs & _ & _ & Hhi & Hlo).
  rewrite Hs in Hhi, Hlo. rewrite min_by_converse in Hlo.
  rewrite max_by_image in Hhi, Hlo. cbn [snd] in Hhi, Hlo.
  split.
  - destruct (max_by (fun x => score_of x) F64.ltb results) as [m |] eqn:Hm.
    + destruct (@max_by_top _ _ score_of F64.ltb ltb_irrefl ltb_trans _ _ Hm)
        as [Hin Htop].
      exists m. split; [exact Hin |]. split; [exact Hhi |].
      apply Forall_forall. exact Htop.
    + destruct results; [congruence | discriminate].
  - destruct (max_by (fun x => score_of x) (fun a b => F64.ltb b a) results)
      as [m |] eqn:Hm.
    + destruct (@max_by_top _ _ score_of (fun a b => F64.ltb b a)
                  ltb_irrefl gtb_trans _ _ Hm) as [Hin Htop].
      exists m. split; [exact Hin |]. split; [exact Hlo |].
      apply Forall_forall. exact Htop.
    + destruct results; [congruence | discriminate].
Qed.

Lemma risk_extremes_are_extremes_witness :
  NoDup (map model_name [model_a; model_b; model_c])
  /\ [model_a; model_b; model_c] <> []
  /\ exists sc,
       _compare_security [model_a; model_b; model_c] = Ok sc
       /\ exists r, In r [model_a; model_b; model_c]
                    /\ highest_risk_model sc = model_name r.
Proof.
  assert (Hnd : NoDup (map model_name [model_a; model_b; model_c]))
    by distinct_strings.
  split; [exact Hnd |]. split; [discriminate |].
  destruct (_compare_security [model_a; model_b; model_c]) as [sc |] eqn:H;
    [| vm_compute in H; discriminate].
  exists sc. split; [reflexivity |].
  destruct (@risk_extremes_are_extremes _ _ Hnd ltac:(discriminate) H)
    as [(r & Hin & Hhi & _) _].
  exists r. split; assumption.
Defined.

(** *** [_compare_licenses] *)

Lemma sget_sset_same (V : Type) (d : sdict V) (k : string) (v : V) :
  sget (sset d k v) k = Some v.
Proof.
  unfold sget, sset. induction d as [| [k' v'] d IH]; cbn [Py.set Py.get].
  - now rewrite String.eqb_refl.
  - destruct (String.eqb k' k) eqn:E; cbn [Py.get]; rewrite E; [reflexivity | exact IH].
Qed.

Lemma sget_In (V : Type) (d : sdict V) (k : string) (v : V) :
  sget d k = Some v -> In (k, v) d.
Proof.
  unfold sget. induction d as [| [k' v'] d IH]; cbn [Py.get]; [discriminate |].
  destruct (String.eqb_spec k' k) as [-> | _].
  - intros H. injection H as <-. now left.
  - intros H. right. now apply IH.
Qed.

Lemma In_sget (V : Type) (d : sdict V) (k : string) (v : V) :
  NoDup (Py.keys d) -> In (k, v) d -> sget d k = Some v.
Proof.
  unfold sget, Py.keys. induction d as [| [k' v'] d IH]; cbn [Py.get map fst In];
    intros Hnd Hin; [destruct Hin |].
  inversion Hnd as [| ? ? Hfresh Hnd']. subst.
  destruct Hin as [E | Hin].
  - injection E as -> ->. now rewrite String.eqb_refl.
  - destruct (String.eqb_spec k' k) as [-> | _].
    + exfalso. apply Hfresh. change k with (fst (k, v)). now apply in_map.
    + now apply IH.
Qed.

Lemma filter_map_swap (A B : Type) (f : B -> bool) (g : A -> B) (l : list A) :
  filter f (map g l) = map g (filter (fun x => f (g x)) l).
Proof.
  induction l as [| a l IH]; cbn [map filter]; [reflexivity |].
  destruct (f (g a)); cbn [map]; now rewrite IH.
Qed.

Lemma NoDup_keys_filter (V : Type) (f : string * V -> bool) (d : sdict V) :
  NoDup (map fst d) -> NoDup (map fst (filter f d)).
Proof.
  induction d as [| kv d IH]; cbn [map filter]; intros H; [constructor |].
  inversion H as [| ? ? Hfresh Hnd]. subst.
  destruct (f kv); cbn [map]; [| now apply IH].
  constructor; [| now apply IH].
  intros Hin. apply Hfresh. apply in_map_iff in Hin.
  destruct Hin as (x & E & Hx). apply filter_In in Hx.
  rewrite <- E. apply in_map. apply Hx.
Qed.

Lemma count_license_keys (o : option string) (d : sdict Z) :
  NoDup (Py.keys d) /\ ~ In "" (Py.keys d) ->
  NoDup (Py.keys (count_license d o)) /\ ~ In "" (Py.keys (count_license d o)).
Proof.
  intros [Hnd Hne]. unfold count_license.
  destruct o as [l |]; [| now split].
  cbn [licensed]. destruct (String.eqb_spec l "") as [-> | Hl]; cbn [negb];
    [now split |].
  rewrite keys_sset. split; [now apply add_key_NoDup |].
  rewrite add_key_In. intros [H | H]; [now apply Hne | now apply Hl].
Qed.

Lemma count_fold_keys (ls : list (option string)) :
  forall d,
    NoDup (Py.keys d) /\ ~ In "" (Py.keys d) ->
    NoDup (Py.keys (fold_left count_license ls d))
    /\ ~ In "" (Py.keys (fold_left count_license ls d)).
Proof.
  induction ls as [| o ls IH]; intros d H; cbn [fold_left]; [exact H |].
  apply IH, count_license_keys, H.
Qed.

Lemma count_fold (ls : list (option string)) (l : string) :
  l <> "" ->
  forall d,
    Py.get_default String.eqb (fold_left count_license ls d) l 0%Z =
    (Py.get_default String.eqb d l 0 +
     Z.of_nat (List.length (filter (Generator.opt_is l) ls)))%Z.
Proof.
  intros Hl. induction ls as [| o ls IH]; intros d; cbn [fold_left filter].
  - cbn. lia.
  - rewrite IH. unfold count_license.
    destruct o as [s |]; cbn [Generator.opt_is licensed]; [| reflexivity].
    destruct (String.eqb_spec s "") as [-> | Hs]; cbn [negb].
    + destruct (String.eqb_spec "" l) as [E | _]; [now subst | reflexivity].
    + destruct (String.eqb_spec s l) as [-> | Hsl].
      * cbn [List.length]. unfold Py.get_default at 1.
        fold (sget (sset d l (Py.get_default String.eqb d l 0 + 1)%Z) l).
        rewrite sget_sset_same. rewrite Nat2Z.inj_succ. lia.
      * unfold Py.get_default at 1.
        fold (sget (sset d s (Py.get_default String.eqb d s 0 + 1)%Z) l).
        rewrite (@sset_other _ d s l _ Hsl). reflexivity.
Qed.

Lemma unlicensed_models_closed (results : list AnalysisResult) :
  unlicensed_models (_compare_licenses results) =
  map model_name
      (filter (fun r => negb (licensed (license (model_info r)))) results).
Proof.
  unfold _compare_licenses. cbn [unlicensed_models].
  rewrite filter_map_swap, map_map. reflexivity.
Qed.

(** X9.  What the license comparison reports: the unlicensed models are
    the models whose license is [None] or the empty string, in the order of
    the results; the common licenses are listed once each, and a license is
    listed exactly when it is not empty and two or more results carry it. *)
Theorem license_comparison_counts (results : list AnalysisResult) :
  unlicensed_models (_compare_licenses results) =
    map model_name
        (filter (fun r => negb (licensed (license (model_info r)))) results)
  /\ NoDup (common_licenses (_compare_licenses results))
  /\ forall l,
       In l (common_licenses (_compare_licenses results)) <->
       l <> "" /\ 2 <= count_licensed l results.
Proof.
  unfold _compare_licenses. cbn [unlicensed_models common_licenses].
  rewrite !map_map. cbn [snd].
  set (d := fold_left count_license
              (map (fun r => license (model_info r)) results) []).
  assert (Hk : NoDup (Py.keys d) /\ ~ In "" (Py.keys d)).
  { apply count_fold_keys. split; [constructor | intros []]. }
  assert (Hcount : forall l, l <> "" ->
             Py.get_default String.eqb d l 0%Z
             = Z.of_nat (count_licensed l results)).
  { intros l Hl. unfold d. rewrite (@count_fold _ l Hl). cbn [Py.get_default Py.get].
    unfold count_licensed. rewrite filter_map_swap, length_map. reflexivity. }
  split; [| split].
  - rewrite filter_map_swap, map_map. reflexivity.
  - apply NoDup_keys_filter. apply Hk.
  - intros l. rewrite in_map_iff. split.
    + intros ([k n] & E & Hin). cbn [fst] in E. subst k.
      apply filter_In in Hin. destruct Hin as [Hin Hn]. cbn [snd] in Hn.
      assert (Hl : l <> "").
      { intros ->. apply (proj2 Hk). change "" with (fst ("", n)).
        unfold Py.keys. now apply in_map. }
      split; [exact Hl |].
      apply (@In_sget _ d l n (proj1 Hk)) in Hin.
      specialize (Hcount l Hl). unfold Py.get_default in Hcount.
      fold (sget d l) in Hcount. rewrite Hin in Hcount.
      apply Z.ltb_lt in Hn. lia.
    + intros [Hl Hc]. specialize (Hcount l Hl).
      unfold Py.get_default in Hcount. fold (sget d l) in Hcount.
      destruct (sget d l) as [n |] eqn:Hg; [| lia].
      exists (l, n). split; [reflexivity |].
      apply filter_In. split; [now apply sget_In |].
      cbn [snd]. apply Z.ltb_lt. lia.
Qed.

(** *** [_analyze_dependencies] *)

Lemma deps_loop_distinct (results : list AnalysisResult) :
  forall by_model all_deps bd,
    deps_loop results by_model all_deps = Ok bd ->
    NoDup (Py.keys all_deps ++ map model_name results) ->
    snd bd =
    (all_deps
     ++ map (fun r => (model_name r, index_by_name (dependencies (aibom r))))
            results)%list.
Proof.
  induction results as [| r rest IH]; intros by_model all_deps bd;
    cbn [deps_loop].
  - intros H _. injection H as <-. cbn [snd map]. now rewrite app_nil_r.
  - destruct (by_name (dependencies (aibom r)) []) as [d |] eqn:Hd;
      [| discriminate].
    cbn [Py.bind]. intros H Hnd.
    pose proof (@by_name_returned _ _ _ Hd) as Hh.
    rewrite (@by_name_closed _ Hh) in Hd. injection Hd as <-.
    assert (Hfresh : ~ In (model_name r) (Py.keys all_deps)).
    { cbn [map] in Hnd. apply NoDup_remove_2 in Hnd. intros Hin. apply Hnd.
      apply in_or_app. now left. }
    rewrite (@sset_fresh _ all_deps _ _ Hfresh) in H.
    apply IH in H.
    + rewrite H, <- app_assoc. reflexivity.
    + unfold Py.keys. rewrite map_app, <- app_assoc. exact Hnd.
Qed.

Lemma name_in_filter (n : pyval) (names l : list pyval) :
  name_in n (filter (fun x => name_in x names) l)
  = name_in n l && name_in n names.
Proof.
  unfold name_in at 1 3.
  induction l as [| a l IH]; cbn [filter existsb]; [reflexivity |].
  destruct (key_eqb n a) eqn:E.
  - pose proof (@key_eqb_eq _ _ E) as ->. cbn [orb].
    destruct (name_in a names) eqn:F; cbn [existsb].
    + now rewrite E.
    + rewrite IH. now rewrite andb_false_r.
  - cbn [orb]. destruct (name_in a names); cbn [existsb]; [rewrite E |];
      exact IH.
Qed.

Lemma common_names_fold (n : pyval) (others : sdict (Py.dict pyval entry)) :
  forall init,
    name_in n (fold_left
                 (fun common d =>
                    filter (fun x => name_in x (Py.keys (snd d))) common)
                 others init)
    = name_in n init
      && forallb (fun d => name_in n (Py.keys (snd d))) others.
Proof.
  induction others as [| d others IH]; intros init; cbn [fold_left forallb].
  - now rewrite andb_true_r.
  - rewrite IH, name_in_filter, andb_assoc. reflexivity.
Qed.

(** X10.  In the dependency analysis of models with distinct names, a name
    is a common dependency exactly when every model has a dependency of that
    name. *)
Theorem common_dependencies_in_every_model (r : AnalysisResult)
    (rest : list AnalysisResult) (da : DependencyAnalysis) :
  NoDup (map model_name (r :: rest)) ->
  _analyze_dependencies (r :: rest) = Ok da ->
  forall n,
    name_in n (common_dependencies da) = true <->
    Forall (fun r' => name_in n (dependency_names r') = true) (r :: rest).
Proof.
  intros Hnd. unfold _analyze_dependencies.
  destruct (deps_loop (r :: rest) [] []) as [bd |] eqn:Hd; [| discriminate].
  cbn [Py.bind]. intros H. injection H as <-. cbn [common_dependencies].
  rewrite (@deps_loop_distinct _ _ _ _ Hd Hnd). cbn [app map common_names].
  intros n. rewrite common_names_fold, forallb_map. cbn [snd].
  assert (Hkeys : forall r', name_in n (Py.keys (index_by_name (dependencies (aibom r'))))
                             = name_in n (dependency_names r')).
  { intros r'. unfold index_by_name. now rewrite index_names. }
  rewrite Hkeys, andb_true_iff, forallb_forall, Forall_forall.
  split.
  - intros [H1 H2] r' [<- | Hr']; [exact H1 |]. rewrite <- Hkeys. now apply H2.
  - intros H. split; [apply H; now left |].
    intros r' Hr'. rewrite Hkeys. apply H. now right.
Qed.

Lemma common_dependencies_in_every_model_witness :
  NoDup (map model_name [model_a; model_b; model_c])
  /\ exists da,
       _analyze_dependencies [model_a; model_b; model_c] = Ok da
       /\ (name_in (PStr "transformers") (common_dependencies da) = true <->
           Forall (fun r' => name_in (PStr "transformers") (dependency_names r')
                             = true)
                  [model_a; model_b; model_c]).
Proof.
  assert (Hnd : NoDup (map model_name [model_a; model_b; model_c]))
    by distinct_strings.
  split; [exact Hnd |].
  destruct (_analyze_dependencies [model_a; model_b; model_c]) as [da |] eqn:H;
    [| vm_compute in H; discriminate].
  exists da. split; [reflexivity |].
  exact (@common_dependencies_in_every_model _ _ _ Hnd H (PStr "transformers")).
Defined.

(** *** Components shared by some of the models only *)

(** X27.  A component shared by some of the models but not by all is
    reported nowhere: among models of distinct names, a name that two of
    the models have and a third lacks is neither the name of a common
    component nor the name of a component listed as unique to any model. *)
Theorem partly_shared_component_is_dropped (results : list AnalysisResult)
    (comparison : ModelComparison) (r1 r2 r3 : AnalysisResult) (n : pyval) :
  NoDup (map model_name results) ->
  compare_models results = Ok comparison ->
  In r1 results -> In r2 results -> In r3 results ->
  model_name r1 <> model_name r2 ->
  name_in n (names_of r1) = true ->
  name_in n (names_of r2) = true ->
  name_in n (names_of r3) = false ->
  name_in n (map comp_name (common_components comparison)) = false
  /\ Forall (fun ml => name_in n (map comp_name (snd ml)) = false)
            (unique_components comparison).
Proof.
  intros Hnd H H1 H2 H3 Hne Hn1 Hn2 Hn3.
  destruct (@compare_models_parts _ _ H) as (Hc & Hu & _).
  pose proof (@unique_of_returned _ _ Hnd Hu) as Hh.
  split.
  - destruct results as [| r rest]; [destruct H1 |].
    destruct (@common_names_spec r rest Hnd Hh) as (common & Hc' & Hspec).
    assert (Hcc : common = common_components comparison) by congruence.
    subst common.
    destruct (name_in n (map comp_name (common_components comparison))) eqn:E;
      [| reflexivity].
    pose proof (proj1 (Hspec n) E r3 H3) as Hin. congruence.
  - assert (Hu' : unique_components comparison =
                  map (fun r => (model_name r,
                                 filter (fun c => negb (elsewhere results r c))
                                        (components (aibom r)))) results).
    { rewrite (unique_of_closed _ Hnd Hh) in Hu. congruence. }
    rewrite Hu'. apply Forall_forall. intros [m l] Hml.
    apply in_map_iff in Hml. destruct Hml as (r & E & Hr).
    injection E as <- <-. cbn [snd].
    destruct (name_in n (map comp_name
                (filter (fun c => negb (elsewhere results r c))
                        (components (aibom r))))) eqn:Hin; [| reflexivity].
    exfalso. apply existsb_exists in Hin. destruct Hin as (x & Hx & Hk).
    apply in_map_iff in Hx. destruct Hx as (c & <- & Hc0).
    apply filter_In in Hc0. destruct Hc0 as [_ Hel].
    apply negb_true_iff in Hel. apply key_eqb_eq in Hk. subst n.
    destruct (string_dec (model_name r1) (model_name r)) as [E1 | E1].
    + assert (Hne2 : model_name r2 <> model_name r) by congruence.
      pose proof (@elsewhere_false _ _ _ _ Hel H2 Hne2). congruence.
    + pose proof (@elsewhere_false _ _ _ _ Hel H1 E1). congruence.
Qed.

Lemma partly_shared_component_is_dropped_witness :
  NoDup (map model_name [model_a; model_b; model_c])
  /\ name_in (PStr "weights.bin") (names_of model_a) = true
  /\ name_in (PStr "weights.bin") (names_of model_c) = true
  /\ name_in (PStr "weights.bin") (names_of model_b) = false
  /\ exists comparison,
       compare_models [model_a; model_b; model_c] = Ok comparison
       /\ name_in (PStr "weights.bin")
                  (map comp_name (common_components comparison)) = false
       /\ Forall (fun ml => name_in (PStr "weights.bin")
                                    (map comp_name (snd ml)) = false)
                 (unique_components comparison).
Proof.
  assert (Hnd : NoDup (map model_name [model_a; model_b; model_c]))
    by distinct_strings.
  split; [exact Hnd |]. split; [reflexivity |]. split; [reflexivity |].
  split; [reflexivity |].
  destruct (compare_models [model_a; model_b; model_c]) as [comparison |] eqn:H;
    [| vm_compute in H; discriminate].
  exists comparison. split; [reflexivity |].
  apply (@partly_shared_component_is_dropped
           [model_a; model_b; model_c] comparison model_a model_c model_b
           (PStr "weights.bin") Hnd H).
  - now left.
  - right; right; now left.
  - right; now left.
  - discriminate.
  - reflexivity.
  - reflexivity.
  - reflexivity.
Defined.

(** *** Equal scores *)

Lemma tie_keeps_first (A K : Type) (key : A -> K) (ltb : K -> K -> bool)
    (l : list A) (best : A) :
  Forall (fun y => ltb (key best) (key y) = false) l ->
  fold_left (fun b y => if ltb (key b) (key y) then y else b) l best = best.
Proof.
  induction 1 as [| y l Hy _ IH]; cbn [fold_left]; [reflexivity |].
  now rewrite Hy.
Qed.

(** X28.  Ties go to the first model: when all the models of a security
    comparison have the same risk score, as they do when every reply of the
    reasoning service was unusable and each got the default score, the first
    model is named both the highest and the lowest risk. *)
Theorem equal_scores_name_the_first_model (r : AnalysisResult)
    (rest : list AnalysisResult) (sc : SecurityComparison) :
  NoDup (map model_name (r :: rest)) ->
  Forall (fun r' => score_of r' = score_of r) rest ->
  _compare_security (r :: rest) = Ok sc ->
  highest_risk_model sc = model_name r /\ lowest_risk_model sc = model_name r.
Proof.
  intros Hnd Heq H.
  destruct (@compare_security_distinct _ _ Hnd H) as (Hs & _ & _ & Hhi & Hlo).
  rewrite Hs in Hhi, Hlo. rewrite min_by_converse in Hlo.
  rewrite max_by_image in Hhi, Hlo. cbn [snd max_by option_map] in Hhi, Hlo.
  assert (Hu : fold_left (fun best y : AnalysisResult =>
                            if ltb (score_of best) (score_of y) then y else best)
                         rest r = r).
  { apply (@tie_keeps_first _ _ score_of ltb rest r).
    eapply Forall_impl; [| exact Heq]. cbn beta. intros r' ->. apply ltb_irrefl. }
  assert (Hd : fold_left (fun best y : AnalysisResult =>
                            if ltb (score_of y) (score_of best) then y else best)
                         rest r = r).
  { apply (@tie_keeps_first _ _ score_of (fun a b => ltb b a) rest r).
    eapply Forall_impl; [| exact Heq]. cbn beta. intros r' ->. apply ltb_irrefl. }
  rewrite Hu in Hhi. rewrite Hd in Hlo. split; assumption.
Qed.

Lemma equal_scores_name_the_first_model_witness :
  NoDup (map model_name [model_b; model_a; model_c])
  /\ Forall (fun r' => score_of r' = score_of model_b) [model_a; model_c]
  /\ score_of model_b = five
  /\ exists sc,
       _compare_security [model_b; model_a; model_c] = Ok sc
       /\ highest_risk_model sc = "B" /\ lowest_risk_model sc = "B".
Proof.
  assert (Hnd : NoDup (map model_name [model_b; model_a; model_c]))
    by distinct_strings.
  assert (Heq : Forall (fun r' => score_of r' = score_of model_b)
                       [model_a; model_c])
    by (repeat constructor).
  split; [exact Hnd |]. split; [exact Heq |]. split; [reflexivity |].
  destruct (_compare_security [model_b; model_a; model_c]) as [sc |] eqn:H;
    [| vm_compute in H; discriminate].
  exists sc. split; [reflexivity |].
  exact (@equal_scores_name_the_first_model _ _ _ Hnd Heq H).
Defined.

End ComparisonFacts.

(** ** The document builder: inventory, references and identifiers *)

Module DocumentFacts.

Import Json Model Generator Engine Samples StrFacts GeneratorFacts Vocabulary.
Local Open Scope string_scope.

Lemma file_component_names (md : Manifest) (fs : list FileInfo) :
  map comp_name (flat_map (file_component md) fs)
  = map PStr (filter recognised (map file_name fs))
  /\ map entry_type (flat_map (file_component md) fs)
     = map (fun n => Some (kind_of n)) (filter recognised (map file_name fs)).
Proof.
  induction fs as [| f fs [IH1 IH2]]; [split; reflexivity |].
  cbn [flat_map map filter]. rewrite !map_app, IH1, IH2.
  assert (Hr : recognised (file_name f)
               = is_weights (file_name f) || is_config (file_name f)
                 || is_source (file_name f)) by reflexivity.
  assert (Hk : kind_of (file_name f)
               = if is_weights (file_name f) then "model-weights"
                 else if is_config (file_name f) then "configuration"
                 else "source-code") by reflexivity.
  unfold file_component. cbv zeta. rewrite Hr. clear Hr.
  destruct (is_weights (file_name f)); cbn [orb map app];
    [rewrite Hk; split; reflexivity |].
  destruct (is_config (file_name f)); cbn [orb map app];
    [rewrite Hk; split; reflexivity |].
  destruct (is_source (file_name f)); cbn [orb map app];
    [rewrite Hk |]; split; reflexivity.
Qed.


(** X11.  On the normal path the components follow the file list: one
    component for each file whose name ends in [.bin], [.safetensors],
    [.json] or [.py], in the order of the list and named after the file, of
    type model-weights, configuration or source-code by the suffix; a file
    listed twice yields two components, any other file none. *)
Theorem components_follow_file_list (mi : ModelInfo) (g : supply) :
  map comp_name (components (build true mi g))
  = map PStr (filter recognised (file_names mi))
  /\ map entry_type (components (build true mi g))
     = map (fun n => Some (kind_of n)) (filter recognised (file_names mi))
  /\ List.length (components (build true mi g))
     = List.length (filter recognised (file_names mi)).
Proof.
  rewrite build_normal. cbn [normal_document components].
  destruct (file_component_names (_create_model_manifest mi) (files mi))
    as [H1 H2].
  split; [exact H1 |]. split; [exact H2 |].
  rewrite <- (length_map comp_name), H1, length_map. reflexivity.
Qed.

(** The document of the fallback path. *)
Lemma build_basic (mi : ModelInfo) (g : supply) :
  build false mi g =
  {| bom_format := "CycloneDX";
     spec_version := "1.5";
     serial_number := "urn:uuid:" ++ uuid_str (source g (drawn g + 2));
     version := 1;
     metadata :=
       [("timestamp", PStr "2024-01-01T00:00:00Z");
        ("component",
         PDict [("type", PStr "machine-learning-model");
                ("name", PStr (name mi));
                ("version", PStr "latest")])];
     components :=
       [[("type", PStr "machine-learning-model");
         ("name", PStr (name mi));
         ("version", PStr "latest");
         ("description", PStr (or_empty (description mi)));
         ("supplier", PDict [("name", PStr (author mi))])]];
     dependencies := [];
     vulnerabilities := [];
     compositions := [] |}.
Proof.
  rewrite build_fallback. reflexivity.
Qed.

(** X12.  Whether or not the scratch file could be written, the document
    is a CycloneDX 1.5 document of version 1 without compositions, its
    serial number is [urn:uuid:] followed by a UUID drawn for it, and the
    subject in its metadata is the machine-learning model of the given
    name, version [latest]. *)
Theorem document_envelope (disk_ok : bool) (mi : ModelInfo) (g : supply) :
  bom_format (build disk_ok mi g) = "CycloneDX"
  /\ spec_version (build disk_ok mi g) = "1.5"
  /\ version (build disk_ok mi g) = 1%Z
  /\ compositions (build disk_ok mi g) = []
  /\ (exists k, drawn g + 2 <= k
                /\ serial_number (build disk_ok mi g)
                   = "urn:uuid:" ++ uuid_str (source g k))
  /\ exists d,
       subject_component (build disk_ok mi g) = Some (PDict d)
       /\ sget d "type" = Some (PStr "machine-learning-model")
       /\ sget d "name" = Some (PStr (name mi))
       /\ sget d "version" = Some (PStr "latest").
Proof.
  destruct disk_ok.
  - rewrite build_normal. cbn [normal_document bom_format spec_version version
      compositions serial_number].
    repeat (split; [reflexivity |]).
    split.
    + eexists. split; [| reflexivity]. lia.
    + eexists. split; [reflexivity |]. repeat split; reflexivity.
  - rewrite build_basic. cbn [bom_format spec_version version compositions
      serial_number].
    repeat (split; [reflexivity |]).
    split.
    + exists (drawn g + 2). split; [lia | reflexivity].
    + eexists. split; [reflexivity |]. repeat split; reflexivity.
Qed.

Lemma flagged_entries_In (src : nat -> UUID) (fs : list FileInfo) (v : entry) :
  forall k,
    In v (flagged_entries src k fs) ->
    exists f u, In f fs /\ flagged f = true
                /\ v = pickle_vulnerability u (file_name f).
Proof.
  induction fs as [| f fs IH]; intros k; cbn [flagged_entries]; [intros [] |].
  destruct (flagged f) eqn:Hf.
  - intros [<- | Hin].
    + exists f, (src k). split; [now left |]. now split.
    + destruct (IH _ Hin) as (f' & u & Hin' & H). exists f', u.
      split; [now right | exact H].
  - intros Hin. destruct (IH _ Hin) as (f' & u & Hin' & H). exists f', u.
    split; [now right | exact H].
Qed.

Lemma flagged_has_component (md : Manifest) (fs : list FileInfo) (f : FileInfo) :
  In f fs -> flagged f = true ->
  In (PStr (file_name f)) (map comp_name (flat_map (file_component md) fs)).
Proof.
  intros Hin Hf. apply in_map_iff.
  exists (source_component md (file_name f)). split; [reflexivity |].
  apply in_flat_map. exists f. split; [exact Hin |].
  unfold flagged in Hf. unfold file_component. cbv zeta in *.
  destruct (is_weights (file_name f)); [discriminate |].
  destruct (is_config (file_name f)); [discriminate |].
  destruct (is_source (file_name f)); [now left | discriminate].
Qed.

(** X13.  No finding refers to something the document does not list: on
    either path, every reference in the [affects] of every vulnerability
    entry is the model name or the name of a component of the same
    document. *)
Theorem references_resolve (disk_ok : bool) (mi : ModelInfo) (g : supply) :
  Forall (fun v => Forall (resolves (name mi) (build disk_ok mi g))
                          (affected_refs v))
         (vulnerabilities (build disk_ok mi g)).
Proof.
  destruct disk_ok.
  2:{ rewrite build_basic. constructor. }
  apply Forall_forall. intros v Hv.
  rewrite build_normal in Hv. cbn [normal_document vulnerabilities] in Hv.
  apply in_app_or in Hv. destruct Hv as [Hv | Hv].
  - destruct (flagged_entries_In _ _ _ _ Hv) as (f & u & Hin & Hf & ->).
    rewrite pickle_entry_refs. constructor; [| constructor].
    exists (file_name f). split; [reflexivity |]. right.
    rewrite build_normal. cbn [normal_document components].
    now apply flagged_has_component.
  - destruct (license_unknown (license mi)); [| destruct Hv].
    destruct Hv as [<- | []].
    constructor; [| constructor].
    exists (name mi). split; [reflexivity | now left].
Qed.







(** X15.  When the scratch file cannot be written, nothing of the model
    card but its name, description and author reaches the document: whatever
    the files, the library and the license, the document has the model
    itself as its only component, no dependency and no vulnerability entry,
    so neither a pickle finding nor a license finding. *)
Theorem scratch_failure_hides_findings (mi : ModelInfo) (g : supply) :
  map comp_name (components (build false mi g)) = [PStr (name mi)]
  /\ map entry_type (components (build false mi g))
     = [Some "machine-learning-model"]
  /\ dependencies (build false mi g) = []
  /\ vulnerabilities (build false mi g) = []
  /\ license_entries (build false mi g) = []
  /\ (forall target, high_entries_for target (build false mi g) = [])
  /\ license_entries (build true unlicensed_card fresh) <> []
  /\ license_entries (build false unlicensed_card fresh) = [].
Proof.
  rewrite build_basic. repeat split; try reflexivity. discriminate.
Qed.

End DocumentFacts.

(** ** The hub service: the size estimate *)

Module HubFacts.

Import Json Model Generator Engine Hub Orchestrator Scenarios Samples.
Import StrFacts GeneratorFacts EngineFacts Vocabulary DocumentFacts.
Local Open Scope string_scope.

Lemma model_file_cases (f : string) :
  is_model_file f = is_weights f || is_h5 f.
Proof. reflexivity. Qed.

Lemma h5_is_no_component (f : string) :
  is_h5 f = true -> recognised f = false.
Proof.
  unfold is_h5, recognised, is_weights, is_config, is_source. intros H.
  rewrite (@endswith_exclusive f ".h5" ".bin" eq_refl eq_refl H).
  rewrite (@endswith_exclusive f ".h5" ".safetensors" eq_refl eq_refl H).
  rewrite (@endswith_exclusive f ".h5" ".json" eq_refl eq_refl H).
  rewrite (@endswith_exclusive f ".h5" ".py" eq_refl eq_refl H).
  reflexivity.
Qed.

Lemma model_file_count (files : list string) :
  List.length (filter is_model_file files)
  = List.length (filter is_weights files) + List.length (filter is_h5 files).
Proof.
  induction files as [| f files IH]; cbn [filter]; [reflexivity |].
  rewrite model_file_cases.
  destruct (is_h5 f) eqn:Hh.
  - pose proof (h5_is_no_component _ Hh) as Hr. unfold recognised in Hr.
    apply orb_false_iff in Hr as [Hr _]. apply orb_false_iff in Hr as [Hw _].
    rewrite Hw. cbn [orb List.length]. rewrite IH. lia.
  - rewrite orb_false_r. destruct (is_weights f); cbn [List.length]; lia.
Qed.

Lemma weights_component_count (md : Manifest) (fs : list string) :
  List.length
    (filter (fun c => opt_is "model-weights" (entry_type c))
            (flat_map (file_component md)
                      (map (fun f => {| file_name := f; file_size := None |}) fs)))
  = List.length (filter is_weights fs).
Proof.
  induction fs as [| f fs IH]; cbn [map flat_map filter]; [reflexivity |].
  rewrite filter_app, length_app, IH. unfold file_component at 1.
  cbn [file_name]. cbv zeta.
  destruct (is_weights f); [reflexivity |].
  destruct (is_config f); [reflexivity |].
  destruct (is_source f); reflexivity.
Qed.

(** X16.  The size the hub service records for a model is 500 MB for each
    file whose name ends in [.bin], [.safetensors] or [.h5], and [None] when
    there is no such file: never zero, never negative.  The document built
    for the model has one model-weights component for each [.bin] or
    [.safetensors] file; an [.h5] file counts for the size and yields no
    component. *)
Theorem size_estimate_counts_model_files (model_name : string) (info : HubInfo)
    (files : list string) (g : supply) :
  model_size (card_of model_name info files)
  = match List.length (filter is_weights files)
          + List.length (filter is_h5 files) with
    | O => None
    | S n => Some (500000000 * Z.of_nat (S n))%Z
    end
  /\ List.length (weights_components (build true (card_of model_name info files) g))
     = List.length (filter is_weights files)
  /\ Forall (fun f => is_h5 f = true -> recognised f = false) files.
Proof.
  split; [| split].
  - cbn [card_of get_model_info model_size]. unfold _estimate_model_size.
    cbv zeta. rewrite <- model_file_count.
    destruct (filter is_model_file files) as [| f l]; [reflexivity |].
    cbn [List.length]. f_equal. lia.
  - unfold weights_components. rewrite build_normal.
    cbn [normal_document components card_of get_model_info
         _create_model_manifest Model.files].
    apply weights_component_count.
  - apply Forall_forall. intros f _. apply h5_is_no_component.
Qed.

Lemma estimate_positive (files : list string) (z : Z) :
  _estimate_model_size files = Some z -> (500000000 <= z)%Z.
Proof.
  unfold _estimate_model_size. cbv zeta.
  destruct (filter is_model_file files) as [| f l]; [discriminate |].
  intros H. injection H as <-. cbn [List.length]. lia.
Qed.

(** X17.  Sizes estimated by the hub service are all valid for the size
    comparison: every known size is at least 500 MB, so the sizes that are
    averaged are exactly the known ones and no size is negative. *)
Theorem estimated_sizes_are_valid (results : list AnalysisResult) :
  Forall estimated results ->
  sizes_nonnegative results = true
  /\ valid_sizes_of results = known_sizes results
  /\ Forall (fun z => (500000000 <= z)%Z) (known_sizes results).
Proof.
  intros H. induction H as [| r rest [files Hr] _ (IH1 & IH2 & IH3)].
  - repeat split; constructor.
  - cbn [sizes_nonnegative forallb valid_sizes_of known_sizes flat_map].
    fold (sizes_nonnegative rest) (valid_sizes_of rest) (known_sizes rest).
    rewrite IH1, IH2.
    destruct (model_size (model_info r)) as [z |] eqn:Hz.
    + symmetry in Hr. apply estimate_positive in Hr.
      assert (Hnz : (z =? 0)%Z = false) by (apply Z.eqb_neq; lia).
      assert (Hpos : (0 <=? z)%Z = true) by (apply Z.leb_le; lia).
      cbn [size_truthy]. rewrite Hnz, Hpos. cbn [negb andb app].
      repeat split. constructor; assumption.
    + repeat split. exact IH3.
Qed.

Lemma estimated_sizes_are_valid_witness :
  Forall estimated [first_result; second_result]
  /\ sizes_nonnegative [first_result; second_result] = true
  /\ valid_sizes_of [first_result; second_result]
     = known_sizes [first_result; second_result]
  /\ known_sizes [first_result; second_result] = [1000000000%Z; 500000000%Z].
Proof.
  assert (H : Forall estimated [first_result; second_result]).
  { constructor; [now exists sample_files |].
    constructor; [now exists other_files | constructor]. }
  split; [exact H |].
  destruct (estimated_sizes_are_valid H) as (H1 & H2 & _).
  split; [exact H1 |]. split; [exact H2 | reflexivity].
Defined.

End HubFacts.

(** ** The pipeline: from the hub to the response *)

Module PipelineFacts.

Import F64 Json Builtins Model Generator Engine Hub Results Insights.
Import Orchestrator Handler Scenarios Samples.
Import DictFacts GeneratorFacts EngineFacts Vocabulary ComparisonFacts.
Import DocumentFacts HubFacts.
Local Open Scope string_scope.

(** *** Documents of the builder in the comparison *)

Lemma names_of_strings_hashable (l : list string) :
  forallb hashable (map PStr l) = true.
Proof. induction l as [| s l IH]; cbn; auto. Qed.

Lemma built_names_hashable (disk_ok : bool) (mi : ModelInfo) (g : supply) :
  forallb hashable (map comp_name (components (build disk_ok mi g))) = true
  /\ forallb (fun d => hashable (comp_name d)) (dependencies (build disk_ok mi g))
     = true.
Proof.
  destruct disk_ok.
  - split.
    + rewrite build_normal. cbn [normal_document components].
      rewrite (proj1 (file_component_names _ _)).
      apply names_of_strings_hashable.
    + rewrite build_normal. cbn [normal_document dependencies].
      destruct (truthy (library_name mi)); [| reflexivity].
      destruct (library_name mi); reflexivity.
  - rewrite build_basic. split; reflexivity.
Qed.

Lemma produced_document (r : AnalysisResult) :
  produced r ->
  exists disk_ok mi g files,
    aibom r = build disk_ok mi g
    /\ model_size (model_info r) = _estimate_model_size files.
Proof.
  intros (t & info & files & _ & E).
  exists (Orchestrator.disk_ok t), (card_of (model_name r) info files), (uuids t),
    files.
  split; [exact (f_equal aibom E) |].
  exact (f_equal (fun x => model_size (model_info x)) E).
Qed.

Lemma produced_hashable (results : list AnalysisResult) :
  Forall produced results ->
  names_hashable results = true /\ dependencies_hashable results = true.
Proof.
  unfold names_hashable, dependencies_hashable, names_of.
  induction 1 as [| r rest Hr _ [IH1 IH2]]; [split; reflexivity |].
  cbn [forallb]. rewrite IH1, IH2, !andb_true_r.
  destruct (produced_document Hr) as (d & mi & g & files & -> & _).
  apply built_names_hashable.
Qed.

Lemma produced_estimated (results : list AnalysisResult) :
  Forall produced results -> Forall estimated results.
Proof.
  intros H. eapply Forall_impl; [| exact H].
  intros r Hr. destruct (produced_document Hr) as (d & mi & g & files & _ & E).
  now exists files.
Qed.

Lemma compare_models_ok_iff (results : list AnalysisResult) :
  names_hashable results = true ->
  dependencies_hashable results = true ->
  Py.is_ok (Engine.compare_models results)
  = counts_defined results && mean_defined results.
Proof.
  intros Hnames Hdeps.
  destruct (counts_defined results) eqn:Hcounts;
    [destruct (mean_defined results) eqn:Hmean |]; cbn [andb].
  - unfold Engine.compare_models.
    rewrite (find_common_closed _ (extract_hashable results Hnames)).
    rewrite (find_unique_closed _ (extract_hashable results Hnames)).
    cbn [Py.bind]. unfold _compare_security.
    destruct (security_loop_returns results Hcounts
                {| acc_scores := []; acc_levels := []; acc_vulns := [];
                   acc_issues := [] |}) as [acc ->].
    cbn [Py.bind].
    destruct (compare_sizes_returns results Hmean) as [sc ->].
    cbn [Py.bind]. unfold _analyze_dependencies.
    destruct (deps_loop_returns results Hdeps [] []) as [bd ->].
    reflexivity.
  - destruct (Engine.compare_models results) as [c |] eqn:H; [| reflexivity].
    destruct (@compare_models_parts _ _ H) as (_ & _ & _ & _ & Hz & _).
    rewrite (compare_sizes_returned results Hz) in Hmean. discriminate.
  - destruct (Engine.compare_models results) as [c |] eqn:H; [| reflexivity].
    destruct (@compare_models_parts _ _ H) as (_ & _ & Hs & _).
    unfold _compare_security in Hs.
    destruct (security_loop results _) as [acc |] eqn:Hl; [| discriminate].
    rewrite (security_loop_returned results _ Hl) in Hcounts. discriminate.
Qed.

(** X18.  Results produced by the analysis pipeline never make the
    comparison fail on a component or dependency name: every such name is a
    string.  Their comparison returns exactly when [len] applies to what
    each reply gave as vulnerabilities and compliance issues, and the mean
    of the sizes is a float. *)
Theorem pipeline_comparison_fails_only_on_counts (results : list AnalysisResult) :
  Forall produced results ->
  names_hashable results = true
  /\ dependencies_hashable results = true
  /\ Py.is_ok (Engine.compare_models results)
     = counts_defined results && mean_defined results.
Proof.
  intros H. destruct (produced_hashable H) as [Hn Hd].
  split; [exact Hn |]. split; [exact Hd |].
  now apply compare_models_ok_iff.
Qed.

Lemma pipeline_comparison_fails_only_on_counts_witness :
  Forall produced [first_result; second_result]
  /\ Py.is_ok (Engine.compare_models [first_result; second_result])
     = counts_defined [first_result; second_result]
       && mean_defined [first_result; second_result].
Proof.
  assert (H : Forall produced [first_result; second_result]).
  { constructor.
    - exists (sample_task sample_files (Ok sample_reply)), sample_info,
        sample_files. split; reflexivity.
    - constructor; [| constructor].
      exists (sample_task other_files (Raise OSError)), sample_info, other_files.
      split; reflexivity. }
  split; [exact H |].
  apply (pipeline_comparison_fails_only_on_counts H).
Defined.

(** *** The totals of a comparison result *)

Lemma counts_defined_sums (results : list AnalysisResult) :
  counts_defined results = true ->
  forall t,
    sum_over security_issues_count results t
    = Ok (fold_left Z.add (map issue_count results) t)
    /\ sum_over compliance_gaps_count results t
       = Ok (fold_left Z.add (map gap_count results) t).
Proof.
  unfold counts_defined.
  induction results as [| r rest IH]; cbn [forallb]; intros H t.
  - split; reflexivity.
  - apply andb_prop in H. destruct H as [Hr Hrest].
    apply andb_prop in Hr. destruct Hr as [Hv Hi].
    cbn [sum_over map fold_left].
    assert (Ev : security_issues_count r = Ok (issue_count r)).
    { unfold security_issues_count, issue_count.
      now destruct (py_len (sa_vulnerabilities (security_analysis r))). }
    assert (Ei : compliance_gaps_count r = Ok (gap_count r)).
    { unfold compliance_gaps_count, gap_count.
      now destruct (py_len (compliance_issues (security_analysis r))). }
    rewrite Ev, Ei. cbn [Py.bind].
    split; [apply (proj1 (IH Hrest _)) | apply (proj2 (IH Hrest _))].
Qed.

Lemma totals_of_distinct (results : list AnalysisResult)
    (comparison : ModelComparison) :
  NoDup (map model_name results) ->
  Engine.compare_models results = Ok comparison ->
  sum_over security_issues_count results 0
  = Ok (Engine.sum (Py.values (vulnerability_counts
                                 (security_comparison comparison))))
  /\ sum_over compliance_gaps_count results 0
     = Ok (Engine.sum (Py.values (compliance_issue_counts
                                    (security_comparison comparison)))).
Proof.
  intros Hnd H.
  destruct (@compare_models_parts _ _ H) as (_ & _ & Hs & _).
  destruct (@compare_security_distinct _ _ Hnd Hs) as (_ & Hv & Hi & _).
  assert (Hc : counts_defined results = true).
  { unfold _compare_security in Hs.
    destruct (security_loop results _) as [acc |] eqn:Hl; [| discriminate].
    exact (security_loop_returned results _ Hl). }
  destruct (counts_defined_sums _ Hc 0) as [H1 H2].
  rewrite H1, H2, Hv, Hi. unfold Engine.sum, Py.values.
  rewrite !map_map. cbn [snd]. split; reflexivity.
Qed.

Lemma riskiest_of_distinct (results : list AnalysisResult)
    (sc : SecurityComparison) :
  NoDup (map model_name results) ->
  results <> [] ->
  _compare_security results = Ok sc ->
  riskiest results = Ok (highest_risk_model sc).
Proof.
  intros Hnd Hne H.
  destruct (@compare_security_distinct _ _ Hnd H) as (Hs & _ & _ & Hhi & _).
  rewrite Hs, max_by_image in Hhi. cbn [snd] in Hhi.
  unfold riskiest. change (max_by risk_key) with (max_by (fun x => score_of x)).
  destruct (max_by (fun x => score_of x) F64.ltb results) as [m |] eqn:Hm.
  - now rewrite Hhi.
  - destruct results; [congruence | discriminate Hm].
Qed.

(** X19.  For models with distinct names, the totals of a comparison
    result agree with the comparison it holds: the total number of security
    issues is the sum of the per-model vulnerability counts, and the total
    number of compliance gaps is the sum of the per-model compliance counts.
    With a repeated model name they need not: the per-model maps keep one
    entry for the name, the totals count every result. *)
Theorem totals_match_comparison :
  (forall results comparison,
      NoDup (map model_name results) ->
      Engine.compare_models results = Ok comparison ->
      sum_over security_issues_count results 0
      = Ok (Engine.sum (Py.values (vulnerability_counts
                                     (security_comparison comparison))))
      /\ sum_over compliance_gaps_count results 0
         = Ok (Engine.sum (Py.values (compliance_issue_counts
                                        (security_comparison comparison)))))
  /\ (exists comparison,
         Engine.compare_models [risky; mild; calm] = Ok comparison
         /\ sum_over security_issues_count [risky; mild; calm] 0 = Ok 2%Z
         /\ Engine.sum (Py.values (vulnerability_counts
                                     (security_comparison comparison))) = 1%Z).
Proof.
  split.
  - exact totals_of_distinct.
  - destruct (Engine.compare_models [risky; mild; calm]) as [comparison |] eqn:H;
      [| vm_compute in H; discriminate].
    exists comparison. split; [reflexivity |]. split; [reflexivity |].
    vm_compute in H. injection H as <-. reflexivity.
Qed.

(** X20.  For models with distinct names, the highest-risk model named in
    the response of a comparison request (the first result of greatest
    score) is the one the comparison names.  With a repeated model name the
    two can differ: the comparison keeps the last score of the name. *)
Theorem riskiest_matches_comparison :
  (forall results sc,
      NoDup (map model_name results) ->
      results <> [] ->
      _compare_security results = Ok sc ->
      riskiest results = Ok (highest_risk_model sc))
  /\ (exists sc,
         _compare_security [risky; mild; calm] = Ok sc
         /\ highest_risk_model sc = "N"
         /\ riskiest [risky; mild; calm] = Ok "M").
Proof.
  split.
  - exact riskiest_of_distinct.
  - destruct (_compare_security [risky; mild; calm]) as [sc |] eqn:H;
      [| vm_compute in H; discriminate].
    exists sc. split; [reflexivity |].
    vm_compute in H. injection H as <-. split; reflexivity.
Qed.

(** *** The entry point *)

(** X21.  What [invoke] answers before any analysis is started.  When the
    orchestrator cannot be obtained, every request, even an invalid one, is
    answered with the failure response.  Otherwise an [analyze_model]
    request whose model name is missing or false ([None], the empty string,
    0, an empty list) is answered that the name is required; a
    [compare_models] request whose names are missing or a list of fewer
    than two is answered that two names are required, while names given as
    a non-zero number fail; any other action, or none, is answered as
    unknown.  None of these answers depends on the world. *)
Theorem requests_are_validated_first :
  (forall e w payload,
      invoke (Raise e) w payload
      = Failure (payload_get payload "action" (JStr "unknown")))
  /\ (forall w model_name,
         Values.truth model_name = false ->
         invoke (Ok tt) w (analyze_request model_name) = NameRequired)
  /\ (forall w, invoke (Ok tt) w [("action", JStr "analyze_model")] = NameRequired)
  /\ (forall w names,
         List.length names < 2 ->
         invoke (Ok tt) w (compare_request (JArr names)) = NamesRequired)
  /\ (forall w, invoke (Ok tt) w [("action", JStr "compare_models")] = NamesRequired)
  /\ (forall w z,
         z <> 0%Z ->
         invoke (Ok tt) w (compare_request (JInt z)) = Failure (JStr "compare_models"))
  /\ (forall w action,
         Values.is_str "analyze_model" action = false ->
         Values.is_str "compare_models" action = false ->
         invoke (Ok tt) w [("action", action)] = UnknownAction action)
  /\ (forall w, invoke (Ok tt) w [] = UnknownAction JNull).
Proof.
  repeat split.
  - intros w model_name H. unfold invoke, invoke_try, analyze_request.
    cbn [Py.bind payload_get Py.get_default Py.get String.eqb Ascii.eqb
         Bool.eqb Values.is_str]. now rewrite H.
  - intros w names H. unfold invoke, invoke_try, compare_request.
    cbn [Py.bind payload_get Py.get_default Py.get String.eqb Ascii.eqb
         Bool.eqb Values.is_str].
    destruct names as [| a [| b rest]]; [reflexivity | reflexivity |].
    cbn in H. lia.
  - intros w z H. unfold invoke, invoke_try, compare_request.
    cbn [Py.bind payload_get Py.get_default Py.get String.eqb Ascii.eqb
         Bool.eqb Values.is_str Values.truth].
    apply Z.eqb_neq in H. now rewrite H.
  - intros w action H1 H2. unfold invoke, invoke_try.
    cbn [Py.bind payload_get Py.get_default Py.get String.eqb Ascii.eqb
         Bool.eqb]. now rewrite H1, H2.
Qed.





(** *** A comparison request *)

Lemma mapM_id_ok (A : Type) (outcomes : list (result A)) :
  forall rs, Py.mapM (fun o => o) outcomes = Ok rs -> outcomes = map Ok rs.
Proof.
  induction outcomes as [| o outcomes IH]; intros rs; cbn [Py.mapM].
  - intros H. injection H as <-. reflexivity.
  - destruct o as [a |]; [| discriminate].
    destruct (Py.mapM (fun o => o) outcomes) as [l |]; [| discriminate].
    intros H. injection H as <-. cbn [map]. now rewrite (IH l).
Qed.

Lemma gather_ok (A : Type) (first : nat) (outcomes : list (result A))
    (rs : list A) :
  gather first outcomes = Ok rs -> outcomes = map Ok rs.
Proof.
  unfold gather.
  destruct (Py.mapM (fun o => o) outcomes) as [l |] eqn:H.
  - intros E. injection E as <-. now apply mapM_id_ok.
  - destruct (nth_error outcomes first) as [[a | e'] |]; discriminate.
Qed.

(** An analysis that returns was asked for a [str], and the hub and the
    report writer answered. *)
Lemma analysis_returned (t : Task) (n : json) (r : AnalysisResult)
    (path : string) :
  analysis t n = Ok (r, path) ->
  exists s info files,
    n = JStr s /\ fetched t = Ok (info, files) /\ report t = Ok path
    /\ r = result_of t s info files.
Proof.
  unfold analysis.
  destruct n as [| b | z | f | s | l | d];
    try (destruct (fetched t); [| discriminate];
         destruct (report t); discriminate).
  destruct (fetched t) as [[info files] |] eqn:Hf; [| discriminate].
  cbn [get_model_info Py.bind].
  destruct (report t) as [p |] eqn:Hr; [| discriminate].
  cbn [Py.bind]. intros H. injection H as <- <-.
  exists s, info, files. repeat split; reflexivity.
Qed.

Lemma analyses_returned (w : World) (names : list json) :
  forall i rs,
    analyses w i names = map Ok rs ->
    names = map (fun r => JStr (model_name r)) rs /\ Forall produced rs.
Proof.
  induction names as [| n names IH]; intros i rs; cbn [analyses].
  - destruct rs; [| discriminate]. intros _. split; [reflexivity | constructor].
  - destruct rs as [| r rs]; [discriminate |]. cbn [map].
    intros H. injection H as Hhead Htail.
    destruct (IH _ _ Htail) as [-> Hp].
    destruct (analysis (task w i) n) as [[r0 path] |] eqn:Ha; [| discriminate].
    cbn [Py.bind fst] in Hhead. injection Hhead as ->.
    destruct (analysis_returned _ _ Ha) as (s & info & files & -> & Hf & _ & E).
    assert (Hn : model_name r = s) by (rewrite E; reflexivity).
    split; [now rewrite Hn |].
    constructor; [| exact Hp].
    exists (task w i), info, files. split; [exact Hf |]. now rewrite Hn.
Qed.

Lemma keys_of_pairs (V : Type) (ps : list (string * V)) :
  Py.keys (Py.of_pairs String.eqb ps) = fold_left add_key (map fst ps) [].
Proof. exact (keys_fold fst snd ps []). Qed.

(** X23.  A successful response to a comparison request naming distinct
    models is consistent with the comparison it summarises: the names are
    those of the individual results, in order, each result is the product
    of an analysis, the number of models analysed is the number of results
    and at least two, the highest-risk model is the one the comparison
    names, the totals are the sums of the per-model vulnerability and
    compliance counts, and the unique components are counted per model in
    the order of the names. *)
Theorem compare_response_is_consistent (w : World) (names : list json)
    (c : Compared) :
  NoDup names ->
  invoke (Ok tt) w (compare_request (JArr names)) = ComparedModels c ->
  exists cr,
    Orchestrator.compare_models w (JArr names) = Ok cr
    /\ names = map (fun r => JStr (model_name r)) (individual_results cr)
    /\ Forall produced (individual_results cr)
    /\ c_models_analyzed c = Z.of_nat (List.length (individual_results cr))
    /\ (2 <= c_models_analyzed c)%Z
    /\ c_highest_risk_model c
       = highest_risk_model (security_comparison (comparison cr))
    /\ c_total_security_issues c
       = Engine.sum (Py.values (vulnerability_counts
                                  (security_comparison (comparison cr))))
    /\ c_total_compliance_gaps c
       = Engine.sum (Py.values (compliance_issue_counts
                                  (security_comparison (comparison cr))))
    /\ c_common_components_count c
       = Z.of_nat (List.length (common_components (comparison cr)))
    /\ Py.keys (c_unique_components_per_model c)
       = map model_name (individual_results cr)
    /\ c_report_path c = report_path cr.
Proof.
  intros Hnd H. unfold invoke in H.
  destruct (invoke_try (Ok tt) w (compare_request (JArr names)))
    as [resp |] eqn:Ht; [| discriminate].
  subst resp. revert Ht. unfold invoke_try, compare_request.
  cbn [Py.bind payload_get Py.get_default Py.get String.eqb Ascii.eqb
       Bool.eqb Values.is_str Values.truth py_len].
  destruct names as [| n0 names0] eqn:En; [discriminate |].
  rewrite <- En in *. cbn [negb Py.bind].
  destruct (Z.ltb_spec (Z.of_nat (List.length names)) 2) as [| Hlen];
    [discriminate |].
  destruct (Orchestrator.compare_models w (JArr names)) as [cr |] eqn:Hc;
    [| discriminate].
  cbn [Py.bind]. unfold compared_response. cbn [py_len Py.bind].
  destruct (total_security_issues_count cr) as [issues |] eqn:Hi;
    [| discriminate].
  destruct (total_compliance_gaps_count cr) as [gaps |] eqn:Hg;
    [| discriminate].
  cbn [Py.bind].
  destruct (riskiest (individual_results cr)) as [highest |] eqn:Hr;
    [| discriminate].
  cbn [Py.bind]. intros E. injection E as <-.
  cbn [c_models_analyzed c_highest_risk_model c_total_security_issues
       c_total_compliance_gaps c_common_components_count
       c_unique_components_per_model c_report_path].
  exists cr. split; [reflexivity |].
  (* the steps of the orchestrator *)
  revert Hc. unfold Orchestrator.compare_models.
  destruct (boot w) as [[] |]; [| discriminate].
  cbn [Py.bind Values.iterate].
  destruct (gather (raised_first w) (analyses w 0 names)) as [rs |] eqn:Hgather;
    [| discriminate].
  cbn [Py.bind].
  destruct (Engine.compare_models rs) as [cmp |] eqn:Hcmp; [| discriminate].
  cbn [Py.bind].
  destruct (comparison_report w) as [path |]; [| discriminate].
  cbn [Py.bind]. intros Hcr. injection Hcr as <-.
  cbn [individual_results comparison report_path] in *.
  apply gather_ok in Hgather.
  destruct (analyses_returned _ _ _ _ Hgather) as [Hnames Hprod].
  assert (Hnd' : NoDup (map model_name rs)).
  { rewrite Hnames in Hnd. rewrite <- (map_map model_name JStr) in Hnd.
    exact (NoDup_map_inv _ _ Hnd). }
  assert (Hnlen : List.length names = List.length rs)
    by (rewrite Hnames; apply length_map).
  split; [exact Hnames |]. split; [exact Hprod |].
  split; [now rewrite Hnlen |]. split; [lia |].
  destruct (@compare_models_parts _ _ Hcmp) as (_ & Hu & Hs & _).
  split.
  { assert (Hne : rs <> []) by (intros ->; cbn in Hnlen; lia).
    pose proof (@riskiest_of_distinct _ _ Hnd' Hne Hs) as Hr'.
    congruence. }
  destruct (@totals_of_distinct _ _ Hnd' Hcmp) as [T1 T2].
  unfold total_security_issues_count, total_compliance_gaps_count in *.
  cbn [individual_results] in *.
  split; [congruence |]. split; [congruence |]. split; [reflexivity |].
  split; [| reflexivity].
  rewrite keys_of_pairs, map_map. cbn [fst].
  change (map (fun x => fst x) (unique_components cmp))
    with (Py.keys (unique_components cmp)).
  unfold unique_of in Hu.
  assert (Hk : NoDup (Py.keys (_extract_all_components rs))).
  { rewrite extract_keys. apply model_order_NoDup. }
  rewrite (@unique_keys _ _ Hk Hu), extract_keys. unfold model_order.
  rewrite (fold_add_key_distinct (map model_name rs) [] Hnd'). cbn [app].
  apply (fold_add_key_distinct (map model_name rs) []). exact Hnd'.
Qed.

Lemma compare_response_is_consistent_witness :
  NoDup [JStr "acme/one"; JStr "acme/two"]
  /\ exists c,
       invoke (Ok tt) sample_world
              (compare_request (JArr [JStr "acme/one"; JStr "acme/two"]))
       = ComparedModels c
       /\ c_highest_risk_model c = "acme/one"
       /\ exists cr,
            Orchestrator.compare_models sample_world
              (JArr [JStr "acme/one"; JStr "acme/two"]) = Ok cr
            /\ c_highest_risk_model c
               = highest_risk_model (security_comparison (comparison cr)).
Proof.
  assert (Hnd : NoDup [JStr "acme/one"; JStr "acme/two"]).
  { repeat (constructor; [cbn; intuition discriminate |]). constructor. }
  split; [exact Hnd |].
  destruct (invoke (Ok tt) sample_world
              (compare_request (JArr [JStr "acme/one"; JStr "acme/two"])))
    as [| | | | | c] eqn:H; try (vm_compute in H; discriminate).
  exists c. split; [reflexivity |].
  split; [vm_compute in H; injection H as <-; reflexivity |].
  destruct (@compare_response_is_consistent _ _ _ Hnd H)
    as (cr & Hc & _ & _ & _ & _ & Hhi & _).
  exists cr. split; assumption.
Defined.

(** *** Two notions of a missing license *)

Lemma license_entries_normal (mi : ModelInfo) (g : supply) :
  license_entries (build true mi g) =
  if license_unknown (license mi)
  then [license_vulnerability
          (source g (drawn g + 2 + List.length (filter flagged (files mi))))
          (name mi)]
  else [].
Proof.
  rewrite build_normal. unfold license_entries, normal_document.
  cbn [vulnerabilities]. rewrite filter_app, flagged_entries_not_license.
  cbn [app]. destruct (license_unknown (license mi)); [| reflexivity].
  cbn [filter].
  match goal with
  | |- context [license_vulnerability ?u ?n] =>
      rewrite (proj1 (license_entry_medium u n)),
              (proj2 (license_entry_medium u n))
  end.
  reflexivity.
Qed.

(** X25.  The document builder and the comparison engine do not agree on
    what a missing license is.  For a result whose document was built on
    the normal path: the document has a license finding exactly when the
    license is [None] or the word [unknown], while the comparison lists the
    model as unlicensed whenever the license is [None] or the empty string.
    So a model whose license is the empty string is listed as unlicensed
    without a finding in its document, and a model whose license is
    [unknown] has a finding and, among models of distinct names, is not
    listed as unlicensed. *)
Theorem license_notions_disagree (results : list AnalysisResult)
    (r : AnalysisResult) (g : supply) :
  In r results ->
  aibom r = build true (model_info r) g ->
  (license_entries (aibom r) <> []
   <-> license_unknown (license (model_info r)) = true)
  /\ (licensed (license (model_info r)) = false ->
      In (model_name r) (unlicensed_models (_compare_licenses results)))
  /\ (license (model_info r) = Some "" ->
      license_entries (aibom r) = []
      /\ In (model_name r) (unlicensed_models (_compare_licenses results)))
  /\ (license (model_info r) = Some "unknown" ->
      license_entries (aibom r) <> []
      /\ (NoDup (map model_name results) ->
          ~ In (model_name r) (unlicensed_models (_compare_licenses results)))).
Proof.
  intros Hin Ha. rewrite Ha, license_entries_normal, unlicensed_models_closed.
  assert (Hlisted : licensed (license (model_info r)) = false ->
                    In (model_name r)
                       (map model_name
                            (filter (fun r => negb (licensed (license (model_info r))))
                                    results))).
  { intros Hl. apply in_map. apply filter_In. split; [exact Hin |].
    now rewrite Hl. }
  split; [| split; [exact Hlisted | split]].
  - destruct (license_unknown (license (model_info r))); split;
      try discriminate; congruence.
  - intros E. split; [now rewrite E |]. apply Hlisted. now rewrite E.
  - intros E. split; [rewrite E; discriminate |].
    intros Hnd Hl. apply in_map_iff in Hl. destruct Hl as (r' & Hn & Hf).
    apply filter_In in Hf. destruct Hf as [Hr' Hp].
    assert (r' = r) by exact (NoDup_map_injective _ _ r' r Hnd Hr' Hin Hn).
    subst r'. rewrite E in Hp. discriminate.
Qed.

Lemma license_notions_disagree_witness :
  In blank_license [blank_license; unknown_license]
  /\ aibom blank_license = build true (model_info blank_license) fresh
  /\ license (model_info blank_license) = Some ""
  /\ license_entries (aibom blank_license) = []
  /\ In (model_name blank_license)
        (unlicensed_models (_compare_licenses [blank_license; unknown_license])).
Proof.
  assert (Hin : In blank_license [blank_license; unknown_license]) by now left.
  split; [exact Hin |]. split; [reflexivity |]. split; [reflexivity |].
  exact (proj1 (proj2 (proj2 (@license_notions_disagree
                                [blank_license; unknown_license]
                                blank_license fresh Hin eq_refl)))
               eq_refl).
Defined.

(** *** One failing analysis *)

Lemma gather_failure (A : Type) (first : nat) (outcomes : list (result A)) :
  Exists (fun o => Py.is_ok o = false) outcomes ->
  Py.is_ok (gather first outcomes) = false.
Proof.
  intros H. destruct (gather first outcomes) as [rs |] eqn:Hg; [| reflexivity].
  apply gather_ok in Hg. subst outcomes. exfalso.
  apply Exists_exists in H. destruct H as (o & Ho & Hf).
  apply in_map_iff in Ho. destruct Ho as (x & <- & _). discriminate.
Qed.

(** X26.  A comparison is all or nothing: when at least two models are
    named and the analysis of one of them fails, whichever it is and
    whichever failure comes first, the response is the failure response;
    the results of the other analyses are not reported. *)
Theorem one_failed_analysis_fails_the_comparison (w : World)
    (names : list json) :
  2 <= List.length names ->
  Exists (fun o => Py.is_ok o = false) (analyses w 0 names) ->
  Py.is_ok (Orchestrator.compare_models w (JArr names)) = false
  /\ invoke (Ok tt) w (compare_request (JArr names))
     = Failure (JStr "compare_models").
Proof.
  intros Hlen Hex.
  assert (Hc : Py.is_ok (Orchestrator.compare_models w (JArr names)) = false).
  { unfold Orchestrator.compare_models.
    destruct (boot w) as [[] |]; [| reflexivity].
    cbn [Py.bind Values.iterate].
    pose proof (gather_failure (raised_first w) Hex) as Hg.
    destruct (gather (raised_first w) (analyses w 0 names)); [discriminate |].
    reflexivity. }
  split; [exact Hc |].
  unfold invoke, invoke_try, compare_request.
  cbn [Py.bind payload_get Py.get_default Py.get String.eqb Ascii.eqb
       Bool.eqb Values.is_str Values.truth py_len].
  destruct names as [| n0 names0] eqn:En; [cbn in Hlen; lia |].
  rewrite <- En in *. cbn [negb Py.bind].
  destruct (Z.ltb_spec (Z.of_nat (List.length names)) 2) as [Hlt | _]; [lia |].
  destruct (Orchestrator.compare_models w (JArr names)); [discriminate |].
  reflexivity.
Qed.

Lemma one_failed_analysis_fails_the_comparison_witness :
  2 <= List.length [JStr "acme/one"; JStr "acme/two"]
  /\ Exists (fun o => Py.is_ok o = false)
            (analyses flaky_world 0 [JStr "acme/one"; JStr "acme/two"])
  /\ invoke (Ok tt) flaky_world
            (compare_request (JArr [JStr "acme/one"; JStr "acme/two"]))
     = Failure (JStr "compare_models").
Proof.
  assert (Hex : Exists (fun o => Py.is_ok o = false)
                       (analyses flaky_world 0 [JStr "acme/one"; JStr "acme/two"])).
  { apply Exists_cons_tl. apply Exists_cons_hd. reflexivity. }
  split; [cbn; lia |]. split; [exact Hex |].
  apply (@one_failed_analysis_fails_the_comparison flaky_world
           [JStr "acme/one"; JStr "acme/two"]); [cbn; lia | exact Hex].
Defined.

End PipelineFacts.

(** ** The names of the report files *)

Module ReportFacts.

Import Insights Reports ReplyFacts.
Local Open Scope string_scope.

Lemma replace_slash_clean (s : string) : has_char "/" (replace_slash s) = false.
Proof.
  induction s as [| c s IH]; cbn [replace_slash has_char]; [reflexivity |].
  rewrite IH, orb_false_r.
  destruct (Ascii.eqb c "/") eqn:E; [reflexivity | exact E].
Qed.

Lemma join_clean (parts : list string) :
  Forall (fun p => has_char "/" p = false) parts ->
  has_char "/" (join "_vs_" parts) = false.
Proof.
  induction 1 as [| p rest Hp _ IH]; [reflexivity |].
  cbn [join]. destruct rest as [| q rest]; [exact Hp |].
  rewrite !has_char_app, Hp, IH. reflexivity.
Qed.

(** X24.  The model names never put a path separator into the name of a
    report file: when the time stamp holds no slash, neither does the file
    name of the report of a single model nor that of a comparison, whatever
    the model names; the report is written in the output directory itself.
    Replacing the slash is not injective: the models [org/model] and
    [org_model] share their report file name. *)
Theorem report_file_names_hold_no_separator (stamp : string) :
  has_char "/" stamp = false ->
  (forall model_name,
      has_char "/" (single_report_filename model_name stamp) = false)
  /\ (forall model_names,
         has_char "/" (comparison_report_filename model_names stamp) = false)
  /\ single_report_filename "org/model" stamp
     = single_report_filename "org_model" stamp.
Proof.
  intros Hs. split; [| split].
  - intros model_name. unfold single_report_filename.
    rewrite !has_char_app, replace_slash_clean, Hs. reflexivity.
  - intros model_names. unfold comparison_report_filename.
    rewrite !has_char_app, Hs, join_clean; [reflexivity |].
    apply Forall_forall. intros p Hp. apply in_map_iff in Hp.
    destruct Hp as (x & <- & _). apply replace_slash_clean.
  - reflexivity.
Qed.

Lemma report_file_names_hold_no_separator_witness :
  has_char "/" "20240101_120000" = false
  /\ single_report_filename "microsoft/DialoGPT-medium" "20240101_120000"
     = "aibom_report_microsoft_DialoGPT-medium_20240101_120000.html"
  /\ has_char "/" (single_report_filename "microsoft/DialoGPT-medium"
                                          "20240101_120000") = false.
Proof.
  split; [reflexivity |]. split; [reflexivity |].
  apply (proj1 (@report_file_names_hold_no_separator "20240101_120000" eq_refl)).
Defined.

End ReportFacts.
